(** * Kinde bulk user delete: a model of the two scripts and their properties

    The repository holds two TypeScript command-line scripts that talk to
    the Kinde Management API:

    - [deleteAllUsers.ts] pages through every user of a business and
      deletes each one (module [AllUsers] below);
    - [deleteOrgUsersIdentities.ts] pages through the users of one
      organization, pages through the identities of each user and deletes
      each identity (module [OrgIdentities] below).

    Both are sequential asynchronous programs whose only inputs, once the
    environment has been read, are what the server answers, what the clock
    says and what [Math.random] draws.  They are embedded here as functions
    in a state-and-exception monad over an explicit [World]. *)

From Stdlib Require Import String ZArith List Bool Arith Lia.
Import ListNotations.
Local Open Scope string_scope.
Local Open Scope list_scope.
Local Open Scope Z_scope.

(** ** JavaScript values the scripts look at *)

(** A JavaScript number that the scripts only ever use as a whole number of
    seconds or milliseconds, or [NaN] (which also stands for the other
    non-finite results of [Number(...)]). *)
Inductive jsnum : Type :=
| Num (z : Z)
| NaN.

(** [a + b] on numbers. *)
Definition jsnum_add (a : jsnum) (b : Z) : jsnum :=
  match a with
  | Num z => Num (z + b)
  | NaN => NaN
  end.

(** [a * b] on numbers. *)
Definition jsnum_mul (a : jsnum) (b : Z) : jsnum :=
  match a with
  | Num z => Num (z * b)
  | NaN => NaN
  end.

(** Truthiness of a [string | undefined]: [undefined] and the empty string
    are falsy. *)
Definition truthy (s : option string) : bool :=
  match s with
  | Some v => negb (v =? "")%string
  | None => false
  end.

(** [a === b] on [string | undefined]. *)
Definition strict_eq (a b : option string) : bool :=
  match a, b with
  | Some x, Some y => (x =? y)%string
  | None, None => true
  | _, _ => false
  end.

(** [x ?? d]. *)
Definition nullish {A : Type} (x : option A) (d : A) : A :=
  match x with
  | Some v => v
  | None => d
  end.

(** ** Wire data *)

(** [type User] and [type OrganizationUser]: the same shape in both
    scripts. *)
Record User : Type := mkUser {
  user_id : string;
  user_email : option string
}.

Definition OrganizationUser : Type := User.

(** [type Identity].  The script guards every use of [id] against a missing
    value, so it is optional here. *)
Record Identity : Type := mkIdentity {
  identity_id : option string;
  identity_type : option string;
  identity_email : option string;
  identity_is_primary : option bool
}.

(** A parsed JSON object, seen through the fields the scripts read. *)
Record Json : Type := mkJson {
  access_token : option string;
  expires_in : option Z;
  users : option (list User);
  organization_users : option (list OrganizationUser);
  identities : option (list Identity);
  next_token : option string;
  has_more : option bool
}.

(** A non-empty [Retry-After] header value, seen through the two builtins
    applied to it: [Number(v)] and [Date.parse(v)]. *)
Record HeaderValue : Type := mkHeader {
  asNumber : jsnum;
  asDate : jsnum
}.

(** A [Response]: the status, the [retry-after] header ([None] when it is
    absent or empty) and the body ([None] when it is not JSON). *)
Record Response : Type := mkResponse {
  status : Z;
  retry_after : option HeaderValue;
  body : option Json
}.

(** [response.ok]. *)
Definition ok (r : Response) : bool :=
  (200 <=? status r) && (status r <=? 299).

Inductive Method : Type := GET | POST | DELETE.

(** The URLs the scripts build, with their query parameters. *)
Inductive Endpoint : Type :=
| OAuthToken
| UsersList (next_token : option string)
| UserById (id : string)
| OrgUsersList (next_token : option string)
| UserIdentities (userId : string) (starting_after : option string)
| IdentityById (id : string).

Record Request : Type := mkRequest {
  method : Method;
  endpoint : Endpoint;
  bearer : option string
}.

(** What the scripts throw. *)
Inductive Error : Type :=
| NetworkError
| TokenRequestFailed (st : Z)
| TokenWithoutAccessToken
| RequestFailed (m : Method) (e : Endpoint) (st : Z)
| InvalidJson (e : Endpoint).

(** The outcome of one delete batch in [deleteOrgUsersIdentities.ts]. *)
Record BulkResult : Type := mkBulk {
  deleted : nat;
  failed : nat;
  processed : nat
}.

(** ** Console output, as structured lines *)

Inductive LogMsg : Type :=
| RequestingToken
| GotToken (expiresIn : Z)
| Unauthorized401
| Throttled (st : Z) (waitMs : jsnum) (attempt : nat)
| FetchingPage (token : option string)
| PageReceived (page n : nat)
| NoNextToken
| TokenDidNotAdvance
| EmptyPage
| CollectedTotal (n : nat)
| DeletingUser (id : string)
| DeletedUser (id : string)
| DeletingLabel (i total : nat) (u : User)
| FailedToDelete (id : string) (err : Error)
| DeletionFinished (success failed : nat)
| Starting
| Settings
| NothingToDelete
| Done
| CollectingIdentities (u : User)
| IdentitiesPage (u : User) (page n : nat)
| IdentitiesEmptyPage (u : User)
| IdentitiesNoMore (u : User)
| IdentitiesNoCursor (u : User)
| IdentitiesCursorStuck (u : User)
| IdentitiesCollected (u : User) (n : nat)
| ProcessingUser (u : User)
| NoIdentities (u : User)
| DeletingIdentity (u : User) (i total : nat) (id : string)
| FailedIdentity (u : User) (id : string) (err : Error)
| FinishedUser (u : User) (r : BulkResult)
| OrgSummary (usersProcessed identitiesProcessed identitiesDeleted
              identitiesFailed : nat).

(** ** The world *)

(** What the server does with the n-th request: how long it takes, and the
    response ([None] when [fetch] rejects). *)
Record Reply : Type := mkReply {
  latency : nat;
  result : option Response
}.

Record TokenCache : Type := mkCache {
  token : string;
  expiresAt : Z
}.

Inductive Event : Type :=
| Sent (r : Request)
| Slept (ms : jsnum)
| Logged (m : LogMsg)
| ConsoleError (e : Error).

Record World : Type := mkWorld {
  clock : Z;                      (* Date.now() *)
  tokenCache : option TokenCache; (* the module-level [let tokenCache] *)
  network : nat -> Reply;         (* the server's answers, in order *)
  served : nat;                   (* how many requests were sent *)
  entropy : nat -> Z;             (* the draws of Math.random *)
  drawn : nat;                    (* how many were taken *)
  journal : list Event;           (* what happened, newest first *)
  exitCode : Z                    (* process.exitCode, 0 when unset *)
}.

Definition tick (ms : Z) (w : World) : World :=
  mkWorld (clock w + Z.max 0 ms) (tokenCache w) (network w) (served w)
          (entropy w) (drawn w) (journal w) (exitCode w).

Definition note (e : Event) (w : World) : World :=
  mkWorld (clock w) (tokenCache w) (network w) (served w)
          (entropy w) (drawn w) (e :: journal w) (exitCode w).

Definition store (c : TokenCache) (w : World) : World :=
  mkWorld (clock w) (Some c) (network w) (served w)
          (entropy w) (drawn w) (journal w) (exitCode w).

Definition consume (w : World) : World :=
  mkWorld (clock w) (tokenCache w) (network w) (S (served w))
          (entropy w) (drawn w) (journal w) (exitCode w).

Definition draw (w : World) : World :=
  mkWorld (clock w) (tokenCache w) (network w) (served w)
          (entropy w) (S (drawn w)) (journal w) (exitCode w).

Definition exitWith (c : Z) (w : World) : World :=
  mkWorld (clock w) (tokenCache w) (network w) (served w)
          (entropy w) (drawn w) (journal w) c.

(** The journal in the order things happened. *)
Definition history (w : World) : list Event := rev (journal w).

(** ** The monad *)

(** A call returns, throws, or is still running when the step budget of a
    [while (true)] loop is used up. *)
Inductive Outcome (A : Type) : Type :=
| Return (a : A)
| Throw (e : Error)
| Pending.

Arguments Return {A} a.
Arguments Throw {A} e.
Arguments Pending {A}.

Definition M (St A : Type) : Type := St -> Outcome A * St.

Definition ret {St A : Type} (a : A) : M St A := fun s => (Return a, s).

Definition throw {St A : Type} (e : Error) : M St A := fun s => (Throw e, s).

Definition pending {St A : Type} : M St A := fun s => (Pending, s).

Definition bind {St A B : Type} (m : M St A) (k : A -> M St B) : M St B :=
  fun s =>
    match m s with
    | (Return a, s') => k a s'
    | (Throw e, s') => (Throw e, s')
    | (Pending, s') => (Pending, s')
    end.

(** [try { m } catch (err) { handler err }]. *)
Definition try_catch {St A : Type} (m : M St A) (handler : Error -> M St A) : M St A :=
  fun s =>
    match m s with
    | (Throw e, s') => handler e s'
    | other => other
    end.

Declare Scope eff_scope.
Delimit Scope eff_scope with eff.
Notation "x <- m ;; k" := (bind m (fun x => k))
  (at level 100, m at next level, right associativity) : eff_scope.
Notation "m ;; k" := (bind m (fun _ => k))
  (at level 100, right associativity) : eff_scope.
Local Open Scope eff_scope.

(** The scripts run in [Eff]. *)
Definition Eff (A : Type) : Type := M World A.

(** [Date.now()]. *)
Definition Date_now : Eff Z := fun w => (Return (clock w), w).

(** [Math.floor(Math.random() * n)]: [Math.random()] is [k / 2^53] for a
    [k] in [0, 2^53), taken from the next draw. *)
Definition random_below (n : Z) : Eff Z :=
  fun w => (Return ((entropy w (drawn w) mod 2 ^ 53) * n / 2 ^ 53), draw w).

(** [await sleep(ms)]; a timer with a [NaN] delay fires at once. *)
Definition sleep (ms : jsnum) : Eff unit :=
  fun w => (Return tt,
            tick (match ms with Num z => z | NaN => 0 end) (note (Slept ms) w)).

(** [log(msg)]. *)
Definition log (m : LogMsg) : Eff unit :=
  fun w => (Return tt, note (Logged m) w).

(** [console.error(err)]. *)
Definition console_error (e : Error) : Eff unit :=
  fun w => (Return tt, note (ConsoleError e) w).

(** [process.exitCode = c]. *)
Definition set_exitCode (c : Z) : Eff unit :=
  fun w => (Return tt, exitWith c w).

(** [await fetch(url, init)]: the request goes out, the next reply of the
    server comes back after its latency. *)
Definition fetch (r : Request) : Eff Response :=
  fun w =>
    let reply := network w (served w) in
    let w' := tick (Z.of_nat (latency reply)) (consume (note (Sent r) w)) in
    match result reply with
    | Some resp => (Return resp, w')
    | None => (Throw NetworkError, w')
    end.

Definition read_tokenCache : Eff (option TokenCache) :=
  fun w => (Return (tokenCache w), w).

Definition write_tokenCache (c : TokenCache) : Eff unit :=
  fun w => (Return tt, store c w).

(** The part of the environment the modelled functions read. *)
Record Config : Type := mkConfig {
  MAX_RETRIES : nat;
  BASE_DELAY_MS : Z
}.

(** ** deleteOrgUsersIdentities.ts *)

(** The functions below follow the script one for one.  A URL is kept as
    its [Endpoint]; the page size, the user label and the position/total
    prefix of the progress lines, and the wording of error messages
    ([formatErrorBody]) are left out, since nothing branches on them.  A
    [while (true)] loop takes the number of turns it may make; with none
    left the call is [Pending]. *)

Module OrgIdentities.

(** The running totals of [main]. *)
Record Totals : Type := mkTotals {
  usersProcessed : nat;
  identitiesProcessed : nat;
  identitiesDeleted : nat;
  identitiesFailed : nat
}.

(** The two [while (true)] loops, over the page fetch they call and the
    sink they log to. *)
Section Paginators.

Context {St : Type}.
Variable log : LogMsg -> M St unit.

Section OrganizationUsers.

Variable getOrganizationUsersPage : option string -> M St Json.

Fixpoint collectOrganizationUsers_loop (steps : nat) (users : list OrganizationUser)
    (nextToken : option string) (page : nat) : M St (list OrganizationUser) :=
  match steps with
  | O => pending
  | S steps' =>
    let page := S page in
    data <- getOrganizationUsersPage nextToken ;;
    let pageUsers := nullish (organization_users data) [] in
    log (PageReceived page (length pageUsers)) ;;
    let users := users ++ pageUsers in
    let newNextToken := next_token data in
    if (length pageUsers =? 0)%nat then
      log EmptyPage ;; ret users
    else if negb (truthy newNextToken) then
      log NoNextToken ;; ret users
    else if strict_eq newNextToken nextToken then
      log TokenDidNotAdvance ;; ret users
    else collectOrganizationUsers_loop steps' users newNextToken page
  end.

Definition collectOrganizationUsers_with (steps : nat) : M St (list OrganizationUser) :=
  users <- collectOrganizationUsers_loop steps [] None 0%nat ;;
  log (CollectedTotal (length users)) ;;
  ret users.

End OrganizationUsers.

Section UserIdentities.

Variable getUserIdentitiesPage : string -> option string -> M St Json.

(** [identities[identities.length - 1]?.id]. *)
Definition lastId (identities : list Identity) : option string :=
  last (map identity_id identities) None.

Fixpoint collectAllUserIdentities_loop (steps : nat) (user : OrganizationUser)
    (allIdentities : list Identity) (startingAfter : option string) (page : nat)
    : M St (list Identity) :=
  match steps with
  | O => pending
  | S steps' =>
    let page := S page in
    data <- getUserIdentitiesPage (user_id user) startingAfter ;;
    let identities := nullish (identities data) [] in
    log (IdentitiesPage user page (length identities)) ;;
    if (length identities =? 0)%nat then
      log (IdentitiesEmptyPage user) ;; ret allIdentities
    else
      let allIdentities := allIdentities ++ identities in
      if negb (nullish (has_more data) false) then
        log (IdentitiesNoMore user) ;; ret allIdentities
      else
        let newStartingAfter := lastId identities in
        if negb (truthy newStartingAfter) then
          log (IdentitiesNoCursor user) ;; ret allIdentities
        else if strict_eq newStartingAfter startingAfter then
          log (IdentitiesCursorStuck user) ;; ret allIdentities
        else collectAllUserIdentities_loop steps' user allIdentities newStartingAfter page
  end.

Definition collectAllUserIdentities_with (steps : nat) (user : OrganizationUser)
    : M St (list Identity) :=
  log (CollectingIdentities user) ;;
  allIdentities <- collectAllUserIdentities_loop steps user [] None 0%nat ;;
  log (IdentitiesCollected user (length allIdentities)) ;;
  ret allIdentities.

End UserIdentities.

End Paginators.

(** [new Set(xs)] keeps its members in insertion order; adding a member
    that is already there changes nothing. *)
Definition Set_add (members : list string) (x : string) : list string :=
  if existsb (String.eqb x) members then members else members ++ [x].

(** [Array.from(new Set(xs))]. *)
Definition Set_of (xs : list string) : list string := fold_left Set_add xs [].

(** [.filter((id) => Boolean(id))] on [string | undefined] values. *)
Definition filter_Boolean (xs : list (option string)) : list string :=
  flat_map (fun x => if truthy x then [nullish x ""] else []) xs.

(** The [uniqueIdentityIds] of [deleteAllUserIdentities]. *)
Definition uniqueIdentityIds (identities : list Identity) : list string :=
  Set_of (filter_Boolean (map identity_id identities)).

Section Script.

Variable cfg : Config.

Definition parseRetryAfterMs (retryAfter : option HeaderValue) : Eff (option Z) :=
  match retryAfter with
  | None => ret None
  | Some h =>
    let byDate :=
      match asDate h with
      | Num dateMs => now <- Date_now ;; ret (Some (Z.max 0 (dateMs - now)))
      | NaN => ret None
      end in
    match asNumber h with
    | Num seconds => if 0 <=? seconds then ret (Some (seconds * 1000)) else byDate
    | NaN => byDate
    end
  end.

(** The guard of [getAccessToken]:
    [!force && tokenCache && Date.now() < tokenCache.expiresAt]; the cached
    token when it holds. *)
Definition cached (force : bool) (cache : option TokenCache) (now : Z) : option string :=
  match cache with
  | Some c => if negb force && (now <? expiresAt c) then Some (token c) else None
  | None => None
  end.

Definition getAccessToken (force : bool) : Eff string :=
  cache <- read_tokenCache ;;
  now <- Date_now ;;
  match cached force cache now with
  | Some t => ret t
  | None =>
    log RequestingToken ;;
    response <- fetch (mkRequest POST OAuthToken None) ;;
    if negb (ok response) then throw (TokenRequestFailed (status response))
    else
      match body response with
      | Some json =>
        if truthy (access_token json) then
          let expiresIn := nullish (expires_in json) 3600 in
          now' <- Date_now ;;
          let fresh := mkCache (nullish (access_token json) "")
                               (now' + Z.max (expiresIn - 60) 0 * 1000) in
          write_tokenCache fresh ;;
          log (GotToken expiresIn) ;;
          ret (token fresh)
        else throw TokenWithoutAccessToken
      | None => throw TokenWithoutAccessToken
      end
  end.

(** Enough steps for [requestWithRetry] from [attempt] on: each call either
    uses up the one refresh or one of the remaining retries. *)
Definition budget (attempt : nat) (refreshedAfter401 : bool) : nat :=
  S (2 * (MAX_RETRIES cfg - attempt) + (if refreshedAfter401 then 0 else 1)).

Fixpoint requestWithRetry_steps (steps : nat) (m : Method) (url : Endpoint)
    (attempt : nat) (refreshedAfter401 : bool) : Eff Response :=
  match steps with
  | O => pending
  | S steps' =>
    token <- getAccessToken false ;;
    response <- fetch (mkRequest m url (Some token)) ;;
    if (status response =? 401) && negb refreshedAfter401 then
      log Unauthorized401 ;;
      getAccessToken true ;;
      requestWithRetry_steps steps' m url attempt true
    else if ((status response =? 429) || (500 <=? status response))
            && (attempt <? MAX_RETRIES cfg)%nat then
      retryAfterMs <- parseRetryAfterMs (retry_after response) ;;
      let backoffMs := Z.min (BASE_DELAY_MS cfg * 2 ^ Z.of_nat attempt) 15000 in
      jitter <- random_below 250 ;;
      let waitMs := nullish retryAfterMs backoffMs + jitter in
      log (Throttled (status response) (Num waitMs) (S attempt)) ;;
      sleep (Num waitMs) ;;
      requestWithRetry_steps steps' m url (S attempt) refreshedAfter401
    else ret response
  end.

Definition requestWithRetry (m : Method) (url : Endpoint)
    (attempt : nat) (refreshedAfter401 : bool) : Eff Response :=
  requestWithRetry_steps (budget attempt refreshedAfter401) m url attempt refreshedAfter401.

Definition getOrganizationUsersPage (nextToken : option string) : Eff Json :=
  let url := OrgUsersList (if truthy nextToken then nextToken else None) in
  log (FetchingPage (if truthy nextToken then nextToken else None)) ;;
  response <- requestWithRetry GET url 0 false ;;
  if negb (ok response) then throw (RequestFailed GET url (status response))
  else
    match body response with
    | Some data => ret data
    | None => throw (InvalidJson url)
    end.

Definition collectOrganizationUsers (steps : nat) : Eff (list OrganizationUser) :=
  collectOrganizationUsers_with log getOrganizationUsersPage steps.

Definition getUserIdentitiesPage (userId : string) (startingAfter : option string)
    : Eff Json :=
  let url := UserIdentities userId (if truthy startingAfter then startingAfter else None) in
  response <- requestWithRetry GET url 0 false ;;
  if negb (ok response) then throw (RequestFailed GET url (status response))
  else
    match body response with
    | Some data => ret data
    | None => throw (InvalidJson url)
    end.

Definition deleteIdentity (identityId : string) : Eff unit :=
  let url := IdentityById identityId in
  response <- requestWithRetry DELETE url 0 false ;;
  if negb (ok response) then throw (RequestFailed DELETE url (status response))
  else ret tt.

Definition collectAllUserIdentities (steps : nat) (user : OrganizationUser)
    : Eff (list Identity) :=
  collectAllUserIdentities_with log getUserIdentitiesPage steps user.

(** The [for ... of uniqueIdentityIds.entries()] loop, from [index] on. *)
Fixpoint deleteIdentities (user : OrganizationUser) (total : nat) (index : nat)
    (ids : list string) (counts : BulkResult) : Eff BulkResult :=
  match ids with
  | [] => ret counts
  | identityId :: rest =>
    let processed := S index in
    counts' <-
      try_catch
        (log (DeletingIdentity user processed total identityId) ;;
         deleteIdentity identityId ;;
         ret (mkBulk (S (deleted counts)) (failed counts) processed))
        (fun err =>
           log (FailedIdentity user identityId err) ;;
           ret (mkBulk (deleted counts) (S (failed counts)) processed)) ;;
    deleteIdentities user total (S index) rest counts'
  end.

Definition deleteAllUserIdentities (steps : nat) (user : OrganizationUser)
    : Eff BulkResult :=
  log (ProcessingUser user) ;;
  identities <- collectAllUserIdentities steps user ;;
  if (length identities =? 0)%nat then
    log (NoIdentities user) ;;
    ret (mkBulk 0 0 0)
  else
    let ids := uniqueIdentityIds identities in
    counts <- deleteIdentities user (length ids) 0 ids (mkBulk 0 0 0) ;;
    log (FinishedUser user counts) ;;
    ret counts.

(** The [for ... of orgUsers.entries()] loop of [main]. *)
Fixpoint forEachUser (steps : nat) (orgUsers : list OrganizationUser) (t : Totals)
    : Eff Totals :=
  match orgUsers with
  | [] => ret t
  | user :: rest =>
    result <- deleteAllUserIdentities steps user ;;
    forEachUser steps rest
      (mkTotals (S (usersProcessed t))
                (identitiesProcessed t + processed result)
                (identitiesDeleted t + deleted result)
                (identitiesFailed t + failed result))
  end.

Definition main (steps : nat) : Eff unit :=
  try_catch
    (log Starting ;;
     log Settings ;;
     orgUsers <- collectOrganizationUsers steps ;;
     if (length orgUsers =? 0)%nat then log NothingToDelete
     else
       t <- forEachUser steps orgUsers (mkTotals 0 0 0 0) ;;
       log (OrgSummary (usersProcessed t) (identitiesProcessed t)
                       (identitiesDeleted t) (identitiesFailed t)) ;;
       if (0 <? identitiesFailed t)%nat then set_exitCode 1 else ret tt)
    (fun err => console_error err ;; set_exitCode 1).

End Script.

End OrgIdentities.

(** ** deleteAllUsers.ts *)

(** The older of the two scripts, modelled the same way.  It has its own
    [getAccessToken] and [requestWithRetry], which differ from the ones
    above in the expiry they cache, in the guard of the 401 refresh and in
    how they read [Retry-After]. *)

Module AllUsers.

Section Paginator.

Context {St : Type}.
Variable log : LogMsg -> M St unit.
Variable getUsersPage : option string -> M St Json.

Fixpoint collectAllUsers_loop (steps : nat) (all : list User)
    (nextToken : option string) (page : nat) : M St (list User) :=
  match steps with
  | O => pending
  | S steps' =>
    let page := S page in
    data <- getUsersPage nextToken ;;
    let users := nullish (users data) [] in
    log (PageReceived page (length users)) ;;
    let all := all ++ users in
    let prevToken := nextToken in
    let nextToken := next_token data in
    if negb (truthy nextToken) || strict_eq nextToken prevToken
       || (length users =? 0)%nat then
      (if negb (truthy nextToken) then log NoNextToken
       else if strict_eq nextToken prevToken then log TokenDidNotAdvance
       else log EmptyPage) ;;
      ret all
    else collectAllUsers_loop steps' all nextToken page
  end.

Definition collectAllUsers_with (steps : nat) : M St (list User) :=
  all <- collectAllUsers_loop steps [] None 0%nat ;;
  log (CollectedTotal (length all)) ;;
  ret all.

End Paginator.

Section Script.

Variable cfg : Config.

Definition cached (force : bool) (cache : option TokenCache) (now : Z) : option string :=
  match cache with
  | Some c => if negb force && (now <? expiresAt c) then Some (token c) else None
  | None => None
  end.

(** A response without [access_token] is cached all the same; the value
    only ever reaches the [`Bearer ${token}`] header, where [undefined]
    prints as that word. *)
Definition getAccessToken (force : bool) : Eff string :=
  cache <- read_tokenCache ;;
  now <- Date_now ;;
  match cached force cache now with
  | Some t => ret t
  | None =>
    log RequestingToken ;;
    resp <- fetch (mkRequest POST OAuthToken None) ;;
    if negb (ok resp) then throw (TokenRequestFailed (status resp))
    else
      match body resp with
      | Some json =>
        let expiresIn := nullish (expires_in json) 3600 in
        now' <- Date_now ;;
        let fresh := mkCache (nullish (access_token json) "undefined")
                             (now' + (expiresIn - 60) * 1000) in
        write_tokenCache fresh ;;
        log (GotToken expiresIn) ;;
        ret (token fresh)
      | None => throw (InvalidJson OAuthToken)
      end
  end.

(** Enough steps for [requestWithRetry] from [attempt] on. *)
Definition budget (attempt : nat) : nat :=
  S (Nat.max (MAX_RETRIES cfg) 1 - attempt).

Fixpoint requestWithRetry_steps (steps : nat) (m : Method) (url : Endpoint)
    (attempt : nat) : Eff Response :=
  match steps with
  | O => pending
  | S steps' =>
    token <- getAccessToken false ;;
    resp <- fetch (mkRequest m url (Some token)) ;;
    if (status resp =? 401) && (attempt <? 1)%nat then
      log Unauthorized401 ;;
      getAccessToken true ;;
      requestWithRetry_steps steps' m url (S attempt)
    else if ((status resp =? 429) || (500 <=? status resp))
            && (attempt <? MAX_RETRIES cfg)%nat then
      let retryAfter := retry_after resp in
      let baseDelay :=
        match retryAfter with
        | Some h => jsnum_mul (asNumber h) 1000
        | None => Num (Z.min (BASE_DELAY_MS cfg * 2 ^ Z.of_nat attempt) 15000)
        end in
      jitter <- random_below 250 ;;
      log (Throttled (status resp) (jsnum_add baseDelay jitter) (S attempt)) ;;
      sleep (jsnum_add baseDelay jitter) ;;
      requestWithRetry_steps steps' m url (S attempt)
    else ret resp
  end.

Definition requestWithRetry (m : Method) (url : Endpoint) (attempt : nat)
    : Eff Response :=
  requestWithRetry_steps (budget attempt) m url attempt.

Definition getUsersPage (nextToken : option string) : Eff Json :=
  let url := UsersList (if truthy nextToken then nextToken else None) in
  log (FetchingPage (if truthy nextToken then nextToken else None)) ;;
  resp <- requestWithRetry GET url 0 ;;
  if negb (ok resp) then throw (RequestFailed GET url (status resp))
  else
    match body resp with
    | Some data => ret data
    | None => throw (InvalidJson url)
    end.

Definition collectAllUsers (steps : nat) : Eff (list User) :=
  collectAllUsers_with log getUsersPage steps.

Definition deleteUser (userId : string) : Eff unit :=
  let url := UserById userId in
  log (DeletingUser userId) ;;
  resp <- requestWithRetry DELETE url 0 ;;
  if negb (ok resp) then throw (RequestFailed DELETE url (status resp))
  else log (DeletedUser userId).

(** The [for ... of users.entries()] loop, from index [i] on; the pair is
    [(success, failed)]. *)
Fixpoint deleteEach (total : nat) (i : nat) (users : list User)
    (counts : nat * nat) : Eff (nat * nat) :=
  match users with
  | [] => ret counts
  | u :: rest =>
    counts' <-
      try_catch
        (log (DeletingLabel (S i) total u) ;;
         deleteUser (user_id u) ;;
         ret (S (fst counts), snd counts))
        (fun err =>
           log (FailedToDelete (user_id u) err) ;;
           ret (fst counts, S (snd counts))) ;;
    deleteEach total (S i) rest counts'
  end.

Definition deleteAllUsers (users : list User) : Eff unit :=
  counts <- deleteEach (length users) 0 users (0%nat, 0%nat) ;;
  log (DeletionFinished (fst counts) (snd counts)).

Definition main (steps : nat) : Eff unit :=
  try_catch
    (log Starting ;;
     log Settings ;;
     users <- collectAllUsers steps ;;
     if (length users =? 0)%nat then log NothingToDelete
     else
       deleteAllUsers users ;;
       log Done)
    (fun err => console_error err ;; set_exitCode 1).

End Script.

End AllUsers.

(** ** Reading the journal *)

(** What an observer keeps of a world: the journal entries selected by
    [keep], and the exit code. *)
Definition view (keep : Event -> bool) (w : World) : list Event * Z :=
  (filter keep (journal w), exitCode w).

(** How many journal entries [keep] selects. *)
Definition tally (keep : Event -> bool) (w : World) : nat :=
  length (filter keep (journal w)).

(** Token acquisition, the 401 refresh and the backoff: what every request
    through [requestWithRetry] may add to the journal besides the request
    itself. *)
Definition plumbing (e : Event) : bool :=
  match e with
  | Sent r => match endpoint r with OAuthToken => true | _ => false end
  | Slept _ => true
  | Logged RequestingToken => true
  | Logged (GotToken _) => true
  | Logged Unauthorized401 => true
  | Logged (Throttled _ _ _) => true
  | _ => false
  end.

Definition isTokenRequest (e : Event) : bool :=
  match e with
  | Sent r => match endpoint r with OAuthToken => true | _ => false end
  | _ => false
  end.

Definition isRefresh (e : Event) : bool :=
  match e with
  | Logged Unauthorized401 => true
  | _ => false
  end.

Definition isConsoleError (e : Event) : bool :=
  match e with
  | ConsoleError _ => true
  | _ => false
  end.

Definition isIdentityAttempt (e : Event) : bool :=
  match e with
  | Logged (DeletingIdentity _ _ _ _) => true
  | _ => false
  end.

Definition isUserAttempt (e : Event) : bool :=
  match e with
  | Logged (DeletingUser _) => true
  | _ => false
  end.

Definition isIdentityFailure (e : Event) : bool :=
  match e with
  | Logged (FailedIdentity _ _ _) => true
  | _ => false
  end.

Definition isUserFailure (e : Event) : bool :=
  match e with
  | Logged (FailedToDelete _ _) => true
  | _ => false
  end.

(** A [DELETE /identities/{id}] request for an id outside [allowed]. *)
Definition strayIdentityDelete (allowed : list string) (e : Event) : bool :=
  match e with
  | Sent r =>
    match method r, endpoint r with
    | DELETE, IdentityById id => negb (existsb (String.eqb id) allowed)
    | _, _ => false
    end
  | _ => false
  end.

(** A [DELETE /identities/] request with nothing after the slash. *)
Definition emptyIdentityDelete (e : Event) : bool :=
  match e with
  | Sent r =>
    match method r, endpoint r with
    | DELETE, IdentityById id => (id =? "")%string
    | _, _ => false
    end
  | _ => false
  end.

Definition attemptedIdentity (e : Event) : list string :=
  match e with
  | Logged (DeletingIdentity _ _ _ id) => [id]
  | _ => []
  end.

Definition attemptedUser (e : Event) : list string :=
  match e with
  | Logged (DeletingUser id) => [id]
  | _ => []
  end.

Definition sleptFor (e : Event) : list jsnum :=
  match e with
  | Slept ms => [ms]
  | _ => []
  end.

Definition fetchedWith (e : Event) : list (option string) :=
  match e with
  | Logged (FetchingPage t) => [t]
  | _ => []
  end.

(** The tokens the listing pages were fetched with, oldest first. *)
Definition pageTokens (w : World) : list (option string) :=
  rev (flat_map fetchedWith (journal w)).

(** The ids [deleteIdentity] was called with, oldest first. *)
Definition identityAttempts (w : World) : list string :=
  rev (flat_map attemptedIdentity (journal w)).

(** The ids [deleteUser] was called with, oldest first. *)
Definition userAttempts (w : World) : list string :=
  rev (flat_map attemptedUser (journal w)).

(** The delays slept, oldest first. *)
Definition sleeps (w : World) : list jsnum :=
  rev (flat_map sleptFor (journal w)).

(** ** Deduplication in first-seen order *)

(** Walk the list once, keeping an element when it is not among those
    [seen] so far. *)
Fixpoint first_seen (seen xs : list string) : list string :=
  match xs with
  | [] => []
  | x :: rest =>
    if existsb (String.eqb x) seen then first_seen seen rest
    else x :: first_seen (seen ++ [x]) rest
  end.

(** ** A server that hands out pages *)

(** The paginators only see what their page fetch returns.  This server
    returns the pages of a fixed sequence, one per call, and keeps the
    tokens it was asked with (newest first). *)
Record PageServer : Type := mkServer {
  pages : nat -> Error + Json;
  position : nat;
  asked : list (option string)
}.

Definition opened (ps : nat -> Error + Json) : PageServer := mkServer ps 0 [].

Definition serve (shape : Json -> Json) (tok : option string) : M PageServer Json :=
  fun s =>
    let s' := mkServer (pages s) (S (position s)) (tok :: asked s) in
    match pages s (position s) with
    | inr page => (Return (shape page), s')
    | inl e => (Throw e, s')
    end.

Definition mute (m : LogMsg) : M PageServer unit := ret tt.

(** The same page under the field name of the organization endpoint. *)
Definition as_organization_users (page : Json) : Json :=
  mkJson (access_token page) (expires_in page) None (users page)
         (identities page) (next_token page) (has_more page).

Definition as_is (page : Json) : Json := page.

(** Whether a sequence of tokens holds the same one twice in a row. *)
Fixpoint stutters (l : list (option string)) : bool :=
  match l with
  | a :: (b :: _) as rest => strict_eq a b || stutters rest
  | _ => false
  end.

(** ** The backoff delay as the specification words it *)

(** [max(retryAfterHint, baseDelay * 2^attempt)] capped at 15000 ms, plus
    the jitter. *)
Definition claimed_waitMs (retryAfterHint baseDelay : Z) (attempt : nat) (jitter : Z) : Z :=
  Z.min (Z.max retryAfterHint (baseDelay * 2 ^ Z.of_nat attempt)) 15000 + jitter.

(** [parseRetryAfterMs] as a function of the clock. *)
Definition retryAfterHint (retryAfter : option HeaderValue) (now : Z) : option Z :=
  match retryAfter with
  | None => None
  | Some h =>
    let byDate :=
      match asDate h with
      | Num dateMs => Some (Z.max 0 (dateMs - now))
      | NaN => None
      end in
    match asNumber h with
    | Num seconds => if 0 <=? seconds then Some (seconds * 1000) else byDate
    | NaN => byDate
    end
  end.

(** ** Sample servers *)

Definition tokenReply (t : string) (expires : Z) : Reply :=
  mkReply 5 (Some (mkResponse 200 None
    (Some (mkJson (Some t) (Some expires) None None None None None)))).

Definition statusReply (st : Z) : Reply :=
  mkReply 5 (Some (mkResponse st None None)).

Definition throttledReply (st : Z) (h : HeaderValue) : Reply :=
  mkReply 5 (Some (mkResponse st (Some h) None)).

Definition plainUser (id : string) : User := mkUser id None.

Definition plainIdentity (id : option string) : Identity :=
  mkIdentity id None None None.

Definition usersReply (ids : list string) (next : option string) : Reply :=
  mkReply 5 (Some (mkResponse 200 None
    (Some (mkJson None None (Some (map plainUser ids)) None None next None)))).

Definition orgUsersReply (ids : list string) (next : option string) : Reply :=
  mkReply 5 (Some (mkResponse 200 None
    (Some (mkJson None None None (Some (map plainUser ids)) None next None)))).

Definition identitiesReply (ids : list (option string)) (more : bool) : Reply :=
  mkReply 5 (Some (mkResponse 200 None
    (Some (mkJson None None None None (Some (map plainIdentity ids)) None (Some more))))).

(** The server answers with the replies of the list, then with 404. *)
Definition scripted (l : list Reply) : nat -> Reply :=
  fun n => nth n l (statusReply 404).

(** A process that has just started, at clock 1000. *)
Definition boot (l : list Reply) : World :=
  mkWorld 1000 None (scripted l) 0 (fun _ => 0) 0 [] 0.

Definition sampleConfig : Config := mkConfig 6 500.

(** A listing page for the page server. *)
Definition listing (ids : list string) (next : option string) : Error + Json :=
  inr (mkJson None None (Some (map plainUser ids)) None None next None).

(** A listing whose next-token is ["A"] on even pages and ["B"] on odd
    ones, for ever. *)
Definition alternating (n : nat) : Error + Json :=
  listing ["u"] (Some (if Nat.even n then "A" else "B")).

(** The pages of the list, then an empty page without a token. *)
Definition paged (l : list (Error + Json)) : nat -> Error + Json :=
  fun n => nth n l (listing [] None).

(** The identity page fetch on the page server: the user does not
    matter. *)
Definition serve_identities (userId : string) (cursor : option string)
    : M PageServer Json :=
  serve as_is cursor.

(** ** deleteOrgUsersIdentities.ts: the text of an error body *)

Module OrgErrors.

(** [type ApiErrorItem] and [type ApiErrorResponse]. *)
Record ApiErrorItem : Type := mkItem {
  item_code : option string;
  item_message : option string
}.

Record ApiErrorResponse : Type := mkApiError {
  api_code : option string;
  api_message : option string;
  api_errors : option (list ApiErrorItem)
}.

(** [xs.join(sep)]. *)
Fixpoint join (sep : string) (xs : list string) : string :=
  match xs with
  | [] => ""
  | [x] => x
  | x :: rest => (x ++ sep ++ join sep rest)%string
  end.

(** [[code, message].filter(Boolean).join(": ")]. *)
Definition labelled (code message : option string) : string :=
  join ": " (OrgIdentities.filter_Boolean [code; message]).

(** [text || "No response body"]. *)
Definition orNoBody (text : string) : string :=
  if (text =? "")%string then "No response body" else text.

Section Format.

(** [tryParseJson<ApiErrorResponse>]: [None] when [JSON.parse] throws or
    gives a falsy value. *)
Variable tryParseJson : string -> option ApiErrorResponse.

Definition formatErrorBody (text : string) : string :=
  match tryParseJson text with
  | None => orNoBody text
  | Some parsed =>
    match api_errors parsed with
    | Some (e :: es) =>
      join "; " (map (fun e => labelled (item_code e) (item_message e)) (e :: es))
    | _ =>
      if truthy (api_code parsed) || truthy (api_message parsed) then
        labelled (api_code parsed) (api_message parsed)
      else orNoBody text
    end
  end.

End Format.

End OrgErrors.

(** ** deleteOrgUsersIdentities.ts: reading the environment *)

Module OrgConfig.

(** The three messages the script can stop with before [main] runs. *)
Inductive ConfigError : Type :=
| MissingEnv (name : string)
| InvalidEnv (name : string)
| Refused.

(** [process.env]. *)
Definition Env : Type := string -> option string.

(** What has been read when the script reaches [main]. *)
Record Settings : Type := mkSettings {
  HOST : string;
  CLIENT_ID : string;
  CLIENT_SECRET : string;
  ORG_CODE : string;
  PAGE_SIZE : Z;
  retrying : Config;
  AUDIENCE : string
}.

Definition andThen {A B : Type} (r : ConfigError + A) (k : A -> ConfigError + B)
    : ConfigError + B :=
  match r with
  | inl e => inl e
  | inr a => k a
  end.

Section Builtins.

(** The string builtins the script calls: [raw.trim()], [Number(raw)] where
    [Number.isInteger] holds of it ([None] otherwise), and
    [value.toLowerCase()]. *)
Variable trim : string -> string.
Variable integerOf : string -> option Z.
Variable toLowerCase : string -> string.

Variable env : Env.

Definition requiredEnv (name : string) : ConfigError + string :=
  match env name with
  | Some value => if (value =? "")%string then inl (MissingEnv name) else inr value
  | None => inl (MissingEnv name)
  end.

Definition parsePositiveIntEnv (name : string) (fallback : Z) : ConfigError + Z :=
  match env name with
  | None => inr fallback
  | Some raw =>
    if (trim raw =? "")%string then inr fallback
    else
      match integerOf raw with
      | Some value => if value <=? 0 then inl (InvalidEnv name) else inr value
      | None => inl (InvalidEnv name)
      end
  end.

Definition parseNonNegativeIntEnv (name : string) (fallback : Z) : ConfigError + Z :=
  match env name with
  | None => inr fallback
  | Some raw =>
    if (trim raw =? "")%string then inr fallback
    else
      match integerOf raw with
      | Some value => if value <? 0 then inl (InvalidEnv name) else inr value
      | None => inl (InvalidEnv name)
      end
  end.

(** The module-level statements, in the order the script runs them. *)
Definition startup : ConfigError + Settings :=
  andThen (requiredEnv "KINDE_HOST") (fun host =>
  andThen (requiredEnv "KINDE_CLIENT_ID") (fun clientId =>
  andThen (requiredEnv "KINDE_CLIENT_SECRET") (fun clientSecret =>
  andThen (requiredEnv "KINDE_ORG_CODE") (fun orgCode =>
  andThen (parsePositiveIntEnv "KINDE_PAGE_SIZE" 50) (fun pageSize =>
  andThen (parseNonNegativeIntEnv "KINDE_MAX_RETRIES" 6) (fun maxRetries =>
  andThen (parsePositiveIntEnv "KINDE_BASE_DELAY_MS" 500) (fun baseDelay =>
  let audience := nullish (env "KINDE_AUDIENCE") (host ++ "/api")%string in
  let confirm :=
    (toLowerCase (nullish (env "KINDE_CONFIRM_DELETE_ALL") "") =? "true")%string in
  if negb confirm then inl Refused
  else inr (mkSettings host clientId clientSecret orgCode pageSize
                       (mkConfig (Z.to_nat maxRetries) baseDelay) audience)))))))).

End Builtins.

End OrgConfig.

(** ** More ways to read the journal *)

(** The journal entries selected by [keep], without the exit code. *)
Definition kept (keep : Event -> bool) (w : World) : list Event :=
  filter keep (journal w).

(** A request to the API proper, not to the token endpoint. *)
Definition isApiRequest (e : Event) : bool :=
  match e with
  | Sent r => match endpoint r with OAuthToken => false | _ => true end
  | _ => false
  end.

(** A request to the API proper that carries no token: no [Authorization]
    header, or the header [Bearer ] with nothing after it. *)
Definition isUnauthenticated (e : Event) : bool :=
  match e with
  | Sent r =>
    match endpoint r, bearer r with
    | OAuthToken, _ => false
    | _, Some t => (t =? "")%string
    | _, None => true
    end
  | _ => false
  end.

(** The cached token, when there is one, is not empty. *)
Definition cacheIsSound (w : World) : Prop :=
  match tokenCache w with
  | Some c => token c <> ""
  | None => True
  end.

(** From a sound cache, the later world has a sound cache too and no
    request without a token has gone out in between. *)
Definition staysAuthenticated (w w' : World) : Prop :=
  cacheIsSound w ->
  cacheIsSound w' /\ kept isUnauthenticated w' = kept isUnauthenticated w.

Definition isSleep (e : Event) : bool :=
  match e with
  | Slept _ => true
  | _ => false
  end.

(** A sleep whose delay is negative or not a number. *)
Definition isBadSleep (e : Event) : bool :=
  match e with
  | Slept (Num ms) => ms <? 0
  | Slept NaN => true
  | _ => false
  end.

(** A [DELETE] of a user or of an identity. *)
Definition isDeletion (e : Event) : bool :=
  match e with
  | Sent r =>
    match method r, endpoint r with
    | DELETE, UserById _ => true
    | DELETE, IdentityById _ => true
    | _, _ => false
    end
  | _ => false
  end.

Definition isUserDeletion (e : Event) : bool :=
  match e with
  | Sent r =>
    match method r, endpoint r with
    | DELETE, UserById _ => true
    | _, _ => false
    end
  | _ => false
  end.

Definition isIdentityDeletion (e : Event) : bool :=
  match e with
  | Sent r =>
    match method r, endpoint r with
    | DELETE, IdentityById _ => true
    | _, _ => false
    end
  | _ => false
  end.

(** What one exchange at the token endpoint adds to the journal. *)
Definition exchange (e : Event) : bool :=
  match e with
  | Sent r =>
    match method r, endpoint r, bearer r with
    | POST, OAuthToken, None => true
    | _, _, _ => false
    end
  | Logged RequestingToken => true
  | Logged (GotToken _) => true
  | _ => false
  end.

(** ** More about the page server *)

(** The items of page [i] under [field]; none when the fetch of that page
    fails. *)
Definition pageItems {A : Type} (field : Json -> option (list A))
    (ps : nat -> Error + Json) (i : nat) : list A :=
  match ps i with
  | inr page => nullish (field page) []
  | inl _ => []
  end.

(** The next-token of page [i]. *)
Definition pageToken (ps : nat -> Error + Json) (i : nat) : option string :=
  match ps i with
  | inr page => next_token page
  | inl _ => None
  end.

(** The id of the last identity of page [i]. *)
Definition pageCursor (ps : nat -> Error + Json) (i : nat) : option string :=
  match ps i with
  | inr page => OrgIdentities.lastId (nullish (identities page) [])
  | inl _ => None
  end.

(** Page [i] fails or carries no next-token. *)
Definition closesListing (ps : nat -> Error + Json) (i : nat) : bool :=
  match ps i with
  | inr page => negb (truthy (next_token page))
  | inl _ => true
  end.

(** Page [i] fails or does not say [has_more]. *)
Definition closesIdentities (ps : nat -> Error + Json) (i : nat) : bool :=
  match ps i with
  | inr page => negb (nullish (has_more page) false)
  | inl _ => true
  end.

(** Sample builtins for the settings: nothing to trim, two numbers known,
    one spelling of the flag lowered. *)
Definition sampleInteger (raw : string) : option Z :=
  if (raw =? "25")%string then Some 25
  else if (raw =? "0")%string then Some 0
  else None.

Definition sampleLower (value : string) : string :=
  if (value =? "TRUE")%string then "true" else value.

Definition sampleEnv (name : string) : option string :=
  if (name =? "KINDE_HOST")%string then Some "https://x.kinde.com"
  else if (name =? "KINDE_CLIENT_ID")%string then Some "id"
  else if (name =? "KINDE_CLIENT_SECRET")%string then Some "secret"
  else if (name =? "KINDE_ORG_CODE")%string then Some "org_1"
  else if (name =? "KINDE_PAGE_SIZE")%string then Some "25"
  else if (name =? "KINDE_CONFIRM_DELETE_ALL")%string then Some "TRUE"
  else None.

(** A sample parser of error bodies. *)
Definition sampleParse (text : string) : option OrgErrors.ApiErrorResponse :=
  if (text =? "{errors:[{}]}")%string then
    Some (OrgErrors.mkApiError None None (Some [OrgErrors.mkItem None None]))
  else None.

(** ** Requests and the answers they got *)

(** A request with what came back for it: a response, or nothing when
    [fetch] rejected. *)
Abbreviation RoundTrip := (Request * option Response)%type.

(** [fetch] sends its request when [served] requests went before it, and
    gets reply number [served] of the network.  Read from its newest entry
    back, together with the number of requests served, a journal so gives
    every request with its answer, newest first. *)
Fixpoint answered (net : nat -> Reply) (count : nat) (entries : list Event)
    : list RoundTrip :=
  match entries with
  | [] => []
  | Sent r :: rest =>
    match count with
    | S n => (r, result (net n)) :: answered net n rest
    | O => []
    end
  | _ :: rest => answered net count rest
  end.

(** The requests of a world with their answers, oldest first. *)
Definition roundTrips (w : World) : list RoundTrip :=
  rev (answered (network w) (served w) (journal w)).

(** The round trips that [p] selects, and how many they are. *)
Definition trips (p : RoundTrip -> bool) (w : World) : list RoundTrip :=
  filter p (roundTrips w).

Definition tallyTrips (p : RoundTrip -> bool) (w : World) : nat :=
  length (filter p (roundTrips w)).

(** The request of both token getters. *)
Definition tokenRequest : Request := mkRequest POST OAuthToken None.

Definition isTokenTrip (x : RoundTrip) : bool :=
  match endpoint (fst x) with
  | OAuthToken => true
  | _ => false
  end.

Definition isDeletionTrip (x : RoundTrip) : bool :=
  match method (fst x) with
  | DELETE => true
  | _ => false
  end.

(** The URLs the [DELETE] requests went to, oldest first. *)
Definition deletions (w : World) : list Endpoint :=
  map (fun x => endpoint (fst x)) (filter isDeletionTrip (roundTrips w)).

(** The answer is a response with a status in 200..299. *)
Definition accepted (answer : option Response) : bool :=
  match answer with
  | Some resp => ok resp
  | None => false
  end.

(** A [DELETE] that the server answered with a status in 200..299. *)
Definition grantedDeletion (x : RoundTrip) : bool :=
  isDeletionTrip x && accepted (snd x).

(** The statuses on which a retry wrapper may send its request again. *)
Definition retryStatus (resp : Response) : bool :=
  (status resp =? 401) || (status resp =? 429) || (500 <=? status resp).

(** A [DELETE] that the server answered with such a status. *)
Definition retriedDeletion (x : RoundTrip) : bool :=
  isDeletionTrip x
  && match snd x with
     | Some resp => retryStatus resp
     | None => false
     end.

(** What each token getter needs of the response of the token endpoint to
    return a token: a status in 200..299 and, in
    [deleteOrgUsersIdentities.ts], a body with an [access_token]; in
    [deleteAllUsers.ts], a body that is JSON. *)
Definition usableToken_org (resp : Response) : bool :=
  ok resp
  && match body resp with
     | Some json => truthy (access_token json)
     | None => false
     end.

Definition usableToken_all (resp : Response) : bool :=
  ok resp
  && match body resp with
     | Some _ => true
     | None => false
     end.

(** A token request that brought no token. *)
Definition refusedToken (usable : Response -> bool) (x : RoundTrip) : bool :=
  isTokenTrip x
  && match snd x with
     | Some resp => negb (usable resp)
     | None => true
     end.

(** One logical call of a retry wrapper for [m url], seen from the wire:
    its round trips, oldest first, and how it ended.  The request goes out
    once the token is there; it goes out again only after an answer with a
    retry status; a token request that brings no token, a request without
    an answer, or the first answer that is not retried ends the call. *)
Inductive onTheWire (usable : Response -> bool) (m : Method) (url : Endpoint)
    : Outcome Response -> list RoundTrip -> Prop :=
| wire_out_of_steps :
    onTheWire usable m url Pending []
| wire_no_token (e : Error) (answer : option Response) :
    refusedToken usable (tokenRequest, answer) = true ->
    onTheWire usable m url (Throw e) [(tokenRequest, answer)]
| wire_no_answer (tok : string) :
    onTheWire usable m url (Throw NetworkError) [(mkRequest m url (Some tok), None)]
| wire_answer (tok : string) (resp : Response) :
    onTheWire usable m url (Return resp) [(mkRequest m url (Some tok), Some resp)]
| wire_token_first (resp : Response) (o : Outcome Response) (rest : list RoundTrip) :
    usable resp = true ->
    onTheWire usable m url o rest ->
    onTheWire usable m url o ((tokenRequest, Some resp) :: rest)
| wire_retry (tok : string) (resp : Response) (o : Outcome Response)
    (rest : list RoundTrip) :
    retryStatus resp = true ->
    onTheWire usable m url o rest ->
    onTheWire usable m url o ((mkRequest m url (Some tok), Some resp) :: rest).

(** What one call of a token getter puts on the wire, by its outcome:
    nothing when the cached token is returned, else one token request,
    which brought a token exactly when the call returns. *)
Definition tokenStep (usable : Response -> bool) (o : Outcome string)
    (sent : list RoundTrip) : Prop :=
  match o with
  | Return _ =>
    sent = [] \/ exists resp, sent = [(tokenRequest, Some resp)] /\ usable resp = true
  | Throw _ =>
    exists answer,
      sent = [(tokenRequest, answer)] /\ refusedToken usable (tokenRequest, answer) = true
  | Pending => False
  end.

(** The last round trip of a call is a [DELETE] answered with a status in
    200..299. *)
Definition endsGranted (call : list RoundTrip) : bool :=
  match rev call with
  | x :: _ => grantedDeletion x
  | [] => false
  end.

(** A delete phase from [w] to [w'] that is one logical [DELETE] call for
    each of [targets], in order: what was sent and answered in between is
    the round trips of these calls, one call after the other. *)
Definition deletesEachOnce (usable : Response -> bool) (targets : list Endpoint)
    (calls : list (list RoundTrip)) (w w' : World) : Prop :=
  roundTrips w' = roundTrips w ++ concat calls
  /\ Forall2 (fun url call =>
                exists o, o <> Pending /\ onTheWire usable DELETE url o call)
             targets calls.

(** The calls that did not end with a granted [DELETE]. *)
Definition failedCalls (calls : list (list RoundTrip)) : list (list RoundTrip) :=
  filter (fun call => negb (endsGranted call)) calls.

(** The [DELETE] requests sent between [w] and [w'], with their answers,
    are those of logical [DELETE] calls made for [targets], in order;
    other requests may have gone out in between. *)
Definition deleteCalls (usable : Response -> bool) (targets : list Endpoint)
    (calls : list (list RoundTrip)) (w w' : World) : Prop :=
  trips isDeletionTrip w' = trips isDeletionTrip w ++ filter isDeletionTrip (concat calls)
  /\ Forall2 (fun url call =>
                exists o, o <> Pending /\ onTheWire usable DELETE url o call)
             targets calls.

(** ** What a computation can be relied on to do *)

(** The computation returns or throws; it is never left running. *)
Definition settles {St A : Type} (m : M St A) : Prop :=
  forall s, fst (m s) <> Pending.

(** The computation leaves the observation [obs] of the state as it was. *)
Definition preserves {St X A : Type} (obs : St -> X) (m : M St A) : Prop :=
  forall s, obs (snd (m s)) = obs s.

(** The computation adds no journal entry that [keep] selects and leaves
    the exit code alone. *)
Abbreviation quiet keep := (preserves (view keep)).

(** Whatever the outcome, the computation takes a state to one that [R]
    relates it to. *)
Definition maintains {St A : Type} (R : St -> St -> Prop) (m : M St A) : Prop :=
  forall s, R s (snd (m s)).

(** What paging through a listing adds to the journal: the [GET] requests
    and the progress lines of the paginators. *)
Definition paging (e : Event) : bool :=
  match e with
  | Sent r => match method r with GET => true | _ => false end
  | Logged m =>
    match m with
    | FetchingPage _ | PageReceived _ _ | NoNextToken | TokenDidNotAdvance
    | EmptyPage | CollectedTotal _ | CollectingIdentities _
    | IdentitiesPage _ _ _ | IdentitiesEmptyPage _ | IdentitiesNoMore _
    | IdentitiesNoCursor _ | IdentitiesCursorStuck _
    | IdentitiesCollected _ _ => true
    | _ => false
    end
  | _ => false
  end.

(** The progress lines of the delete phase and of [main]. *)
Definition narration (e : Event) : bool :=
  match e with
  | Logged m =>
    match m with
    | DeletingUser _ | DeletedUser _ | DeletingLabel _ _ _ | FailedToDelete _ _
    | DeletionFinished _ _ | Starting | Settings | NothingToDelete | Done
    | ProcessingUser _ | NoIdentities _ | DeletingIdentity _ _ _ _
    | FailedIdentity _ _ _ | FinishedUser _ _ | OrgSummary _ _ _ _ => true
    | _ => false
    end
  | _ => false
  end.

(** [keep] selects no entry of the class [kind]. *)
Definition ignores (kind keep : Event -> bool) : Prop :=
  forall e, kind e = true -> keep e = false.

(** The computation adds at most [n] journal entries that [keep]
    selects. *)
Definition adds_at_most (keep : Event -> bool) (n : nat) {A : Type} (m : Eff A) : Prop :=
  forall w, (tally keep (snd (m w)) <= tally keep w + n)%nat.

(** * Properties *)

(** ** The monad *)

Section MonadFacts.

Context {St : Type}.

Lemma bind_ext {A B : Type} (m : M St A) (k1 k2 : A -> M St B) (s : St) :
  (forall a s', k1 a s' = k2 a s') -> bind m k1 s = bind m k2 s.
Proof.
  intros Hk. unfold bind. destruct (m s) as [[a | e |] s']; auto.
Qed.

Lemma bind_returns {A B : Type} (m : M St A) (k : A -> M St B) (s s' : St) (a : A) :
  m s = (Return a, s') -> bind m k s = k a s'.
Proof. intros E. unfold bind. now rewrite E. Qed.

Lemma bind_throws {A B : Type} (m : M St A) (k : A -> M St B) (s s' : St) (e : Error) :
  m s = (Throw e, s') -> bind m k s = (Throw e, s').
Proof. intros E. unfold bind. now rewrite E. Qed.

Lemma bind_pends {A B : Type} (m : M St A) (k : A -> M St B) (s s' : St) :
  m s = (Pending, s') -> bind m k s = (Pending, s').
Proof. intros E. unfold bind. now rewrite E. Qed.

Lemma bind_inv {A B : Type} (m : M St A) (k : A -> M St B) (s s2 : St) (b : B) :
  bind m k s = (Return b, s2) ->
  exists a s1, m s = (Return a, s1) /\ k a s1 = (Return b, s2).
Proof.
  unfold bind. destruct (m s) as [[a | e |] s1]; intros E; try discriminate.
  now exists a, s1.
Qed.

Lemma settles_ret {A : Type} (a : A) : settles (@ret St A a).
Proof. intros s. discriminate. Qed.

Lemma settles_throw {A : Type} (e : Error) : settles (@throw St A e).
Proof. intros s. discriminate. Qed.

Lemma settles_bind {A B : Type} (m : M St A) (k : A -> M St B) :
  settles m -> (forall a, settles (k a)) -> settles (bind m k).
Proof.
  intros Hm Hk s. unfold bind. specialize (Hm s).
  destruct (m s) as [[a | e |] s']; simpl in *.
  - apply Hk.
  - discriminate.
  - contradiction.
Qed.

Lemma settles_try {A : Type} (m : M St A) (h : Error -> M St A) :
  settles m -> (forall e, settles (h e)) -> settles (try_catch m h).
Proof.
  intros Hm Hh s. unfold try_catch. specialize (Hm s).
  destruct (m s) as [[a | e |] s']; simpl in *.
  - discriminate.
  - apply Hh.
  - contradiction.
Qed.

Section Preservation.

Context {X : Type} (obs : St -> X).

Lemma preserves_ret {A : Type} (a : A) : preserves obs (@ret St A a).
Proof. intros s. reflexivity. Qed.

Lemma preserves_throw {A : Type} (e : Error) : preserves obs (@throw St A e).
Proof. intros s. reflexivity. Qed.

Lemma preserves_pending {A : Type} : preserves obs (@pending St A).
Proof. intros s. reflexivity. Qed.

Lemma preserves_bind {A B : Type} (m : M St A) (k : A -> M St B) :
  preserves obs m -> (forall a, preserves obs (k a)) -> preserves obs (bind m k).
Proof.
  intros Hm Hk s. unfold bind. specialize (Hm s).
  destruct (m s) as [[a | e |] s']; simpl in *; auto.
  rewrite Hk. exact Hm.
Qed.

Lemma preserves_try {A : Type} (m : M St A) (h : Error -> M St A) :
  preserves obs m -> (forall e, preserves obs (h e)) -> preserves obs (try_catch m h).
Proof.
  intros Hm Hh s. unfold try_catch. specialize (Hm s).
  destruct (m s) as [[a | e |] s']; simpl in *; auto.
  rewrite Hh. exact Hm.
Qed.

End Preservation.

End MonadFacts.

(** Take a computation apart along its binds, branches and handlers. *)
Ltac dismantle :=
  repeat match goal with
  | |- settles (ret _) => apply settles_ret
  | |- settles (throw _) => apply settles_throw
  | |- settles (bind _ _) => apply settles_bind; [ | intro ]
  | |- settles (try_catch _ _) => apply settles_try; [ | intro ]
  | |- settles (if ?c then _ else _) => destruct c
  | |- settles (match ?x with _ => _ end) => destruct x
  | |- preserves _ (ret _) => apply preserves_ret
  | |- preserves _ (throw _) => apply preserves_throw
  | |- preserves _ pending => apply preserves_pending
  | |- preserves _ (bind _ _) => apply preserves_bind; [ | intro ]
  | |- preserves _ (try_catch _ _) => apply preserves_try; [ | intro ]
  | |- preserves _ (if ?c then _ else _) => destruct c
  | |- preserves _ (match ?x with _ => _ end) => destruct x
  end.

(** ** The primitives *)

Lemma settles_Date_now : settles Date_now.
Proof. intros w. discriminate. Qed.

Lemma settles_random_below (n : Z) : settles (random_below n).
Proof. intros w. discriminate. Qed.

Lemma settles_sleep (ms : jsnum) : settles (sleep ms).
Proof. intros w. discriminate. Qed.

Lemma settles_log (m : LogMsg) : settles (log m).
Proof. intros w. discriminate. Qed.

Lemma settles_console_error (e : Error) : settles (console_error e).
Proof. intros w. discriminate. Qed.

Lemma settles_set_exitCode (c : Z) : settles (set_exitCode c).
Proof. intros w. discriminate. Qed.

Lemma settles_fetch (r : Request) : settles (fetch r).
Proof. intros w. unfold fetch. destruct (result _); discriminate. Qed.

Lemma settles_read_tokenCache : settles read_tokenCache.
Proof. intros w. discriminate. Qed.

Lemma settles_write_tokenCache (c : TokenCache) : settles (write_tokenCache c).
Proof. intros w. discriminate. Qed.

Create HintDb eff.

#[local] Hint Resolve settles_Date_now settles_random_below settles_sleep settles_log
  settles_console_error settles_set_exitCode settles_fetch settles_read_tokenCache
  settles_write_tokenCache : eff.

Section Quiet.

Variable keep : Event -> bool.

Lemma quiet_Date_now : quiet keep Date_now.
Proof. intros w. reflexivity. Qed.

Lemma quiet_random_below (n : Z) : quiet keep (random_below n).
Proof. intros w. reflexivity. Qed.

Lemma quiet_read_tokenCache : quiet keep read_tokenCache.
Proof. intros w. reflexivity. Qed.

Lemma quiet_write_tokenCache (c : TokenCache) : quiet keep (write_tokenCache c).
Proof. intros w. reflexivity. Qed.

Lemma quiet_sleep (ms : jsnum) : keep (Slept ms) = false -> quiet keep (sleep ms).
Proof. intros H w. unfold view. simpl. now rewrite H. Qed.

Lemma quiet_log (m : LogMsg) : keep (Logged m) = false -> quiet keep (log m).
Proof. intros H w. unfold view. simpl. now rewrite H. Qed.

Lemma quiet_fetch (r : Request) : keep (Sent r) = false -> quiet keep (fetch r).
Proof.
  intros H w. unfold fetch, view.
  destruct (result _); simpl; now rewrite H.
Qed.

End Quiet.

#[local] Hint Resolve quiet_Date_now quiet_random_below quiet_read_tokenCache
  quiet_write_tokenCache : eff.

(** Close what [dismantle] leaves: the primitives, each with the entry it
    adds to the journal. *)
Ltac primitives :=
  auto with eff;
  try (first [ apply quiet_log | apply quiet_fetch | apply quiet_sleep ];
       auto with eff).

(** ** deleteOrgUsersIdentities.ts: token and request *)

Section OrgRequests.

Import OrgIdentities.

Variable cfg : Config.

Lemma parseRetryAfterMs_hint (h : option HeaderValue) (w : World) :
  parseRetryAfterMs h w = (Return (retryAfterHint h (clock w)), w).
Proof.
  unfold parseRetryAfterMs, retryAfterHint.
  destruct h as [h |]; [ | reflexivity ].
  destruct (asNumber h) as [seconds |], (asDate h) as [dateMs |];
    try destruct (0 <=? seconds); reflexivity.
Qed.

Lemma settles_parseRetryAfterMs (h : option HeaderValue) : settles (parseRetryAfterMs h).
Proof. intros w. rewrite parseRetryAfterMs_hint. discriminate. Qed.

Lemma quiet_parseRetryAfterMs (keep : Event -> bool) (h : option HeaderValue) :
  quiet keep (parseRetryAfterMs h).
Proof. intros w. now rewrite parseRetryAfterMs_hint. Qed.

Lemma settles_getAccessToken_org (force : bool) : settles (getAccessToken force).
Proof. unfold getAccessToken. dismantle; primitives. Qed.

Lemma quiet_getAccessToken_org (keep : Event -> bool) (force : bool) :
  ignores plumbing keep -> quiet keep (getAccessToken force).
Proof.
  intros Hk. unfold getAccessToken. dismantle; primitives; now apply Hk.
Qed.

Lemma quiet_requestWithRetry_steps_org (keep : Event -> bool) (m : Method) (url : Endpoint) :
  ignores plumbing keep ->
  (forall tok, keep (Sent (mkRequest m url tok)) = false) ->
  forall steps attempt refreshed,
    quiet keep (requestWithRetry_steps cfg steps m url attempt refreshed).
Proof.
  intros Hk Hurl. induction steps as [| steps IH]; intros attempt refreshed.
  - apply preserves_pending.
  - simpl. dismantle; primitives;
      try apply quiet_getAccessToken_org; try apply quiet_parseRetryAfterMs;
      try apply IH; auto; now apply Hk.
Qed.

Lemma settles_requestWithRetry_steps_org (m : Method) (url : Endpoint) :
  forall steps attempt refreshed,
    (budget cfg attempt refreshed <= steps)%nat ->
    settles (requestWithRetry_steps cfg steps m url attempt refreshed).
Proof.
  unfold budget.
  induction steps as [| steps IH]; intros attempt refreshed Hb; [ lia | ].
  simpl.
  apply settles_bind; [ apply settles_getAccessToken_org | intro tok ].
  apply settles_bind; [ apply settles_fetch | intro response ].
  destruct ((status response =? 401) && negb refreshed) eqn:E401.
  - dismantle; primitives; try apply settles_getAccessToken_org.
    apply IH. apply andb_prop in E401 as [_ Hr].
    destruct refreshed; [ discriminate | lia ].
  - destruct (_ && (attempt <? MAX_RETRIES cfg)%nat) eqn:Eretry.
    + dismantle; primitives; try apply settles_parseRetryAfterMs.
      apply IH. apply andb_prop in Eretry as [_ Hlt].
      apply Nat.ltb_lt in Hlt. destruct refreshed; lia.
    + apply settles_ret.
Qed.

Lemma settles_requestWithRetry_org (m : Method) (url : Endpoint) (attempt : nat) (refreshed : bool) :
  settles (requestWithRetry cfg m url attempt refreshed).
Proof. apply settles_requestWithRetry_steps_org. lia. Qed.

Lemma quiet_requestWithRetry_org (keep : Event -> bool) (m : Method) (url : Endpoint)
    (attempt : nat) (refreshed : bool) :
  ignores plumbing keep ->
  (forall tok, keep (Sent (mkRequest m url tok)) = false) ->
  quiet keep (requestWithRetry cfg m url attempt refreshed).
Proof. intros. now apply quiet_requestWithRetry_steps_org. Qed.

(** More steps than the budget change nothing. *)
Lemma requestWithRetry_steps_enough_org (m : Method) (url : Endpoint) :
  forall steps steps' attempt refreshed w,
    (budget cfg attempt refreshed <= steps)%nat ->
    (budget cfg attempt refreshed <= steps')%nat ->
    requestWithRetry_steps cfg steps m url attempt refreshed w
    = requestWithRetry_steps cfg steps' m url attempt refreshed w.
Proof.
  unfold budget.
  induction steps as [| steps IH]; intros steps' attempt refreshed w Hb Hb'; [ lia | ].
  destruct steps' as [| steps']; [ lia | ].
  simpl.
  apply bind_ext; intros tok w1.
  apply bind_ext; intros response w2.
  destruct ((status response =? 401) && negb refreshed) eqn:E401.
  - apply bind_ext; intros _ w3. apply bind_ext; intros _ w4.
    apply andb_prop in E401 as [_ Hr].
    apply IH; destruct refreshed; try discriminate; lia.
  - destruct (_ && (attempt <? MAX_RETRIES cfg)%nat) eqn:Eretry; [ | reflexivity ].
    apply andb_prop in Eretry as [_ Hlt]. apply Nat.ltb_lt in Hlt.
    apply bind_ext; intros hint w3. apply bind_ext; intros jitter w4.
    apply bind_ext; intros _ w5. apply bind_ext; intros _ w6.
    apply IH; destruct refreshed; lia.
Qed.

End OrgRequests.

(** ** deleteAllUsers.ts: token and request *)

Section AllRequests.

Import AllUsers.

Variable cfg : Config.

Lemma settles_getAccessToken_all (force : bool) : settles (getAccessToken force).
Proof. unfold getAccessToken. dismantle; primitives. Qed.

Lemma quiet_getAccessToken_all (keep : Event -> bool) (force : bool) :
  ignores plumbing keep -> quiet keep (getAccessToken force).
Proof.
  intros Hk. unfold getAccessToken. dismantle; primitives; now apply Hk.
Qed.

Lemma quiet_requestWithRetry_steps_all (keep : Event -> bool) (m : Method) (url : Endpoint) :
  ignores plumbing keep ->
  (forall tok, keep (Sent (mkRequest m url tok)) = false) ->
  forall steps attempt, quiet keep (requestWithRetry_steps cfg steps m url attempt).
Proof.
  intros Hk Hurl. induction steps as [| steps IH]; intros attempt.
  - apply preserves_pending.
  - simpl. dismantle; primitives;
      try apply quiet_getAccessToken_all; try apply IH; auto; now apply Hk.
Qed.

Lemma settles_requestWithRetry_steps_all (m : Method) (url : Endpoint) :
  forall steps attempt,
    (budget cfg attempt <= steps)%nat ->
    settles (requestWithRetry_steps cfg steps m url attempt).
Proof.
  unfold budget.
  induction steps as [| steps IH]; intros attempt Hb; [ lia | ].
  simpl.
  apply settles_bind; [ apply settles_getAccessToken_all | intro tok ].
  apply settles_bind; [ apply settles_fetch | intro resp ].
  destruct ((status resp =? 401) && (attempt <? 1)%nat) eqn:E401.
  - dismantle; primitives; try apply settles_getAccessToken_all.
    apply IH. apply andb_prop in E401 as [_ Hlt].
    apply Nat.ltb_lt in Hlt. lia.
  - destruct (_ && (attempt <? MAX_RETRIES cfg)%nat) eqn:Eretry.
    + dismantle; primitives.
      apply IH. apply andb_prop in Eretry as [_ Hlt].
      apply Nat.ltb_lt in Hlt. lia.
    + apply settles_ret.
Qed.

Lemma settles_requestWithRetry_all (m : Method) (url : Endpoint) (attempt : nat) :
  settles (requestWithRetry cfg m url attempt).
Proof. apply settles_requestWithRetry_steps_all. lia. Qed.

Lemma quiet_requestWithRetry_all (keep : Event -> bool) (m : Method) (url : Endpoint)
    (attempt : nat) :
  ignores plumbing keep ->
  (forall tok, keep (Sent (mkRequest m url tok)) = false) ->
  quiet keep (requestWithRetry cfg m url attempt).
Proof. intros. now apply quiet_requestWithRetry_steps_all. Qed.

Lemma requestWithRetry_steps_enough_all (m : Method) (url : Endpoint) :
  forall steps steps' attempt w,
    (budget cfg attempt <= steps)%nat ->
    (budget cfg attempt <= steps')%nat ->
    requestWithRetry_steps cfg steps m url attempt w
    = requestWithRetry_steps cfg steps' m url attempt w.
Proof.
  unfold budget.
  induction steps as [| steps IH]; intros steps' attempt w Hb Hb'; [ lia | ].
  destruct steps' as [| steps']; [ lia | ].
  simpl.
  apply bind_ext; intros tok w1.
  apply bind_ext; intros resp w2.
  destruct ((status resp =? 401) && (attempt <? 1)%nat) eqn:E401.
  - apply bind_ext; intros _ w3. apply bind_ext; intros _ w4.
    apply andb_prop in E401 as [_ Hlt]. apply Nat.ltb_lt in Hlt.
    apply IH; lia.
  - destruct (_ && (attempt <? MAX_RETRIES cfg)%nat) eqn:Eretry; [ | reflexivity ].
    apply andb_prop in Eretry as [_ Hlt]. apply Nat.ltb_lt in Hlt.
    apply bind_ext; intros jitter w3.
    apply bind_ext; intros _ w4. apply bind_ext; intros _ w5.
    apply IH; lia.
Qed.

Lemma settles_deleteUser (userId : string) : settles (deleteUser cfg userId).
Proof.
  unfold deleteUser. dismantle; primitives. apply settles_requestWithRetry_all.
Qed.

End AllRequests.

(** ** Sets in insertion order *)

Lemma existsb_eqb_In (x : string) (l : list string) :
  existsb (String.eqb x) l = true <-> In x l.
Proof.
  rewrite existsb_exists. split.
  - intros [y [Hin Heq]]. apply String.eqb_eq in Heq. now subst.
  - intros Hin. exists x. split; [ assumption | apply String.eqb_refl ].
Qed.

Lemma existsb_eqb_not_In (x : string) (l : list string) :
  existsb (String.eqb x) l = false <-> ~ In x l.
Proof.
  rewrite <- existsb_eqb_In. destruct (existsb _ l); split; congruence.
Qed.

Lemma fold_Set_add_first_seen (xs : list string) :
  forall members, fold_left OrgIdentities.Set_add xs members = members ++ first_seen members xs.
Proof.
  induction xs as [| x rest IH]; intros members; simpl.
  - now rewrite app_nil_r.
  - unfold OrgIdentities.Set_add at 2.
    destruct (existsb (String.eqb x) members).
    + apply IH.
    + rewrite IH, <- app_assoc. reflexivity.
Qed.

(** [Array.from(new Set(xs))] is [xs] without the repeats, each member at
    the place of its first occurrence. *)
Lemma Set_of_first_seen (xs : list string) : OrgIdentities.Set_of xs = first_seen [] xs.
Proof. unfold OrgIdentities.Set_of. now rewrite fold_Set_add_first_seen. Qed.

Lemma In_first_seen (xs : list string) :
  forall seen y, In y (first_seen seen xs) <-> In y xs /\ ~ In y seen.
Proof.
  induction xs as [| x rest IH]; intros seen y; simpl.
  - tauto.
  - destruct (existsb (String.eqb x) seen) eqn:E.
    + apply existsb_eqb_In in E. rewrite IH. split.
      * tauto.
      * intros [[-> | Hin] Hno]; tauto.
    + apply existsb_eqb_not_In in E. simpl. rewrite IH, in_app_iff. simpl. split.
      * intros [-> | [Hin Hno]]; tauto.
      * intros [[-> | Hin] Hno]; [ now left | ].
        destruct (string_dec x y) as [-> | Hne]; [ now left | right ].
        split; [ assumption | ]. intros [H | [H | []]]; tauto.
Qed.

Lemma NoDup_first_seen (xs : list string) :
  forall seen, NoDup (first_seen seen xs).
Proof.
  induction xs as [| x rest IH]; intros seen; simpl.
  - constructor.
  - destruct (existsb (String.eqb x) seen); [ apply IH | ].
    constructor; [ | apply IH ].
    rewrite In_first_seen, in_app_iff. simpl. tauto.
Qed.

Lemma NoDup_Set_of (xs : list string) : NoDup (OrgIdentities.Set_of xs).
Proof. rewrite Set_of_first_seen. apply NoDup_first_seen. Qed.

Lemma In_Set_of (xs : list string) (y : string) : In y (OrgIdentities.Set_of xs) <-> In y xs.
Proof. rewrite Set_of_first_seen, In_first_seen. simpl. tauto. Qed.

Lemma length_first_seen (xs : list string) :
  forall seen, (length (first_seen seen xs) <= length xs)%nat.
Proof.
  induction xs as [| x rest IH]; intros seen; simpl; [ lia | ].
  destruct (existsb (String.eqb x) seen); simpl.
  - specialize (IH seen). lia.
  - specialize (IH (seen ++ [x])). lia.
Qed.

Lemma In_filter_Boolean (xs : list (option string)) (y : string) :
  In y (OrgIdentities.filter_Boolean xs) <-> In (Some y) xs /\ y <> "".
Proof.
  unfold OrgIdentities.filter_Boolean. rewrite in_flat_map. split.
  - intros [[v |] [Hin Hy]]; simpl in Hy; [ | contradiction ].
    destruct (String.eqb_spec v ""); simpl in Hy; [ contradiction | ].
    destruct Hy as [<- | []]. now split.
  - intros [Hin Hne]. exists (Some y). split; [ assumption | ].
    simpl. destruct (String.eqb_spec y ""); [ contradiction | now left ].
Qed.

Lemma length_filter_Boolean (xs : list (option string)) :
  length (OrgIdentities.filter_Boolean xs) = length (filter truthy xs).
Proof.
  unfold OrgIdentities.filter_Boolean.
  induction xs as [| x rest IH]; simpl; [ reflexivity | ].
  destruct (truthy x); simpl; now rewrite IH.
Qed.

(** Every id that is deleted comes from a fetched identity and is not
    empty. *)
Lemma In_uniqueIdentityIds (identities : list Identity) (y : string) :
  In y (OrgIdentities.uniqueIdentityIds identities)
  <-> In (Some y) (map identity_id identities) /\ y <> "".
Proof.
  unfold OrgIdentities.uniqueIdentityIds.
  now rewrite In_Set_of, In_filter_Boolean.
Qed.

(** ** Reading the journal *)

Lemma flat_map_through_filter {A B : Type} (keep : A -> bool) (f : A -> list B) (l : list A) :
  (forall a, keep a = false -> f a = []) ->
  flat_map f (filter keep l) = flat_map f l.
Proof.
  intros H. induction l as [| a l IH]; simpl; [ reflexivity | ].
  destruct (keep a) eqn:E; simpl; rewrite IH; [ reflexivity | ].
  now rewrite (H a E).
Qed.

Lemma identityAttempts_view (w w' : World) :
  view isIdentityAttempt w' = view isIdentityAttempt w ->
  identityAttempts w' = identityAttempts w.
Proof.
  unfold view, identityAttempts. intros E. injection E as E _.
  rewrite <- (flat_map_through_filter isIdentityAttempt attemptedIdentity (journal w')),
          <- (flat_map_through_filter isIdentityAttempt attemptedIdentity (journal w)).
  - now rewrite E.
  - intros [r | ms | [] | e]; simpl; congruence.
  - intros [r | ms | [] | e]; simpl; congruence.
Qed.

Lemma userAttempts_view (w w' : World) :
  view isUserAttempt w' = view isUserAttempt w ->
  userAttempts w' = userAttempts w.
Proof.
  unfold view, userAttempts. intros E. injection E as E _.
  rewrite <- (flat_map_through_filter isUserAttempt attemptedUser (journal w')),
          <- (flat_map_through_filter isUserAttempt attemptedUser (journal w)).
  - now rewrite E.
  - intros [r | ms | [] | e]; simpl; congruence.
  - intros [r | ms | [] | e]; simpl; congruence.
Qed.

Lemma tally_view (keep : Event -> bool) (w w' : World) :
  view keep w' = view keep w -> tally keep w' = tally keep w.
Proof. unfold view, tally. intros E. injection E as E _. now rewrite E. Qed.

Lemma exitCode_view (keep : Event -> bool) (w w' : World) :
  view keep w' = view keep w -> exitCode w' = exitCode w.
Proof. unfold view. intros E. now injection E. Qed.

(** ** The paginators, over any page fetch *)

Section PaginatorFacts.

Context {St X : Type} (obs : St -> X).
Variable log : LogMsg -> M St unit.
Hypothesis log_preserves :
  forall m, paging (Logged m) = true -> preserves obs (log m).

Ltac lines := try (apply log_preserves; reflexivity); auto.

Lemma preserves_collectOrganizationUsers_with (getPage : option string -> M St Json) :
  (forall t, preserves obs (getPage t)) ->
  forall steps, preserves obs (OrgIdentities.collectOrganizationUsers_with log getPage steps).
Proof.
  intros Hget steps. unfold OrgIdentities.collectOrganizationUsers_with.
  apply preserves_bind; [ | intro; dismantle; lines ].
  generalize (@nil OrganizationUser) (@None string) 0%nat.
  induction steps as [| steps IH]; intros users tok page; simpl; dismantle; lines.
Qed.

Lemma preserves_collectAllUserIdentities_with (getPage : string -> option string -> M St Json) :
  (forall u t, preserves obs (getPage u t)) ->
  forall steps user,
    preserves obs (OrgIdentities.collectAllUserIdentities_with log getPage steps user).
Proof.
  intros Hget steps user. unfold OrgIdentities.collectAllUserIdentities_with.
  apply preserves_bind; [ lines | intro ].
  apply preserves_bind; [ | intro; dismantle; lines ].
  generalize (@nil Identity) (@None string) 0%nat.
  induction steps as [| steps IH]; intros users tok page; simpl; dismantle; lines.
Qed.

Lemma preserves_collectAllUsers_with (getPage : option string -> M St Json) :
  (forall t, preserves obs (getPage t)) ->
  forall steps, preserves obs (AllUsers.collectAllUsers_with log getPage steps).
Proof.
  intros Hget steps. unfold AllUsers.collectAllUsers_with.
  apply preserves_bind; [ | intro; dismantle; lines ].
  generalize (@nil User) (@None string) 0%nat.
  induction steps as [| steps IH]; intros users tok page; simpl; dismantle; lines.
Qed.

End PaginatorFacts.

(** Decide what an observer ignores by going through the entries. *)
Ltac sift :=
  let e := fresh "e" in
  let H := fresh "H" in
  intros e H;
  destruct e as [[[] [] ?] | ? | [] | ?]; simpl in *; congruence.

Section Listing.

Variable cfg : Config.
Variable keep : Event -> bool.
Hypothesis no_plumbing : ignores plumbing keep.
Hypothesis no_paging : ignores paging keep.

Lemma quiet_paging_log (m : LogMsg) : paging (Logged m) = true -> quiet keep (log m).
Proof. intros H. apply quiet_log. now apply no_paging. Qed.

Lemma quiet_getOrganizationUsersPage (t : option string) :
  quiet keep (OrgIdentities.getOrganizationUsersPage cfg t).
Proof.
  unfold OrgIdentities.getOrganizationUsersPage. dismantle.
  - now apply quiet_paging_log.
  - apply quiet_requestWithRetry_org; [ assumption | ].
    intros tok. now apply no_paging.
Qed.

Lemma quiet_getUserIdentitiesPage (u : string) (t : option string) :
  quiet keep (OrgIdentities.getUserIdentitiesPage cfg u t).
Proof.
  unfold OrgIdentities.getUserIdentitiesPage. dismantle.
  apply quiet_requestWithRetry_org; [ assumption | ].
  intros tok. now apply no_paging.
Qed.

Lemma quiet_getUsersPage (t : option string) :
  quiet keep (AllUsers.getUsersPage cfg t).
Proof.
  unfold AllUsers.getUsersPage. dismantle.
  - now apply quiet_paging_log.
  - apply quiet_requestWithRetry_all; [ assumption | ].
    intros tok. now apply no_paging.
Qed.

Lemma quiet_collectOrganizationUsers (steps : nat) :
  quiet keep (OrgIdentities.collectOrganizationUsers cfg steps).
Proof.
  apply preserves_collectOrganizationUsers_with.
  - intros m Hm. apply quiet_log. now apply no_paging.
  - apply quiet_getOrganizationUsersPage.
Qed.

Lemma quiet_collectAllUserIdentities (steps : nat) (user : OrganizationUser) :
  quiet keep (OrgIdentities.collectAllUserIdentities cfg steps user).
Proof.
  apply preserves_collectAllUserIdentities_with.
  - intros m Hm. apply quiet_log. now apply no_paging.
  - apply quiet_getUserIdentitiesPage.
Qed.

Lemma quiet_collectAllUsers (steps : nat) :
  quiet keep (AllUsers.collectAllUsers cfg steps).
Proof.
  apply preserves_collectAllUsers_with.
  - intros m Hm. apply quiet_log. now apply no_paging.
  - apply quiet_getUsersPage.
Qed.

End Listing.

(** ** The delete loops *)

Section OrgBulk.

Import OrgIdentities.

Variable cfg : Config.

Lemma settles_deleteIdentity (identityId : string) : settles (deleteIdentity cfg identityId).
Proof.
  unfold deleteIdentity. dismantle. apply settles_requestWithRetry_org.
Qed.

Lemma quiet_deleteIdentity (keep : Event -> bool) (identityId : string) :
  ignores plumbing keep ->
  (forall tok, keep (Sent (mkRequest DELETE (IdentityById identityId) tok)) = false) ->
  quiet keep (deleteIdentity cfg identityId).
Proof.
  intros Hk Hid. unfold deleteIdentity. dismantle.
  now apply quiet_requestWithRetry_org.
Qed.

Lemma quiet_deleteIdentities (keep : Event -> bool) (user : OrganizationUser) (total : nat) :
  ignores plumbing keep ->
  ignores narration keep ->
  forall ids,
    (forall id tok, In id ids -> keep (Sent (mkRequest DELETE (IdentityById id) tok)) = false) ->
    forall index counts, quiet keep (deleteIdentities cfg user total index ids counts).
Proof.
  intros Hp Hn. induction ids as [| id rest IH]; intros Hids index counts; simpl.
  - apply preserves_ret.
  - dismantle.
    + apply quiet_log. now apply Hn.
    + apply quiet_deleteIdentity; [ assumption | ].
      intros tok. apply Hids. now left.
    + apply quiet_log. now apply Hn.
    + apply IH. intros id' tok Hin. apply Hids. now right.
Qed.

(** One turn of the loop: the id is attempted, and the attempt is counted
    as deleted or, with its line in the journal, as failed. *)
Lemma deleteIdentities_turn (user : OrganizationUser) (total index : nat) (id : string)
    (counts : BulkResult) (w : World) :
  exists c w',
    try_catch
      (log (DeletingIdentity user (S index) total id) ;;
       deleteIdentity cfg id ;;
       ret (mkBulk (S (deleted counts)) (failed counts) (S index)))%eff
      (fun err =>
         log (FailedIdentity user id err) ;;
         ret (mkBulk (deleted counts) (S (failed counts)) (S index)))%eff w
    = (Return c, w')
    /\ processed c = S index
    /\ (deleted c + failed c = S (deleted counts + failed counts))%nat
    /\ (failed c + tally isIdentityFailure w = failed counts + tally isIdentityFailure w')%nat
    /\ identityAttempts w' = identityAttempts w ++ [id].
Proof.
  pose (w0 := note (Logged (DeletingIdentity user (S index) total id)) w).
  assert (Hfail : tally isIdentityFailure (snd (deleteIdentity cfg id w0))
                  = tally isIdentityFailure w).
  { transitivity (tally isIdentityFailure w0); [ | reflexivity ].
    apply tally_view. apply quiet_deleteIdentity; [ sift | reflexivity ]. }
  assert (Hatt : identityAttempts (snd (deleteIdentity cfg id w0))
                 = identityAttempts w ++ [id]).
  { transitivity (identityAttempts w0); [ | reflexivity ].
    apply identityAttempts_view.
    apply quiet_deleteIdentity; [ sift | reflexivity ]. }
  pose proof (settles_deleteIdentity id w0) as Hsettles.
  cbv [try_catch bind log ret]. fold w0.
  destruct (deleteIdentity cfg id w0) as [[[] | err |] w1]; simpl in *.
  - eexists _, _. split; [ reflexivity | ]. simpl. repeat split; auto; lia.
  - eexists _, _. split; [ reflexivity | ]. simpl.
    unfold tally in *; simpl. repeat split; auto; lia.
  - contradiction.
Qed.

(** The batch always runs to its end: every id is attempted once, in
    order, each attempt is counted as deleted or as failed, and a failure
    leaves its line in the journal. *)
Lemma deleteIdentities_run (user : OrganizationUser) (total : nat) :
  forall ids index counts w,
  exists r w',
    deleteIdentities cfg user total index ids counts w = (Return r, w')
    /\ (deleted r + failed r = deleted counts + failed counts + length ids)%nat
    /\ (failed r + tally isIdentityFailure w = failed counts + tally isIdentityFailure w')%nat
    /\ processed r = match ids with
                     | [] => processed counts
                     | _ :: _ => (index + length ids)%nat
                     end
    /\ identityAttempts w' = identityAttempts w ++ ids.
Proof.
  induction ids as [| id rest IH]; intros index counts w.
  - exists counts, w. simpl. rewrite app_nil_r. repeat split; lia.
  - destruct (deleteIdentities_turn user total index id counts w)
      as (c & w1 & E1 & Hp1 & Hs1 & Hf1 & Ha1).
    destruct (IH (S index) c w1) as (r & w' & E & Hsum & Hf & Hproc & Hids).
    exists r, w'. simpl. rewrite (bind_returns _ _ _ _ _ E1).
    split; [ exact E | ].
    rewrite Hids, Ha1, <- app_assoc. simpl.
    repeat split; try lia.
    destruct rest; simpl in *; lia.
Qed.

Lemma deleteAllUserIdentities_run (steps : nat) (user : OrganizationUser)
    (w w1 : World) (found : list Identity) :
  collectAllUserIdentities cfg steps user (note (Logged (ProcessingUser user)) w)
  = (Return found, w1) ->
  exists r w2,
    deleteAllUserIdentities cfg steps user w = (Return r, w2)
    /\ processed r = length (uniqueIdentityIds found)
    /\ (deleted r + failed r = processed r)%nat
    /\ (failed r + tally isIdentityFailure w1 = tally isIdentityFailure w2)%nat
    /\ identityAttempts w2 = identityAttempts w1 ++ uniqueIdentityIds found
    /\ (forall keep,
          ignores plumbing keep -> ignores narration keep ->
          (forall id tok, In id (uniqueIdentityIds found) ->
                          keep (Sent (mkRequest DELETE (IdentityById id) tok)) = false) ->
          view keep w2 = view keep w1).
Proof.
  intros Hfound. unfold deleteAllUserIdentities.
  rewrite (bind_returns (log (ProcessingUser user)) _ w _ tt eq_refl).
  rewrite (bind_returns _ _ _ _ _ Hfound).
  destruct (length found =? 0)%nat eqn:Elen.
  - apply Nat.eqb_eq, length_zero_iff_nil in Elen. subst found.
    eexists _, _. split; [ reflexivity | ]. simpl.
    rewrite app_nil_r. repeat split; try reflexivity.
    intros keep _ Hn _. unfold view. simpl.
    now rewrite (Hn (Logged (NoIdentities user)) eq_refl).
  - destruct (deleteIdentities_run user (length (uniqueIdentityIds found)) (uniqueIdentityIds found)
                0%nat (mkBulk 0 0 0) w1) as (r & w2 & E & Hsum & Hf & Hproc & Hids).
    rewrite (bind_returns _ _ _ _ _ E).
    eexists _, _. split; [ reflexivity | ]. simpl in *.
    assert (processed r = length (uniqueIdentityIds found)).
    { destruct (uniqueIdentityIds found); simpl in *; [ | assumption ].
      rewrite Hproc. reflexivity. }
    repeat split; auto; try lia.
    intros keep Hp Hn Hid.
    pose proof (quiet_deleteIdentities keep user (length (uniqueIdentityIds found))
                  Hp Hn (uniqueIdentityIds found) Hid 0%nat (mkBulk 0 0 0) w1) as Hq.
    rewrite E in Hq. simpl in Hq. rewrite <- Hq. unfold view. simpl.
    now rewrite (Hn (Logged (FinishedUser user r)) eq_refl).
Qed.

Lemma quiet_deleteAllUserIdentities (keep : Event -> bool) (steps : nat)
    (user : OrganizationUser) :
  ignores plumbing keep -> ignores paging keep -> ignores narration keep ->
  (forall id tok, id <> "" -> keep (Sent (mkRequest DELETE (IdentityById id) tok)) = false) ->
  quiet keep (deleteAllUserIdentities cfg steps user).
Proof.
  intros Hp Hg Hn Hid. unfold deleteAllUserIdentities.
  apply preserves_bind; [ apply quiet_log; now apply Hn | intros _ ].
  apply preserves_bind; [ now apply quiet_collectAllUserIdentities | intros found ].
  dismantle; try (apply quiet_log; now apply Hn).
  apply quiet_deleteIdentities; auto.
  intros id tok Hin. apply Hid. now apply In_uniqueIdentityIds in Hin.
Qed.

(** When a batch returns, its [failed] count is the number of failure
    lines it left. *)
Lemma deleteAllUserIdentities_failed (steps : nat) (user : OrganizationUser)
    (w w' : World) (r : BulkResult) :
  deleteAllUserIdentities cfg steps user w = (Return r, w') ->
  (failed r + tally isIdentityFailure w = tally isIdentityFailure w')%nat.
Proof.
  intros E.
  assert (E' := E). unfold deleteAllUserIdentities in E'.
  apply bind_inv in E' as ([] & w0 & Elog & E').
  apply bind_inv in E' as (found & w1 & Hfound & _).
  injection Elog as <-.
  destruct (deleteAllUserIdentities_run _ _ _ _ _ Hfound) as (r' & w2 & E2 & _ & _ & Hf & _ & _).
  rewrite E in E2. injection E2 as <- <-.
  assert (tally isIdentityFailure w1 = tally isIdentityFailure w).
  { change w1 with (snd (Return found, w1)). rewrite <- Hfound.
    transitivity (tally isIdentityFailure (note (Logged (ProcessingUser user)) w));
      [ | reflexivity ].
    apply tally_view. apply quiet_collectAllUserIdentities; sift. }
  lia.
Qed.

Lemma forEachUser_failed (steps : nat) :
  forall orgUsers t w t' w',
    forEachUser cfg steps orgUsers t w = (Return t', w') ->
    (identitiesFailed t' + tally isIdentityFailure w
     = identitiesFailed t + tally isIdentityFailure w')%nat.
Proof.
  induction orgUsers as [| user rest IH]; intros t w t' w' E; simpl in E.
  - injection E as <- <-. reflexivity.
  - apply bind_inv in E as (r & w1 & Er & E).
    apply deleteAllUserIdentities_failed in Er.
    apply IH in E. simpl in E. lia.
Qed.

Lemma quiet_forEachUser (keep : Event -> bool) (steps : nat) :
  ignores plumbing keep -> ignores paging keep -> ignores narration keep ->
  (forall id tok, id <> "" -> keep (Sent (mkRequest DELETE (IdentityById id) tok)) = false) ->
  forall orgUsers t, quiet keep (forEachUser cfg steps orgUsers t).
Proof.
  intros Hp Hg Hn Hid. induction orgUsers as [| user rest IH]; intros t; simpl.
  - apply preserves_ret.
  - apply preserves_bind; [ now apply quiet_deleteAllUserIdentities | intros r ].
    apply IH.
Qed.

End OrgBulk.

Lemma preserves_at {St X A : Type} (obs : St -> X) (m : M St A) (s : St) :
  preserves obs m -> obs (snd (m s)) = obs s.
Proof. intros H. apply H. Qed.

Section AllBulk.

Import AllUsers.

Variable cfg : Config.

Lemma quiet_deleteUser (keep : Event -> bool) (userId : string) :
  ignores plumbing keep ->
  keep (Logged (DeletingUser userId)) = false ->
  keep (Logged (DeletedUser userId)) = false ->
  (forall tok, keep (Sent (mkRequest DELETE (UserById userId) tok)) = false) ->
  quiet keep (deleteUser cfg userId).
Proof.
  intros Hp Hbefore Hafter Hid. unfold deleteUser. dismantle;
    try (now apply quiet_log).
  now apply quiet_requestWithRetry_all.
Qed.

(** [deleteUser] announces the id it was called with, once. *)
Lemma deleteUser_attempt (userId : string) (w : World) :
  userAttempts (snd (deleteUser cfg userId w)) = userAttempts w ++ [userId].
Proof.
  unfold deleteUser.
  rewrite (bind_returns (log (DeletingUser userId)) _ w _ tt eq_refl).
  transitivity (userAttempts (note (Logged (DeletingUser userId)) w)); [ | reflexivity ].
  apply userAttempts_view, preserves_at. dismantle.
  - apply quiet_requestWithRetry_all; [ sift | reflexivity ].
  - now apply quiet_log.
Qed.

Lemma deleteUser_failures (userId : string) (w : World) :
  tally isUserFailure (snd (deleteUser cfg userId w)) = tally isUserFailure w.
Proof.
  apply tally_view, preserves_at, quiet_deleteUser; solve [ sift | reflexivity ].
Qed.

Lemma deleteEach_turn (total i : nat) (u : User) (counts : nat * nat) (w : World) :
  exists c w',
    try_catch
      (log (DeletingLabel (S i) total u) ;;
       deleteUser cfg (user_id u) ;;
       ret (S (fst counts), snd counts))%eff
      (fun err =>
         log (FailedToDelete (user_id u) err) ;;
         ret (fst counts, S (snd counts)))%eff w
    = (Return c, w')
    /\ (fst c + snd c = S (fst counts + snd counts))%nat
    /\ (snd c + tally isUserFailure w = snd counts + tally isUserFailure w')%nat
    /\ userAttempts w' = userAttempts w ++ [user_id u]
    /\ exitCode w' = exitCode w.
Proof.
  pose (w0 := note (Logged (DeletingLabel (S i) total u)) w).
  assert (Hatt : userAttempts (snd (deleteUser cfg (user_id u) w0))
                 = userAttempts w ++ [user_id u])
    by (rewrite deleteUser_attempt; reflexivity).
  assert (Hfail : tally isUserFailure (snd (deleteUser cfg (user_id u) w0))
                  = tally isUserFailure w)
    by (rewrite deleteUser_failures; reflexivity).
  pose proof (settles_deleteUser cfg (user_id u) w0) as Hsettles.
  assert (Hexit : exitCode (snd (deleteUser cfg (user_id u) w0)) = exitCode w).
  { transitivity (exitCode w0); [ | reflexivity ].
    apply (exitCode_view isConsoleError), preserves_at, quiet_deleteUser;
      solve [ sift | reflexivity ]. }
  cbv [try_catch bind log ret]. fold w0.
  destruct (deleteUser cfg (user_id u) w0) as [[[] | err |] w1]; simpl in *.
  - eexists _, _. split; [ reflexivity | ]. simpl. repeat split; auto; lia.
  - eexists _, _. split; [ reflexivity | ]. simpl.
    unfold tally in *; simpl. repeat split; auto; lia.
  - contradiction.
Qed.

(** The loop of [deleteAllUsers] always runs to its end, calling
    [deleteUser] once for every entry of the list, in order. *)
Lemma deleteEach_run (total : nat) :
  forall batch i counts w,
  exists c w',
    deleteEach cfg total i batch counts w = (Return c, w')
    /\ (fst c + snd c = fst counts + snd counts + length batch)%nat
    /\ (snd c + tally isUserFailure w = snd counts + tally isUserFailure w')%nat
    /\ userAttempts w' = userAttempts w ++ map user_id batch
    /\ exitCode w' = exitCode w.
Proof.
  induction batch as [| u rest IH]; intros i counts w.
  - exists counts, w. simpl. rewrite app_nil_r. repeat split; lia.
  - destruct (deleteEach_turn total i u counts w) as (c & w1 & E1 & Hs1 & Hf1 & Ha1 & Hx1).
    destruct (IH (S i) c w1) as (r & w' & E & Hsum & Hf & Hids & Hx).
    exists r, w'. simpl. rewrite (bind_returns _ _ _ _ _ E1).
    split; [ exact E | ].
    rewrite Hids, Ha1, <- app_assoc. simpl.
    repeat split; try lia; congruence.
Qed.

Lemma deleteAllUsers_run (users : list User) (w : World) :
  exists w',
    deleteAllUsers cfg users w = (Return tt, w')
    /\ (tally isUserFailure w + length users >= tally isUserFailure w')%nat
    /\ userAttempts w' = userAttempts w ++ map user_id users
    /\ exitCode w' = exitCode w.
Proof.
  unfold deleteAllUsers.
  destruct (deleteEach_run (length users) users 0%nat (0%nat, 0%nat) w)
    as (c & w1 & E & Hsum & Hf & Hids & Hx).
  rewrite (bind_returns _ _ _ _ _ E).
  eexists. split; [ reflexivity | ]. simpl in *.
  repeat split; auto.
  change (tally isUserFailure (note (Logged (DeletionFinished (fst c) (snd c))) w1))
    with (tally isUserFailure w1). lia.
Qed.

Lemma quiet_deleteAllUsers (keep : Event -> bool) (users : list User) :
  ignores plumbing keep -> ignores narration keep ->
  (forall id tok, keep (Sent (mkRequest DELETE (UserById id) tok)) = false) ->
  quiet keep (deleteAllUsers cfg users).
Proof.
  intros Hp Hn Hid. unfold deleteAllUsers.
  apply preserves_bind; [ | intros c; apply quiet_log; now apply Hn ].
  generalize (length users) 0%nat (0%nat, 0%nat).
  induction users as [| u rest IH]; intros total i counts; simpl.
  - apply preserves_ret.
  - dismantle; try (apply quiet_log; now apply Hn); auto.
    apply quiet_deleteUser; auto; now apply Hn.
Qed.

End AllBulk.

(** ** Requests and answers on the wire *)

Section Wire.

(** [fetch] adds one round trip, and what comes back is its answer. *)
Lemma roundTrips_fetch (r : Request) (w : World) :
  exists answer,
    roundTrips (snd (fetch r w)) = roundTrips w ++ [(r, answer)]
    /\ fst (fetch r w) = match answer with
                         | Some resp => Return resp
                         | None => Throw NetworkError
                         end.
Proof.
  exists (result (network w (served w))). unfold fetch.
  destruct (result (network w (served w))) as [resp |] eqn:E;
    unfold roundTrips; simpl; rewrite E; split; reflexivity.
Qed.

(** The token getters: nothing goes out when the cached token is returned;
    otherwise one token request does, and the call returns exactly when
    its answer is usable. *)
Lemma getAccessToken_on_the_wire_org (force : bool) (w : World) :
  exists sent,
    roundTrips (snd (OrgIdentities.getAccessToken force w)) = roundTrips w ++ sent
    /\ tokenStep usableToken_org (fst (OrgIdentities.getAccessToken force w)) sent.
Proof.
  unfold OrgIdentities.getAccessToken. cbv [bind read_tokenCache Date_now].
  destruct (OrgIdentities.cached force (tokenCache w) (clock w)) as [t |].
  - exists []. rewrite app_nil_r. split; [ reflexivity | now left ].
  - cbv [log fetch write_tokenCache throw ret]. cbn [note network served].
    exists [(tokenRequest, result (network w (served w)))].
    unfold usableToken_org.
    destruct (result (network w (served w))) as [resp |] eqn:E.
    + destruct (ok resp) eqn:Eok; cbn [negb].
      * destruct (body resp) as [json |] eqn:Eb.
        -- destruct (truthy (access_token json)) eqn:Et.
           ++ unfold roundTrips. simpl. rewrite E. split; [ reflexivity | ].
              right. exists resp. split; [ reflexivity | ].
              now rewrite Eok, Eb, Et.
           ++ unfold roundTrips. simpl. rewrite E. split; [ reflexivity | ].
              eexists. split; [ reflexivity | ].
              unfold refusedToken. simpl. now rewrite Eok, Eb, Et.
        -- unfold roundTrips. simpl. rewrite E. split; [ reflexivity | ].
           eexists. split; [ reflexivity | ].
           unfold refusedToken. simpl. now rewrite Eok, Eb.
      * unfold roundTrips. simpl. rewrite E. split; [ reflexivity | ].
        eexists. split; [ reflexivity | ].
        unfold refusedToken. simpl. now rewrite Eok.
    + unfold roundTrips. simpl. rewrite E. split; [ reflexivity | ].
      eexists. split; reflexivity.
Qed.

Lemma getAccessToken_on_the_wire_all (force : bool) (w : World) :
  exists sent,
    roundTrips (snd (AllUsers.getAccessToken force w)) = roundTrips w ++ sent
    /\ tokenStep usableToken_all (fst (AllUsers.getAccessToken force w)) sent.
Proof.
  unfold AllUsers.getAccessToken. cbv [bind read_tokenCache Date_now].
  destruct (AllUsers.cached force (tokenCache w) (clock w)) as [t |].
  - exists []. rewrite app_nil_r. split; [ reflexivity | now left ].
  - cbv [log fetch write_tokenCache throw ret]. cbn [note network served].
    exists [(tokenRequest, result (network w (served w)))].
    unfold usableToken_all.
    destruct (result (network w (served w))) as [resp |] eqn:E.
    + destruct (ok resp) eqn:Eok; cbn [negb].
      * destruct (body resp) as [json |] eqn:Eb.
        -- unfold roundTrips. simpl. rewrite E. split; [ reflexivity | ].
           right. exists resp. split; [ reflexivity | ].
           now rewrite Eok, Eb.
        -- unfold roundTrips. simpl. rewrite E. split; [ reflexivity | ].
           eexists. split; [ reflexivity | ].
           unfold refusedToken. simpl. now rewrite Eok, Eb.
      * unfold roundTrips. simpl. rewrite E. split; [ reflexivity | ].
        eexists. split; [ reflexivity | ].
        unfold refusedToken. simpl. now rewrite Eok.
    + unfold roundTrips. simpl. rewrite E. split; [ reflexivity | ].
      eexists. split; reflexivity.
Qed.

Lemma wire_after_token (usable : Response -> bool) (m : Method) (url : Endpoint)
    (sent rest : list RoundTrip) (o : Outcome Response) :
  tokenStep usable (Return "") sent ->
  onTheWire usable m url o rest ->
  onTheWire usable m url o (sent ++ rest).
Proof.
  intros [-> | (resp & -> & Hu)] H; [ exact H | ].
  now apply wire_token_first.
Qed.

End Wire.

Section WireCalls.

Variable cfg : Config.

(** Whatever the server answers, a call of [requestWithRetry] is one
    logical call on the wire, with the outcome it has. *)
Lemma requestWithRetry_on_the_wire_org (m : Method) (url : Endpoint) :
  forall steps attempt refreshed w o w',
    OrgIdentities.requestWithRetry_steps cfg steps m url attempt refreshed w = (o, w') ->
    exists sent,
      roundTrips w' = roundTrips w ++ sent /\ onTheWire usableToken_org m url o sent.
Proof.
  induction steps as [| steps IH]; intros attempt refreshed w o w' H.
  - injection H as <- <-. exists []. rewrite app_nil_r. split; [ reflexivity | constructor ].
  - simpl in H.
    destruct (getAccessToken_on_the_wire_org false w) as (s1 & E1 & H1).
    unfold bind at 1 in H.
    destruct (OrgIdentities.getAccessToken false w) as [[tok | e |] w1];
      simpl in E1, H1; [ | | contradiction ].
    2:{ injection H as <- <-. destruct H1 as (answer & -> & Hr).
        eexists. split; [ exact E1 | ]. now constructor. }
    destruct (roundTrips_fetch (mkRequest m url (Some tok)) w1) as (answer & E2 & O2).
    unfold bind at 1 in H.
    destruct (fetch (mkRequest m url (Some tok)) w1) as [o2 w2]; simpl in E2, O2.
    subst o2. destruct answer as [response |].
    2:{ injection H as <- <-.
        eexists. split; [ rewrite E2, E1, <- app_assoc; reflexivity | ].
        eapply wire_after_token; [ exact H1 | constructor ]. }
    destruct ((status response =? 401) && negb refreshed) eqn:E401.
    + rewrite (bind_returns (log Unauthorized401) _ w2 _ tt eq_refl) in H.
      set (w3 := note (Logged Unauthorized401) w2) in H.
      destruct (getAccessToken_on_the_wire_org true w3) as (s4 & E4 & H4).
      unfold bind at 1 in H.
      assert (Hretry : retryStatus response = true).
      { apply andb_prop in E401 as [E _]. unfold retryStatus. now rewrite E. }
      destruct (OrgIdentities.getAccessToken true w3) as [[tok' | e |] w4];
        simpl in E4, H4; [ | | contradiction ].
      * destruct (IH _ _ _ _ _ H) as (s5 & E5 & H5).
        eexists. split.
        -- rewrite E5, E4. change (roundTrips w3) with (roundTrips w2).
           rewrite E2, E1, <- !app_assoc. reflexivity.
        -- eapply wire_after_token; [ exact H1 | ]. simpl.
           apply wire_retry; [ exact Hretry | ].
           eapply wire_after_token; [ exact H4 | exact H5 ].
      * injection H as <- <-. destruct H4 as (answer & -> & Hr).
        eexists. split.
        -- rewrite E4. change (roundTrips w3) with (roundTrips w2).
           rewrite E2, E1, <- !app_assoc. reflexivity.
        -- eapply wire_after_token; [ exact H1 | ]. simpl.
           apply wire_retry; [ exact Hretry | now constructor ].
    + destruct (((status response =? 429) || (500 <=? status response))
                && (attempt <? MAX_RETRIES cfg)%nat) eqn:Eretry.
      * rewrite (bind_returns _ _ _ _ _ (parseRetryAfterMs_hint _ w2)) in H.
        rewrite (bind_returns (random_below 250) _ w2 _ _ eq_refl) in H.
        rewrite (bind_returns (log _) _ _ _ tt eq_refl) in H.
        rewrite (bind_returns (sleep _) _ _ _ tt eq_refl) in H.
        destruct (IH _ _ _ _ _ H) as (s5 & E5 & H5).
        eexists. split.
        -- rewrite E5. 
           match goal with
           | |- roundTrips ?w5 ++ _ = _ => change (roundTrips w5) with (roundTrips w2)
           end.
           rewrite E2, E1, <- !app_assoc. reflexivity.
        -- eapply wire_after_token; [ exact H1 | ]. simpl.
           apply wire_retry; [ | exact H5 ].
           apply andb_prop in Eretry as [E _]. unfold retryStatus.
           apply orb_prop in E as [E | E]; rewrite E;
             [ apply orb_true_iff; left; apply orb_true_r | apply orb_true_r ].
      * injection H as <- <-.
        eexists. split; [ rewrite E2, E1, <- app_assoc; reflexivity | ].
        eapply wire_after_token; [ exact H1 | constructor ].
Qed.

Lemma requestWithRetry_on_the_wire_all (m : Method) (url : Endpoint) :
  forall steps attempt w o w',
    AllUsers.requestWithRetry_steps cfg steps m url attempt w = (o, w') ->
    exists sent,
      roundTrips w' = roundTrips w ++ sent /\ onTheWire usableToken_all m url o sent.
Proof.
  induction steps as [| steps IH]; intros attempt w o w' H.
  - injection H as <- <-. exists []. rewrite app_nil_r. split; [ reflexivity | constructor ].
  - simpl in H.
    destruct (getAccessToken_on_the_wire_all false w) as (s1 & E1 & H1).
    unfold bind at 1 in H.
    destruct (AllUsers.getAccessToken false w) as [[tok | e |] w1];
      simpl in E1, H1; [ | | contradiction ].
    2:{ injection H as <- <-. destruct H1 as (answer & -> & Hr).
        eexists. split; [ exact E1 | ]. now constructor. }
    destruct (roundTrips_fetch (mkRequest m url (Some tok)) w1) as (answer & E2 & O2).
    unfold bind at 1 in H.
    destruct (fetch (mkRequest m url (Some tok)) w1) as [o2 w2]; simpl in E2, O2.
    subst o2. destruct answer as [resp |].
    2:{ injection H as <- <-.
        eexists. split; [ rewrite E2, E1, <- app_assoc; reflexivity | ].
        eapply wire_after_token; [ exact H1 | constructor ]. }
    destruct ((status resp =? 401) && (attempt <? 1)%nat) eqn:E401.
    + rewrite (bind_returns (log Unauthorized401) _ w2 _ tt eq_refl) in H.
      set (w3 := note (Logged Unauthorized401) w2) in H.
      destruct (getAccessToken_on_the_wire_all true w3) as (s4 & E4 & H4).
      unfold bind at 1 in H.
      assert (Hretry : retryStatus resp = true).
      { apply andb_prop in E401 as [E _]. unfold retryStatus. now rewrite E. }
      destruct (AllUsers.getAccessToken true w3) as [[tok' | e |] w4];
        simpl in E4, H4; [ | | contradiction ].
      * destruct (IH _ _ _ _ H) as (s5 & E5 & H5).
        eexists. split.
        -- rewrite E5, E4. change (roundTrips w3) with (roundTrips w2).
           rewrite E2, E1, <- !app_assoc. reflexivity.
        -- eapply wire_after_token; [ exact H1 | ]. simpl.
           apply wire_retry; [ exact Hretry | ].
           eapply wire_after_token; [ exact H4 | exact H5 ].
      * injection H as <- <-. destruct H4 as (answer & -> & Hr).
        eexists. split.
        -- rewrite E4. change (roundTrips w3) with (roundTrips w2).
           rewrite E2, E1, <- !app_assoc. reflexivity.
        -- eapply wire_after_token; [ exact H1 | ]. simpl.
           apply wire_retry; [ exact Hretry | now constructor ].
    + destruct (((status resp =? 429) || (500 <=? status resp))
                && (attempt <? MAX_RETRIES cfg)%nat) eqn:Eretry.
      * cbv zeta in H.
        rewrite (bind_returns (random_below 250) _ w2 _ _ eq_refl) in H.
        rewrite (bind_returns (log _) _ _ _ tt eq_refl) in H.
        rewrite (bind_returns (sleep _) _ _ _ tt eq_refl) in H.
        destruct (IH _ _ _ _ H) as (s5 & E5 & H5).
        eexists. split.
        -- rewrite E5.
           match goal with
           | |- roundTrips ?w5 ++ _ = _ => change (roundTrips w5) with (roundTrips w2)
           end.
           rewrite E2, E1, <- !app_assoc. reflexivity.
        -- eapply wire_after_token; [ exact H1 | ]. simpl.
           apply wire_retry; [ | exact H5 ].
           apply andb_prop in Eretry as [E _]. unfold retryStatus.
           apply orb_prop in E as [E | E]; rewrite E;
             [ apply orb_true_iff; left; apply orb_true_r | apply orb_true_r ].
      * injection H as <- <-.
        eexists. split; [ rewrite E2, E1, <- app_assoc; reflexivity | ].
        eapply wire_after_token; [ exact H1 | constructor ].
Qed.

End WireCalls.

(** ** What one call on the wire tells *)

Section WireFacts.

Variable usable : Response -> bool.

Lemma wire_not_empty (m : Method) (url : Endpoint) (o : Outcome Response)
    (call : list RoundTrip) :
  onTheWire usable m url o call -> o <> Pending -> call <> [].
Proof. intros H; induction H; intros Ho; congruence. Qed.

(** The round trips of a call are token requests and its own request. *)
Lemma wire_frame (p : RoundTrip -> bool) (m : Method) (url : Endpoint)
    (o : Outcome Response) (call : list RoundTrip) :
  onTheWire usable m url o call ->
  (forall answer, p (tokenRequest, answer) = false) ->
  (forall tok answer, p (mkRequest m url (Some tok), answer) = false) ->
  filter p call = [].
Proof.
  intros H Htoken Hurl.
  induction H; simpl; rewrite ?Htoken, ?Hurl; assumption || reflexivity.
Qed.

Lemma retryStatus_not_ok (resp : Response) : retryStatus resp = true -> ok resp = false.
Proof.
  unfold retryStatus, ok. intros H.
  apply orb_prop in H as [H | H]; [ apply orb_prop in H as [H | H] | ].
  - apply Z.eqb_eq in H. rewrite H. reflexivity.
  - apply Z.eqb_eq in H. rewrite H. reflexivity.
  - apply Z.leb_le in H. apply andb_false_iff. right. apply Z.leb_gt. lia.
Qed.

Lemma endsGranted_cons (x : RoundTrip) (call : list RoundTrip) :
  call <> [] -> endsGranted (x :: call) = endsGranted call.
Proof.
  unfold endsGranted. intros Hne. simpl.
  destruct (rev call) as [| y l] eqn:E.
  - apply (f_equal (@rev _)) in E. rewrite rev_involutive in E. contradiction.
  - reflexivity.
Qed.

(** A call ends with a granted [DELETE] exactly when it returns a response
    with a status in 200..299. *)
Lemma wire_ends (url : Endpoint) (o : Outcome Response) (call : list RoundTrip) :
  onTheWire usable DELETE url o call ->
  o <> Pending ->
  endsGranted call = match o with
                     | Return resp => ok resp
                     | _ => false
                     end.
Proof.
  intros H; induction H; intros Ho; try reflexivity.
  - rewrite endsGranted_cons; [ auto | now apply (wire_not_empty _ _ _ _ H0) ].
  - rewrite endsGranted_cons; [ auto | now apply (wire_not_empty _ _ _ _ H0) ].
Qed.

(** Only the last [DELETE] of a call can be granted. *)
Lemma wire_granted (url : Endpoint) (o : Outcome Response) (call : list RoundTrip) :
  onTheWire usable DELETE url o call ->
  o <> Pending ->
  length (filter grantedDeletion call) = if endsGranted call then 1%nat else 0%nat.
Proof.
  intros H; induction H; intros Ho; try reflexivity.
  - unfold endsGranted, grantedDeletion. simpl. destruct (ok resp); reflexivity.
  - rewrite endsGranted_cons; [ | now apply (wire_not_empty _ _ _ _ H0) ].
    simpl. auto.
  - rewrite endsGranted_cons; [ | now apply (wire_not_empty _ _ _ _ H0) ].
    unfold grantedDeletion at 1. simpl.
    rewrite (retryStatus_not_ok _ H). simpl. auto.
Qed.

(** Every [DELETE] of a call goes to its URL. *)
Lemma wire_deletions (url : Endpoint) (o : Outcome Response) (call : list RoundTrip) :
  onTheWire usable DELETE url o call ->
  map (fun x => endpoint (fst x)) (filter isDeletionTrip call)
  = repeat url (length (filter isDeletionTrip call)).
Proof.
  intros H; induction H; simpl; try reflexivity; auto.
  now rewrite IHonTheWire.
Qed.

(** Every [DELETE] of a call but the last was answered with a retry
    status. *)
Lemma wire_retried (url : Endpoint) (o : Outcome Response) (call : list RoundTrip) :
  onTheWire usable DELETE url o call ->
  (length (filter isDeletionTrip call) <= 1 + length (filter retriedDeletion call))%nat.
Proof.
  intros H; induction H; simpl; try lia.
  unfold retriedDeletion at 1. simpl. rewrite H. simpl. lia.
Qed.

(** A call that sends no [DELETE] was refused its token. *)
Lemma wire_refused (url : Endpoint) (o : Outcome Response) (call : list RoundTrip) :
  onTheWire usable DELETE url o call ->
  o <> Pending ->
  filter (refusedToken usable) call = [] ->
  filter isDeletionTrip call <> [].
Proof.
  intros H; induction H; intros Ho Hnone; simpl in *; try discriminate.
  - congruence.
  - rewrite H in Hnone. discriminate.
  - unfold refusedToken in Hnone at 1. simpl in Hnone. rewrite H in Hnone.
    simpl in Hnone. auto.
Qed.

End WireFacts.

(** ** Delete phases on the wire *)

Section DeleteCalls.

Variable usable : Response -> bool.

Lemma tallyTrips_after (p : RoundTrip -> bool) (w w' : World) (sent : list RoundTrip) :
  roundTrips w' = roundTrips w ++ sent ->
  tallyTrips p w' = (tallyTrips p w + length (filter p sent))%nat.
Proof.
  intros E. unfold tallyTrips. now rewrite E, filter_app, length_app.
Qed.

Lemma deletions_after (w w' : World) (sent : list RoundTrip) :
  roundTrips w' = roundTrips w ++ sent ->
  deletions w' = deletions w ++ map (fun x => endpoint (fst x)) (filter isDeletionTrip sent).
Proof.
  intros E. unfold deletions. now rewrite E, filter_app, map_app.
Qed.

Lemma deletesEachOnce_nil (w w' : World) :
  roundTrips w' = roundTrips w -> deletesEachOnce usable [] [] w w'.
Proof.
  intros E. split; [ simpl; now rewrite app_nil_r | constructor ].
Qed.

Lemma deletesEachOnce_cons (url : Endpoint) (targets : list Endpoint)
    (call : list RoundTrip) (calls : list (list RoundTrip)) (o : Outcome Response)
    (w w1 w' : World) :
  roundTrips w1 = roundTrips w ++ call ->
  o <> Pending ->
  onTheWire usable DELETE url o call ->
  deletesEachOnce usable targets calls w1 w' ->
  deletesEachOnce usable (url :: targets) (call :: calls) w w'.
Proof.
  intros E Ho Hcall [E' Hcalls]. split.
  - simpl. now rewrite E', E, <- app_assoc.
  - constructor; [ now exists o | assumption ].
Qed.

(** The granted [DELETE]s of a delete phase are the last ones of the calls
    that end granted. *)
Lemma deletesEachOnce_granted (targets : list Endpoint) (calls : list (list RoundTrip))
    (w w' : World) :
  deletesEachOnce usable targets calls w w' ->
  tallyTrips grantedDeletion w'
  = (tallyTrips grantedDeletion w + length (filter endsGranted calls))%nat.
Proof.
  intros [E H]. rewrite (tallyTrips_after _ _ _ _ E). f_equal. clear E.
  induction H as [| url call targets calls (o & Ho & Hcall) _ IH]; [ reflexivity | ].
  simpl. rewrite filter_app, length_app, IH, (wire_granted _ _ _ _ Hcall Ho).
  destruct (endsGranted call); reflexivity.
Qed.

(** When no [DELETE] is answered with a retry status and no token request
    is refused, a delete phase sends exactly one [DELETE] to each target,
    in order. *)
Lemma deletesEachOnce_calm (targets : list Endpoint) (calls : list (list RoundTrip))
    (w w' : World) :
  deletesEachOnce usable targets calls w w' ->
  tallyTrips retriedDeletion w' = tallyTrips retriedDeletion w ->
  tallyTrips (refusedToken usable) w' = tallyTrips (refusedToken usable) w ->
  deletions w' = deletions w ++ targets.
Proof.
  intros [E H] Hretried Hrefused.
  rewrite (tallyTrips_after _ _ _ _ E) in Hretried.
  rewrite (tallyTrips_after _ _ _ _ E) in Hrefused.
  rewrite (deletions_after _ _ _ E). f_equal.
  assert (Hr : length (filter retriedDeletion (concat calls)) = 0%nat) by lia.
  assert (Ht : length (filter (refusedToken usable) (concat calls)) = 0%nat) by lia.
  clear E Hretried Hrefused.
  induction H as [| url call targets calls (o & Ho & Hcall) _ IH]; [ reflexivity | ].
  simpl in *. rewrite filter_app, length_app in Hr, Ht.
  rewrite filter_app, map_app. change (url :: targets) with ([url] ++ targets).
  f_equal; [ | apply IH; lia ].
  rewrite (wire_deletions _ _ _ _ Hcall).
  pose proof (wire_retried _ _ _ _ Hcall) as Hle.
  assert (Hnone : filter (refusedToken usable) call = [])
    by (apply length_zero_iff_nil; lia).
  pose proof (wire_refused _ _ _ _ Hcall Ho Hnone) as Hsome.
  destruct (filter isDeletionTrip call) as [| x [| y l]];
    [ contradiction | reflexivity | simpl in Hle; lia ].
Qed.

End DeleteCalls.

Section OrgWire.

Import OrgIdentities.

Variable cfg : Config.

Lemma trips_log (p : RoundTrip -> bool) (m : LogMsg) : preserves (trips p) (log m).
Proof. intros w. reflexivity. Qed.

Lemma trips_requestWithRetry_org (p : RoundTrip -> bool) (m : Method) (url : Endpoint)
    (attempt : nat) (refreshed : bool) :
  (forall answer, p (tokenRequest, answer) = false) ->
  (forall tok answer, p (mkRequest m url (Some tok), answer) = false) ->
  preserves (trips p) (requestWithRetry cfg m url attempt refreshed).
Proof.
  intros Htoken Hurl w. unfold requestWithRetry.
  destruct (requestWithRetry_steps cfg _ m url attempt refreshed w) as [o w'] eqn:E.
  apply requestWithRetry_on_the_wire_org in E as (sent & E & H).
  simpl. unfold trips. rewrite E, filter_app, (wire_frame _ _ _ _ _ _ H Htoken Hurl).
  apply app_nil_r.
Qed.

Lemma trips_collectAllUserIdentities (p : RoundTrip -> bool) (steps : nat)
    (user : OrganizationUser) :
  (forall answer, p (tokenRequest, answer) = false) ->
  (forall r answer, method r = GET -> p (r, answer) = false) ->
  preserves (trips p) (collectAllUserIdentities cfg steps user).
Proof.
  intros Htoken Hget. apply preserves_collectAllUserIdentities_with.
  - intros m _. apply trips_log.
  - intros u t. unfold getUserIdentitiesPage. dismantle.
    apply trips_requestWithRetry_org; [ assumption | ].
    intros tok answer. now apply Hget.
Qed.

Lemma trips_collectOrganizationUsers (p : RoundTrip -> bool) (steps : nat) :
  (forall answer, p (tokenRequest, answer) = false) ->
  (forall r answer, method r = GET -> p (r, answer) = false) ->
  preserves (trips p) (collectOrganizationUsers cfg steps).
Proof.
  intros Htoken Hget. apply preserves_collectOrganizationUsers_with.
  - intros m _. apply trips_log.
  - intros t. unfold getOrganizationUsersPage. dismantle; [ apply trips_log | ].
    apply trips_requestWithRetry_org; [ assumption | ].
    intros tok answer. now apply Hget.
Qed.

(** One call of [deleteIdentity] is one logical call on the wire; it
    returns exactly when that call ends with a granted [DELETE]. *)
Lemma deleteIdentity_on_the_wire (identityId : string) (w w' : World) (o : Outcome unit) :
  deleteIdentity cfg identityId w = (o, w') ->
  exists call ow,
    roundTrips w' = roundTrips w ++ call
    /\ ow <> Pending
    /\ onTheWire usableToken_org DELETE (IdentityById identityId) ow call
    /\ ((o = Return tt /\ endsGranted call = true)
        \/ (exists err, o = Throw err) /\ endsGranted call = false).
Proof.
  unfold deleteIdentity. cbv zeta. intros H.
  pose proof (settles_requestWithRetry_org cfg DELETE (IdentityById identityId) 0 false w)
    as Hsettles.
  unfold bind in H.
  destruct (requestWithRetry cfg DELETE (IdentityById identityId) 0 false w)
    as [ow w1] eqn:E.
  simpl in Hsettles. unfold requestWithRetry in E.
  apply requestWithRetry_on_the_wire_org in E as (call & E & Hcall).
  pose proof (wire_ends _ _ _ _ Hcall Hsettles) as Hend.
  destruct ow as [response | err |]; [ | | contradiction ].
  - exists call, (Return response).
    split; [ | split; [ assumption | split; [ assumption | ] ] ].
    + destruct (ok response); injection H as <- <-; exact E.
    + destruct (ok response); injection H as <- <-; [ now left | right; eauto ].
  - injection H as <- <-. exists call, (Throw err).
    split; [ exact E | split; [ assumption | split; [ assumption | right; eauto ] ] ].
Qed.

Lemma deleteIdentities_on_the_wire (user : OrganizationUser) (total : nat) :
  forall ids index counts w r w',
    deleteIdentities cfg user total index ids counts w = (Return r, w') ->
    exists calls,
      deletesEachOnce usableToken_org (map IdentityById ids) calls w w'
      /\ deleted r = (deleted counts + length (filter endsGranted calls))%nat
      /\ failed r = (failed counts + length (failedCalls calls))%nat.
Proof.
  induction ids as [| id rest IH]; intros index counts w r w' H; simpl in H.
  - injection H as <- <-. exists []. split; [ now apply deletesEachOnce_nil | ].
    simpl. split; lia.
  - apply bind_inv in H as (c & w1 & Hturn & H).
    apply IH in H as (calls & Hcalls & Hdel & Hfail).
    unfold try_catch in Hturn.
    rewrite (bind_returns (log _) _ w _ tt eq_refl) in Hturn.
    unfold bind in Hturn.
    destruct (deleteIdentity cfg id (note (Logged (DeletingIdentity user (S index) total id)) w))
      as [o w0] eqn:Ecall.
    apply deleteIdentity_on_the_wire in Ecall
      as (call & ow & E & Ho & Hcall & [[-> Hend] | [[err ->] Hend]]).
    + injection Hturn as <- <-. exists (call :: calls). split.
      * eapply deletesEachOnce_cons; eauto.
      * unfold failedCalls in *. simpl. rewrite Hend. simpl in *. split; lia.
    + injection Hturn as <- <-. exists (call :: calls). split.
      * eapply deletesEachOnce_cons; eauto.
      * unfold failedCalls in *. simpl. rewrite Hend. simpl in *. split; lia.
Qed.

(** Once the identities of a user are fetched, the batch is one logical
    [DELETE] call for each unique non-empty id, in first-seen order; the
    calls that end granted are counted as deleted, the others as
    failed. *)
Lemma deleteAllUserIdentities_on_the_wire (steps : nat) (user : OrganizationUser)
    (w w1 w2 : World) (found : list Identity) (r : BulkResult) :
  collectAllUserIdentities cfg steps user (note (Logged (ProcessingUser user)) w)
  = (Return found, w1) ->
  deleteAllUserIdentities cfg steps user w = (Return r, w2) ->
  exists calls,
    deletesEachOnce usableToken_org (map IdentityById (uniqueIdentityIds found)) calls w1 w2
    /\ deleted r = length (filter endsGranted calls)
    /\ failed r = length (failedCalls calls).
Proof.
  intros Hfound H. unfold deleteAllUserIdentities in H.
  rewrite (bind_returns (log (ProcessingUser user)) _ w _ tt eq_refl) in H.
  rewrite (bind_returns _ _ _ _ _ Hfound) in H.
  destruct (length found =? 0)%nat eqn:Elen.
  - apply Nat.eqb_eq, length_zero_iff_nil in Elen. subst found.
    injection H as <- <-. exists []. split; [ now apply deletesEachOnce_nil | ].
    split; reflexivity.
  - apply bind_inv in H as (c & w' & Hloop & H). injection H as <- <-.
    apply deleteIdentities_on_the_wire in Hloop as (calls & [E Hcalls] & Hdel & Hfail).
    exists calls. split; [ split; assumption | ]. simpl in *. split; lia.
Qed.

End OrgWire.

Section AllWire.

Import AllUsers.

Variable cfg : Config.

(** One call of [deleteUser] is one logical call on the wire. *)
Lemma deleteUser_on_the_wire (userId : string) (w w' : World) (o : Outcome unit) :
  deleteUser cfg userId w = (o, w') ->
  exists call ow,
    roundTrips w' = roundTrips w ++ call
    /\ ow <> Pending
    /\ onTheWire usableToken_all DELETE (UserById userId) ow call
    /\ ((o = Return tt /\ endsGranted call = true)
        \/ (exists err, o = Throw err) /\ endsGranted call = false).
Proof.
  unfold deleteUser. cbv zeta. intros H.
  rewrite (bind_returns (log _) _ w _ tt eq_refl) in H.
  set (w0 := note (Logged (DeletingUser userId)) w) in H.
  pose proof (settles_requestWithRetry_all cfg DELETE (UserById userId) 0 w0) as Hsettles.
  unfold bind in H.
  destruct (requestWithRetry cfg DELETE (UserById userId) 0 w0) as [ow w1] eqn:E.
  simpl in Hsettles. unfold requestWithRetry in E.
  apply requestWithRetry_on_the_wire_all in E as (call & E & Hcall).
  change (roundTrips w0) with (roundTrips w) in E.
  pose proof (wire_ends _ _ _ _ Hcall Hsettles) as Hend.
  destruct ow as [resp | err |]; [ | | contradiction ].
  - exists call, (Return resp).
    split; [ | split; [ assumption | split; [ assumption | ] ] ].
    + destruct (ok resp); injection H as <- <-; exact E.
    + destruct (ok resp); injection H as <- <-; [ now left | right; eauto ].
  - injection H as <- <-. exists call, (Throw err).
    split; [ exact E | split; [ assumption | split; [ assumption | right; eauto ] ] ].
Qed.

Lemma deleteEach_on_the_wire (total : nat) :
  forall batch i counts w c w',
    deleteEach cfg total i batch counts w = (Return c, w') ->
    exists calls,
      deletesEachOnce usableToken_all (map (fun u => UserById (user_id u)) batch) calls w w'
      /\ fst c = (fst counts + length (filter endsGranted calls))%nat
      /\ snd c = (snd counts + length (failedCalls calls))%nat.
Proof.
  induction batch as [| u rest IH]; intros i counts w c w' H; simpl in H.
  - injection H as <- <-. exists []. split; [ now apply deletesEachOnce_nil | ].
    simpl. split; lia.
  - apply bind_inv in H as (c1 & w1 & Hturn & H).
    apply IH in H as (calls & Hcalls & Hdel & Hfail).
    unfold try_catch in Hturn.
    rewrite (bind_returns (log _) _ w _ tt eq_refl) in Hturn.
    unfold bind in Hturn.
    destruct (deleteUser cfg (user_id u) (note (Logged (DeletingLabel (S i) total u)) w))
      as [o w0] eqn:Ecall.
    apply deleteUser_on_the_wire in Ecall
      as (call & ow & E & Ho & Hcall & [[-> Hend] | [[err ->] Hend]]).
    + injection Hturn as <- <-. exists (call :: calls). split.
      * eapply deletesEachOnce_cons; eauto.
      * unfold failedCalls in *. simpl. rewrite Hend. simpl in *. split; lia.
    + injection Hturn as <- <-. exists (call :: calls). split.
      * eapply deletesEachOnce_cons; eauto.
      * unfold failedCalls in *. simpl. rewrite Hend. simpl in *. split; lia.
Qed.

(** [deleteAllUsers] is one logical [DELETE] call for each entry of the
    list it is given, in order. *)
Lemma deleteAllUsers_on_the_wire (batch : list User) (w w' : World) :
  deleteAllUsers cfg batch w = (Return tt, w') ->
  exists calls,
    deletesEachOnce usableToken_all (map (fun u => UserById (user_id u)) batch) calls w w'.
Proof.
  unfold deleteAllUsers. intros H.
  apply bind_inv in H as (c & w1 & Hloop & H). injection H as <-.
  apply deleteEach_on_the_wire in Hloop as (calls & [E Hcalls] & _).
  exists calls. split; assumption.
Qed.

End AllWire.

(** ** The delete calls of a whole run *)

Section OrgTally.

Import OrgIdentities.

Variable cfg : Config.

Lemma tallyTrips_trips (p : RoundTrip -> bool) (w w' : World) :
  trips p w' = trips p w -> tallyTrips p w' = tallyTrips p w.
Proof. unfold trips, tallyTrips. now intros ->. Qed.

Lemma grantedDeletion_not_token (answer : option Response) :
  grantedDeletion (tokenRequest, answer) = false.
Proof. reflexivity. Qed.

Lemma grantedDeletion_not_get (r : Request) (answer : option Response) :
  method r = GET -> grantedDeletion (r, answer) = false.
Proof. unfold grantedDeletion, isDeletionTrip. simpl. now intros ->. Qed.

(** What a batch that returns has asked for, and what it was granted. *)
Lemma deleteAllUserIdentities_tally (steps : nat) (user : OrganizationUser)
    (w w' : World) (r : BulkResult) :
  deleteAllUserIdentities cfg steps user w = (Return r, w') ->
  (deleted r + failed r = processed r)%nat
  /\ length (identityAttempts w') = (length (identityAttempts w) + processed r)%nat
  /\ tallyTrips grantedDeletion w' = (tallyTrips grantedDeletion w + deleted r)%nat.
Proof.
  intros E.
  assert (E' := E). unfold deleteAllUserIdentities in E'.
  apply bind_inv in E' as ([] & w0 & Elog & E').
  apply bind_inv in E' as (found & w1 & Hfound & _).
  injection Elog as <-.
  destruct (deleteAllUserIdentities_run _ _ _ _ _ _ Hfound)
    as (r' & w2 & E2 & Hproc & Hsum & _ & Hatt & _).
  rewrite E in E2. injection E2 as <- <-.
  destruct (deleteAllUserIdentities_on_the_wire cfg _ _ _ _ _ _ _ Hfound E)
    as (calls & Hcalls & Hdel & _).
  split; [ exact Hsum | ].
  assert (Hsame : identityAttempts w1 = identityAttempts w).
  { change w1 with (snd (Return found, w1)). rewrite <- Hfound.
    transitivity (identityAttempts (note (Logged (ProcessingUser user)) w));
      [ | reflexivity ].
    apply identityAttempts_view, preserves_at, quiet_collectAllUserIdentities; sift. }
  assert (Hgranted : tallyTrips grantedDeletion w1 = tallyTrips grantedDeletion w).
  { change w1 with (snd (Return found, w1)). rewrite <- Hfound.
    transitivity (tallyTrips grantedDeletion (note (Logged (ProcessingUser user)) w));
      [ | reflexivity ].
    apply tallyTrips_trips, trips_collectAllUserIdentities.
    - apply grantedDeletion_not_token.
    - apply grantedDeletion_not_get. }
  split.
  - rewrite Hatt, Hsame, length_app, Hproc. reflexivity.
  - rewrite (deletesEachOnce_granted _ _ _ _ _ Hcalls). lia.
Qed.

Lemma forEachUser_tally (steps : nat) :
  forall orgUsers t w t' w',
    forEachUser cfg steps orgUsers t w = (Return t', w') ->
    (identitiesDeleted t' + identitiesFailed t' + identitiesProcessed t
     = identitiesDeleted t + identitiesFailed t + identitiesProcessed t')%nat
    /\ (length (identityAttempts w') + identitiesProcessed t
        = length (identityAttempts w) + identitiesProcessed t')%nat
    /\ (tallyTrips grantedDeletion w' + identitiesDeleted t
        = tallyTrips grantedDeletion w + identitiesDeleted t')%nat.
Proof.
  induction orgUsers as [| user rest IH]; intros t w t' w' E; simpl in E.
  - injection E as <- <-. simpl. repeat split; lia.
  - apply bind_inv in E as (r & w1 & Er & E).
    apply deleteAllUserIdentities_tally in Er as (Hsum & Hatt & Hgranted).
    apply IH in E as (Hs & Ha & Hg). simpl in *. repeat split; lia.
Qed.

Lemma deleteCalls_nil (w w' : World) :
  trips isDeletionTrip w' = trips isDeletionTrip w ->
  deleteCalls usableToken_org [] [] w w'.
Proof. intros E. split; [ simpl; now rewrite app_nil_r | constructor ]. Qed.

Lemma deleteCalls_app (targets1 targets2 : list Endpoint)
    (calls1 calls2 : list (list RoundTrip)) (w w1 w2 : World) :
  deleteCalls usableToken_org targets1 calls1 w w1 ->
  deleteCalls usableToken_org targets2 calls2 w1 w2 ->
  deleteCalls usableToken_org (targets1 ++ targets2) (calls1 ++ calls2) w w2.
Proof.
  intros [E1 H1] [E2 H2]. split.
  - rewrite E2, E1, concat_app, filter_app, app_assoc. reflexivity.
  - now apply Forall2_app.
Qed.

(** The delete calls of a batch that returns: as many as it counts as
    processed, the failed ones as many as it counts as failed. *)
Lemma deleteAllUserIdentities_calls (steps : nat) (user : OrganizationUser)
    (w w' : World) (r : BulkResult) :
  deleteAllUserIdentities cfg steps user w = (Return r, w') ->
  exists targets calls,
    deleteCalls usableToken_org targets calls w w'
    /\ length calls = processed r
    /\ length (filter endsGranted calls) = deleted r
    /\ length (failedCalls calls) = failed r.
Proof.
  intros E.
  assert (E' := E). unfold deleteAllUserIdentities in E'.
  apply bind_inv in E' as ([] & w0 & Elog & E').
  apply bind_inv in E' as (found & w1 & Hfound & _).
  injection Elog as <-.
  destruct (deleteAllUserIdentities_run _ _ _ _ _ _ Hfound)
    as (r' & w2 & E2 & Hproc & _).
  rewrite E in E2. injection E2 as <- <-.
  destruct (deleteAllUserIdentities_on_the_wire cfg _ _ _ _ _ _ _ Hfound E)
    as (calls & [Etrips Hcalls] & Hdel & Hfail).
  exists (map IdentityById (uniqueIdentityIds found)), calls.
  split; [ split; [ | exact Hcalls ] | split; [ | split; [ now rewrite Hdel | ] ] ].
  - assert (Hsame : trips isDeletionTrip w1 = trips isDeletionTrip w).
    { change w1 with (snd (Return found, w1)). rewrite <- Hfound.
      transitivity (trips isDeletionTrip (note (Logged (ProcessingUser user)) w));
        [ | reflexivity ].
      apply trips_collectAllUserIdentities; [ reflexivity | ].
      intros req answer Hget. unfold isDeletionTrip. simpl. now rewrite Hget. }
    rewrite <- Hsame. unfold trips. now rewrite Etrips, filter_app.
  - rewrite Hproc, <- (Forall2_length Hcalls). apply length_map.
  - now rewrite Hfail.
Qed.

Lemma forEachUser_calls (steps : nat) :
  forall orgUsers t w t' w',
    forEachUser cfg steps orgUsers t w = (Return t', w') ->
    exists targets calls,
      deleteCalls usableToken_org targets calls w w'
      /\ identitiesProcessed t' = (identitiesProcessed t + length calls)%nat
      /\ identitiesDeleted t' = (identitiesDeleted t + length (filter endsGranted calls))%nat
      /\ identitiesFailed t' = (identitiesFailed t + length (failedCalls calls))%nat.
Proof.
  induction orgUsers as [| user rest IH]; intros t w t' w' E; simpl in E.
  - injection E as <- <-. exists [], [].
    split; [ now apply deleteCalls_nil | simpl; repeat split; lia ].
  - apply bind_inv in E as (r & w1 & Er & E).
    apply deleteAllUserIdentities_calls in Er
      as (targets1 & calls1 & H1 & Hp1 & Hd1 & Hf1).
    apply IH in E as (targets2 & calls2 & H2 & Hp2 & Hd2 & Hf2).
    simpl in Hp2, Hd2, Hf2.
    exists (targets1 ++ targets2), (calls1 ++ calls2).
    split; [ now apply (deleteCalls_app _ _ _ _ w w1 w') | ].
    unfold failedCalls in *. rewrite !filter_app, !length_app. repeat split; lia.
Qed.

End OrgTally.

(** * The claims *)

Section DeletePhase.

Import OrgIdentities.

(** C1, as the code has it.  In the identity flow, once the identities of
    a user are fetched, what goes over the wire until the batch returns is
    one logical call of [DELETE /identities/{id}] for each id of the batch,
    and these ids are the non-empty ids of the fetched identities, each
    once, in first-seen order: one call per unique id, each with its own
    retries and none taken up again.  When no [DELETE] is answered with a
    retry status and no token request is refused, that is exactly one
    [DELETE] request per unique id.  For the identities a, b, a the ids are
    a and b.  The progress lines of the batch name the same ids.  The user
    flow has no deduplication step: [deleteAllUsers] makes one logical call
    of [DELETE /user] for every entry of the fetched list, in order,
    repeats included. *)
Theorem delete_attempts_per_flow :
  (forall cfg steps user w w1 found,
      collectAllUserIdentities cfg steps user (note (Logged (ProcessingUser user)) w)
      = (Return found, w1) ->
      let ids := uniqueIdentityIds found in
      exists r w2 calls,
        deleteAllUserIdentities cfg steps user w = (Return r, w2)
        /\ NoDup ids
        /\ (forall id, In id ids <-> In (Some id) (map identity_id found) /\ id <> "")
        /\ ids = first_seen [] (filter_Boolean (map identity_id found))
        /\ deletesEachOnce usableToken_org (map IdentityById ids) calls w1 w2
        /\ (tallyTrips retriedDeletion w2 = tallyTrips retriedDeletion w1 ->
            tallyTrips (refusedToken usableToken_org) w2
            = tallyTrips (refusedToken usableToken_org) w1 ->
            deletions w2 = deletions w1 ++ map IdentityById ids)
        /\ identityAttempts w2 = identityAttempts w ++ ids)
  /\ uniqueIdentityIds [plainIdentity (Some "a"); plainIdentity (Some "b");
                        plainIdentity (Some "a")] = ["a"; "b"]
  /\ (forall cfg batch w,
         let targets := map (fun u => UserById (user_id u)) batch in
         exists w' calls,
           AllUsers.deleteAllUsers cfg batch w = (Return tt, w')
           /\ deletesEachOnce usableToken_all targets calls w w'
           /\ (tallyTrips retriedDeletion w' = tallyTrips retriedDeletion w ->
               tallyTrips (refusedToken usableToken_all) w'
               = tallyTrips (refusedToken usableToken_all) w ->
               deletions w' = deletions w ++ targets)
           /\ userAttempts w' = userAttempts w ++ map user_id batch).
Proof.
  split; [ | split ].
  - intros cfg steps user w w1 found Hfound ids.
    destruct (deleteAllUserIdentities_run cfg _ _ _ _ _ Hfound)
      as (r & w2 & E & _ & _ & _ & Hatt & _).
    destruct (deleteAllUserIdentities_on_the_wire cfg _ _ _ _ _ _ _ Hfound E)
      as (calls & Hcalls & _).
    exists r, w2, calls. split; [ exact E | ].
    assert (Hsame : identityAttempts w1 = identityAttempts w).
    { change w1 with (snd (Return found, w1)). rewrite <- Hfound.
      transitivity (identityAttempts (note (Logged (ProcessingUser user)) w));
        [ | reflexivity ].
      apply identityAttempts_view, preserves_at, quiet_collectAllUserIdentities; sift. }
    split; [ apply NoDup_Set_of | ].
    split; [ intros id; apply In_uniqueIdentityIds | ].
    split; [ apply Set_of_first_seen | ].
    split; [ exact Hcalls | ].
    split; [ now apply (deletesEachOnce_calm _ _ calls) | ].
    now rewrite Hatt, Hsame.
  - reflexivity.
  - intros cfg batch w targets.
    destruct (deleteAllUsers_run cfg batch w) as (w' & E & _ & Hatt & _).
    destruct (deleteAllUsers_on_the_wire cfg _ _ _ E) as (calls & Hcalls).
    exists w', calls. split; [ exact E | ].
    split; [ exact Hcalls | ].
    split; [ now apply (deletesEachOnce_calm _ _ calls) | exact Hatt ].
Qed.

Lemma delete_attempts_per_flow_witness :
  let user := plainUser "u1" in
  let found := map plainIdentity [Some "a"; Some "b"; Some "a"] in
  let calm := boot [tokenReply "T" 3600;
                    identitiesReply [Some "a"; Some "b"; Some "a"] false;
                    statusReply 204; statusReply 204] in
  let throttled := boot [tokenReply "T" 3600;
                         identitiesReply [Some "a"; Some "b"; Some "a"] false;
                         statusReply 429; statusReply 204; statusReply 204] in
  let fetched w := snd (collectAllUserIdentities sampleConfig 5 user
                          (note (Logged (ProcessingUser user)) w)) in
  (exists r w2 calls,
      deleteAllUserIdentities sampleConfig 5 user calm = (Return r, w2)
      /\ deletesEachOnce usableToken_org [IdentityById "a"; IdentityById "b"] calls
           (fetched calm) w2
      /\ deletions w2 = [IdentityById "a"; IdentityById "b"]
      /\ identityAttempts w2 = ["a"; "b"])
  /\ (exists r w2 calls,
         deleteAllUserIdentities sampleConfig 5 user throttled = (Return r, w2)
         /\ deletesEachOnce usableToken_org [IdentityById "a"; IdentityById "b"] calls
              (fetched throttled) w2
         /\ deletions w2 = [IdentityById "a"; IdentityById "a"; IdentityById "b"]
         /\ identityAttempts w2 = ["a"; "b"]).
Proof.
  intros user found calm throttled fetched.
  assert (Hcalm : collectAllUserIdentities sampleConfig 5 user
                    (note (Logged (ProcessingUser user)) calm)
                  = (Return found, fetched calm)) by (vm_compute; reflexivity).
  assert (Hthrottled : collectAllUserIdentities sampleConfig 5 user
                         (note (Logged (ProcessingUser user)) throttled)
                       = (Return found, fetched throttled)) by (vm_compute; reflexivity).
  split.
  - destruct (proj1 delete_attempts_per_flow sampleConfig 5%nat user calm _ found Hcalm)
      as (r & w2 & calls & E & _ & _ & _ & Hcalls & Hone & Hlines).
    exists r, w2, calls.
    assert (Ew : w2 = snd (deleteAllUserIdentities sampleConfig 5 user calm))
      by (rewrite E; reflexivity).
    split; [ exact E | ]. split; [ exact Hcalls | ]. split; [ | exact Hlines ].
    rewrite Hone; [ reflexivity | | ]; rewrite Ew; vm_compute; reflexivity.
  - destruct (proj1 delete_attempts_per_flow sampleConfig 5%nat user throttled _ found
                Hthrottled)
      as (r & w2 & calls & E & _ & _ & _ & Hcalls & _ & Hlines).
    exists r, w2, calls.
    assert (Ew : w2 = snd (deleteAllUserIdentities sampleConfig 5 user throttled))
      by (rewrite E; reflexivity).
    split; [ exact E | ]. split; [ exact Hcalls | ]. split; [ | exact Hlines ].
    rewrite Ew. vm_compute. reflexivity.
Defined.

(** C1, as stated, fails in the user flow: a listing that holds the user a
    twice makes the script call [deleteUser] for a twice, and two
    [DELETE /user?id=a] requests go out. *)
Lemma repeated_user_is_deleted_twice :
  let w := snd (AllUsers.main sampleConfig 5
                  (boot [tokenReply "T" 3600; usersReply ["a"; "b"; "a"] None;
                         statusReply 204; statusReply 204; statusReply 404])) in
  userAttempts w = ["a"; "b"; "a"] /\ ~ NoDup (userAttempts w)
  /\ deletions w = [UserById "a"; UserById "b"; UserById "a"].
Proof.
  intros w.
  assert (E : userAttempts w = ["a"; "b"; "a"]) by (vm_compute; reflexivity).
  split; [ exact E | ]. split; [ | vm_compute; reflexivity ].
  rewrite E. intros H. inversion H as [| x l Hnot _]. apply Hnot. simpl. auto.
Qed.

(** C7.  Once the identities of a user are fetched, the batch is one
    logical [DELETE] call for each of the N distinct non-empty ids among
    them, and it returns with [processed = N], [failed] the number F of
    these calls that did not end with a [DELETE] answered 2xx, and
    [deleted = N - F]: a call that fails does not keep the later ones from
    being made.  [deleted] is also the number of [DELETE] requests the
    server answered with a 2xx during the batch, and [failed] the number
    of failure lines the batch logged.  In the loop itself [processed] is
    the 1-based index of the last id attempted. *)
Theorem bulk_identity_accounting cfg steps user w w1 found :
  collectAllUserIdentities cfg steps user (note (Logged (ProcessingUser user)) w)
  = (Return found, w1) ->
  exists r w2 ids calls,
    deleteAllUserIdentities cfg steps user w = (Return r, w2)
    /\ NoDup ids
    /\ (forall id, In id ids <-> In (Some id) (map identity_id found) /\ id <> "")
    /\ deletesEachOnce usableToken_org (map IdentityById ids) calls w1 w2
    /\ (let N := length ids in
        let F := length (failedCalls calls) in
        processed r = N /\ failed r = F /\ deleted r = (N - F)%nat
        /\ (processed r = deleted r + failed r)%nat)
    /\ tallyTrips grantedDeletion w2 = (tallyTrips grantedDeletion w1 + deleted r)%nat
    /\ tally isIdentityFailure w2 = (tally isIdentityFailure w1 + failed r)%nat
    /\ (forall total index ids counts w0,
          ids <> [] ->
          exists c w',
            deleteIdentities cfg user total index ids counts w0 = (Return c, w')
            /\ processed c = (index + length ids)%nat).
Proof.
  intros Hfound.
  destruct (deleteAllUserIdentities_run cfg _ _ _ _ _ Hfound)
    as (r & w2 & E & Hproc & Hsum & Hfail & _ & _).
  destruct (deleteAllUserIdentities_on_the_wire cfg _ _ _ _ _ _ _ Hfound E)
    as (calls & Hcalls & Hdel & Hfailed).
  exists r, w2, (uniqueIdentityIds found), calls. split; [ exact E | ].
  split; [ apply NoDup_Set_of | ].
  split; [ intros id; apply In_uniqueIdentityIds | ].
  split; [ exact Hcalls | ].
  split; [ | split; [ | split ] ].
  - simpl. repeat split; lia.
  - rewrite (deletesEachOnce_granted _ _ _ _ _ Hcalls). lia.
  - lia.
  - intros total index ids counts w0 Hne.
    destruct (deleteIdentities_run cfg user total ids index counts w0)
      as (c & w' & Ec & _ & _ & Hp & _).
    exists c, w'. split; [ exact Ec | ].
    destruct ids; [ contradiction | exact Hp ].
Qed.

Lemma bulk_identity_accounting_witness :
  let user := plainUser "u1" in
  let w := boot [tokenReply "T" 3600;
                 identitiesReply [Some "a"; Some "b"; Some "c"] false;
                 statusReply 204; statusReply 403; statusReply 204] in
  let w1 := snd (collectAllUserIdentities sampleConfig 5 user
                   (note (Logged (ProcessingUser user)) w)) in
  exists r w2 ids calls,
    deleteAllUserIdentities sampleConfig 5 user w = (Return r, w2)
    /\ length ids = 3%nat
    /\ deletesEachOnce usableToken_org (map IdentityById ids) calls w1 w2
    /\ length (failedCalls calls) = 1%nat
    /\ r = mkBulk 2 1 3
    /\ tallyTrips grantedDeletion w2 = 2%nat
    /\ tally isIdentityFailure w2 = 1%nat.
Proof.
  intros user w w1.
  destruct (bulk_identity_accounting sampleConfig 5%nat user w w1
              (map plainIdentity [Some "a"; Some "b"; Some "c"]))
    as (r & w2 & ids & calls & E & _ & _ & Hcalls & (Hp & Hf & Hd & _)
        & Hgranted & Hlines & _).
  { vm_compute. reflexivity. }
  exists r, w2, ids, calls.
  assert (Er : r = mkBulk 2 1 3).
  { assert (Er : r = match fst (deleteAllUserIdentities sampleConfig 5 user w) with
                     | Return x => x
                     | _ => mkBulk 0 0 0
                     end) by (rewrite E; reflexivity).
    rewrite Er. vm_compute. reflexivity. }
  split; [ exact E | ]. split; [ rewrite <- Hp, Er; reflexivity | ].
  split; [ exact Hcalls | ].
  split; [ rewrite <- Hf, Er; reflexivity | ]. split; [ exact Er | ].
  split.
  - rewrite Hgranted, Er. reflexivity.
  - rewrite Hlines, Er. reflexivity.
Defined.

(** C10.  The identity flow never sends [DELETE /identities/] with an
    empty id, whatever the server answers; and once the identities of a
    user are fetched, every delete request of the batch is for one of the
    unique non-empty ids, which alone are counted: identities without an
    id, or with an empty one, add nothing to [processed], [deleted] or
    [failed]. *)
Theorem empty_identity_ids_are_skipped cfg steps user w :
  tally emptyIdentityDelete (snd (deleteAllUserIdentities cfg steps user w))
  = tally emptyIdentityDelete w
  /\ forall w1 found,
      collectAllUserIdentities cfg steps user (note (Logged (ProcessingUser user)) w)
      = (Return found, w1) ->
      exists r w2,
        deleteAllUserIdentities cfg steps user w = (Return r, w2)
        /\ tally (strayIdentityDelete (uniqueIdentityIds found)) w2
           = tally (strayIdentityDelete (uniqueIdentityIds found)) w
        /\ Forall (fun id => id <> "") (uniqueIdentityIds found)
        /\ processed r = length (uniqueIdentityIds found)
        /\ (deleted r + failed r = processed r)%nat
        /\ (processed r <= length (filter truthy (map identity_id found)))%nat.
Proof.
  split.
  - apply tally_view, preserves_at, quiet_deleteAllUserIdentities; try sift.
    intros id tok Hne. simpl. now apply String.eqb_neq.
  - intros w1 found Hfound.
    destruct (deleteAllUserIdentities_run cfg _ _ _ _ _ Hfound)
      as (r & w2 & E & Hproc & Hsum & _ & _ & Hview).
    exists r, w2. split; [ exact E | ]. repeat split; auto.
    + apply tally_view.
      rewrite Hview; [ | sift | sift | ].
      * change w1 with (snd (Return found, w1)). rewrite <- Hfound.
        rewrite (quiet_collectAllUserIdentities cfg); [ reflexivity | sift | sift ].
      * intros id tok Hin. simpl. apply negb_false_iff. now apply existsb_eqb_In.
    + apply Forall_forall. intros id Hin. now apply In_uniqueIdentityIds in Hin.
    + rewrite Hproc. unfold uniqueIdentityIds.
      rewrite Set_of_first_seen, <- length_filter_Boolean.
      apply length_first_seen.
Qed.

Lemma empty_identity_ids_are_skipped_witness :
  let user := plainUser "u1" in
  let w := boot [tokenReply "T" 3600;
                 identitiesReply [None; Some ""; Some "a"] false;
                 statusReply 204] in
  let found := map plainIdentity [None; Some ""; Some "a"] in
  exists r w2,
    deleteAllUserIdentities sampleConfig 5 user w = (Return r, w2)
    /\ tally (strayIdentityDelete (uniqueIdentityIds found)) w2
       = tally (strayIdentityDelete (uniqueIdentityIds found)) w
    /\ Forall (fun id => id <> "") (uniqueIdentityIds found)
    /\ processed r = length (uniqueIdentityIds found)
    /\ (deleted r + failed r = processed r)%nat
    /\ (processed r <= length (filter truthy (map identity_id found)))%nat.
Proof.
  intros user w found.
  apply (proj2 (empty_identity_ids_are_skipped sampleConfig 5%nat user w)
           (snd (collectAllUserIdentities sampleConfig 5 user
                   (note (Logged (ProcessingUser user)) w))) found).
  vm_compute. reflexivity.
Defined.

End DeletePhase.

Section ExitCode.

(** The body of [main] in [deleteAllUsers.ts] writes no error to the
    console and leaves the exit code alone. *)
Lemma quiet_AllUsers_main_body (cfg : Config) (steps : nat) :
  quiet isConsoleError
    (log Starting ;;
     log Settings ;;
     found <- AllUsers.collectAllUsers cfg steps ;;
     if (length found =? 0)%nat then log NothingToDelete
     else
       AllUsers.deleteAllUsers cfg found ;;
       log Done)%eff.
Proof.
  dismantle; try (now apply quiet_log).
  - apply quiet_collectAllUsers; sift.
  - apply quiet_deleteAllUsers; solve [ sift | reflexivity ].
Qed.

(** C2, as the code has it.  A run of either script that comes to its end
    leaves exit code 0 or 1.  In the identity flow it is 1 exactly when an
    identity delete failed, that is when the server answered fewer
    [DELETE] requests with a 2xx than the batches made delete calls, or
    when an error reached the handler of [main].  When no error reached
    the handler, the [DELETE] requests of the run and their answers are
    those of one logical call for each delete the batches announced; the
    calls that did not end with a [DELETE] answered 2xx are as many as the
    failure lines, and the exit code is 1 exactly when there is such a
    call.  In the user flow the exit code is 1 exactly when an error
    reached the handler of [main]: failed user deletes are counted and
    logged, and the exit code stays as it was. *)
Theorem exit_code_per_flow :
  (forall cfg steps w w',
      exitCode w = 0 ->
      OrgIdentities.main cfg steps w = (Return tt, w') ->
      (exitCode w' = 0 \/ exitCode w' = 1)
      /\ (exitCode w' = 1 <->
          (tallyTrips grantedDeletion w' + length (identityAttempts w)
           < tallyTrips grantedDeletion w + length (identityAttempts w'))%nat
          \/ (tally isConsoleError w < tally isConsoleError w')%nat)
      /\ (tally isConsoleError w' = tally isConsoleError w ->
          exists targets calls,
            deleteCalls usableToken_org targets calls w w'
            /\ length (identityAttempts w')
               = (length (identityAttempts w) + length calls)%nat
            /\ tallyTrips grantedDeletion w'
               = (tallyTrips grantedDeletion w + length (filter endsGranted calls))%nat
            /\ tally isIdentityFailure w'
               = (tally isIdentityFailure w + length (failedCalls calls))%nat
            /\ (exitCode w' = 1 <-> failedCalls calls <> [])))
  /\ (forall cfg steps w w',
         exitCode w = 0 ->
         AllUsers.main cfg steps w = (Return tt, w') ->
         (exitCode w' = 0 \/ exitCode w' = 1)
         /\ (exitCode w' = 1 <->
             (tally isConsoleError w < tally isConsoleError w')%nat)).
Proof.
  split.
  - intros cfg steps w w' Hzero. unfold OrgIdentities.main, try_catch.
    rewrite (bind_returns (log Starting) _ w _ tt eq_refl).
    rewrite (bind_returns (log Settings) _ _ _ tt eq_refl).
    set (w0 := note (Logged Settings) (note (Logged Starting) w)).
    pose proof (quiet_collectOrganizationUsers cfg isConsoleError
                  ltac:(sift) ltac:(sift) steps w0) as Hc1.
    pose proof (quiet_collectOrganizationUsers cfg isIdentityFailure
                  ltac:(sift) ltac:(sift) steps w0) as Hf1.
    pose proof (quiet_collectOrganizationUsers cfg isIdentityAttempt
                  ltac:(sift) ltac:(sift) steps w0) as Ha1.
    pose proof (trips_collectOrganizationUsers cfg grantedDeletion steps
                  grantedDeletion_not_token grantedDeletion_not_get w0) as Hg1.
    assert (Hd1 : trips isDeletionTrip
                    (snd (OrgIdentities.collectOrganizationUsers cfg steps w0))
                  = trips isDeletionTrip w).
    { transitivity (trips isDeletionTrip w0); [ | reflexivity ].
      apply trips_collectOrganizationUsers; [ reflexivity | ].
      intros req answer Hget. unfold isDeletionTrip. simpl. now rewrite Hget. }
    destruct (OrgIdentities.collectOrganizationUsers cfg steps w0)
      as [[orgUsers | err |] wa] eqn:Ecollect; simpl in Hc1, Hf1, Ha1, Hg1, Hd1.
    + rewrite (bind_returns _ _ _ _ _ Ecollect).
      apply tally_view in Hf1. pose proof (exitCode_view _ _ _ Hc1) as Hx1.
      apply tally_view in Hc1. apply identityAttempts_view in Ha1.
      apply (f_equal (@length _)) in Ha1.
      apply tallyTrips_trips in Hg1.
      change (tally isIdentityFailure w0) with (tally isIdentityFailure w) in Hf1.
      change (tally isConsoleError w0) with (tally isConsoleError w) in Hc1.
      change (identityAttempts w0) with (identityAttempts w) in Ha1.
      change (tallyTrips grantedDeletion w0) with (tallyTrips grantedDeletion w) in Hg1.
      change (exitCode w0) with (exitCode w) in Hx1.
      destruct (length orgUsers =? 0)%nat.
      * intros E. injection E as <-.
        change (tallyTrips grantedDeletion (note (Logged NothingToDelete) wa))
          with (tallyTrips grantedDeletion wa).
        change (identityAttempts (note (Logged NothingToDelete) wa))
          with (identityAttempts wa).
        simpl.
        split; [ left; congruence | ].
        split; [ unfold tally in *; simpl;
                 split; [ intros; exfalso; lia | intros; exfalso; lia ] | ].
        intros _. exists [], [].
        split; [ now apply deleteCalls_nil | ].
        unfold tally in *. simpl.
        split; [ lia | split; [ lia | split; [ lia | ] ] ].
        split; [ intros; exfalso; lia | intros H; now contradiction H ].
      * pose proof (quiet_forEachUser cfg isConsoleError steps
                      ltac:(sift) ltac:(sift) ltac:(sift)
                      ltac:(reflexivity) orgUsers (OrgIdentities.mkTotals 0 0 0 0) wa) as Hc2.
        pose proof (forEachUser_failed cfg steps orgUsers
                      (OrgIdentities.mkTotals 0 0 0 0) wa) as Hf2.
        pose proof (forEachUser_tally cfg steps orgUsers
                      (OrgIdentities.mkTotals 0 0 0 0) wa) as Ht2.
        pose proof (forEachUser_calls cfg steps orgUsers
                      (OrgIdentities.mkTotals 0 0 0 0) wa) as Hk2.
        destruct (OrgIdentities.forEachUser cfg steps orgUsers
                    (OrgIdentities.mkTotals 0 0 0 0) wa) as [[t | err |] wb] eqn:Eeach;
          simpl in Hc2.
        -- specialize (Hf2 t wb eq_refl). simpl in Hf2.
           specialize (Ht2 t wb eq_refl) as (Hs2 & Ha2 & Hg2). simpl in Hs2, Ha2, Hg2.
           specialize (Hk2 t wb eq_refl)
             as (targets & calls & [Ek2 Hcalls] & Hkp & Hkd & Hkf).
           simpl in Hkp, Hkd, Hkf.
           pose proof (exitCode_view _ _ _ Hc2) as Hx2. apply tally_view in Hc2.
           rewrite (bind_returns _ _ _ _ _ Eeach).
           rewrite (bind_returns (log _) _ wb _ tt eq_refl).
           assert (Hdel : deleteCalls usableToken_org targets calls w wb)
             by (split; [ now rewrite Ek2, Hd1 | exact Hcalls ]).
           destruct (0 <? OrgIdentities.identitiesFailed t)%nat eqn:Efailed;
             intros E; injection E as <-;
             match goal with
             | |- context [tallyTrips grantedDeletion ?x] =>
               change (tallyTrips grantedDeletion x) with (tallyTrips grantedDeletion wb);
               change (identityAttempts x) with (identityAttempts wb)
             end;
             simpl; unfold tally in *; simpl.
           ++ apply Nat.ltb_lt in Efailed. split; [ now right | ].
              split; [ split; [ intros _; left; lia | reflexivity ] | ].
              intros _. exists targets, calls.
              split; [ exact Hdel | ].
              split; [ lia | split; [ lia | split; [ lia | ] ] ].
              split; [ intros _ Hnone; rewrite Hnone in Hkf; simpl in Hkf; lia
                     | reflexivity ].
           ++ apply Nat.ltb_ge in Efailed. split; [ left; congruence | ].
              split; [ split; [ intros; exfalso; lia | intros; exfalso; lia ] | ].
              intros _. exists targets, calls.
              split; [ exact Hdel | ].
              split; [ lia | split; [ lia | split; [ lia | ] ] ].
              split; [ intros; exfalso; lia | ].
              intros Hsome. exfalso. apply Hsome. apply length_zero_iff_nil. lia.
        -- rewrite (bind_throws _ _ _ _ _ Eeach).
           apply tally_view in Hc2.
           intros E. injection E as <-. simpl. unfold tally in *. simpl.
           split; [ now right | ].
           split; [ split; [ intros _; right; lia | reflexivity ] | intros; exfalso; lia ].
        -- rewrite (bind_pends _ _ _ _ Eeach). discriminate.
    + rewrite (bind_throws _ _ _ _ _ Ecollect).
      apply tally_view in Hc1.
      change (tally isConsoleError w0) with (tally isConsoleError w) in Hc1.
      intros E. injection E as <-. simpl. unfold tally in *. simpl.
      split; [ now right | ].
      split; [ split; [ intros _; right; lia | reflexivity ] | intros; exfalso; lia ].
    + rewrite (bind_pends _ _ _ _ Ecollect). discriminate.
  - intros cfg steps w w' Hzero. unfold AllUsers.main, try_catch.
    pose proof (quiet_AllUsers_main_body cfg steps w) as Hq.
    destruct ((log Starting ;;
               log Settings ;;
               found <- AllUsers.collectAllUsers cfg steps ;;
               if (length found =? 0)%nat then log NothingToDelete
               else AllUsers.deleteAllUsers cfg found ;; log Done)%eff w)
      as [[[] | err |] w1]; simpl in Hq.
    + intros E. injection E as <-.
      pose proof (exitCode_view _ _ _ Hq) as Hx. apply tally_view in Hq.
      split; [ left; congruence | ].
      split; [ intros; exfalso; lia | intros; exfalso; lia ].
    + intros E. injection E as <-. apply tally_view in Hq.
      simpl. unfold tally in *. simpl.
      split; [ now right | ]. split; [ intros _; lia | reflexivity ].
    + discriminate.
Qed.

Lemma exit_code_per_flow_witness :
  let refused := boot [tokenReply "T" 3600; orgUsersReply ["u1"; "u2"] None;
                       identitiesReply [Some "a"] false; statusReply 204;
                       identitiesReply [Some "b"] false; statusReply 403] in
  let granted := boot [tokenReply "T" 3600; orgUsersReply ["u1"; "u2"] None;
                       identitiesReply [Some "a"] false; statusReply 204;
                       identitiesReply [Some "b"] false; statusReply 204] in
  let wu := boot [tokenReply "T" 3600; usersReply ["a"; "b"] None;
                  statusReply 204; statusReply 403] in
  let refused' := snd (OrgIdentities.main sampleConfig 5 refused) in
  let granted' := snd (OrgIdentities.main sampleConfig 5 granted) in
  let wu' := snd (AllUsers.main sampleConfig 5 wu) in
  (tallyTrips grantedDeletion refused' = 1%nat
   /\ length (identityAttempts refused') = 2%nat
   /\ exitCode refused' = 1)
  /\ (tallyTrips grantedDeletion granted' = 2%nat
      /\ length (identityAttempts granted') = 2%nat
      /\ exitCode granted' = 0)
  /\ (tally isConsoleError wu' = 0%nat
      /\ tallyTrips grantedDeletion wu' = 1%nat
      /\ exitCode wu' = 0).
Proof.
  intros refused granted wu refused' granted' wu'.
  assert (Gr : tallyTrips grantedDeletion refused' = 1%nat) by (vm_compute; reflexivity).
  assert (Ar : length (identityAttempts refused') = 2%nat) by (vm_compute; reflexivity).
  assert (Gg : tallyTrips grantedDeletion granted' = 2%nat) by (vm_compute; reflexivity).
  assert (Ag : length (identityAttempts granted') = 2%nat) by (vm_compute; reflexivity).
  assert (Cg : tally isConsoleError granted' = 0%nat) by (vm_compute; reflexivity).
  assert (Cu : tally isConsoleError wu' = 0%nat) by (vm_compute; reflexivity).
  assert (Gu : tallyTrips grantedDeletion wu' = 1%nat) by (vm_compute; reflexivity).
  split; [ | split ].
  - destruct (proj1 exit_code_per_flow sampleConfig 5%nat refused refused')
      as (_ & Hiff & _); [ reflexivity | vm_compute; reflexivity | ].
    split; [ exact Gr | split; [ exact Ar | ] ].
    apply Hiff. left. rewrite Gr, Ar. simpl. lia.
  - destruct (proj1 exit_code_per_flow sampleConfig 5%nat granted granted')
      as ([Hzero | Hone] & Hiff & _); [ reflexivity | vm_compute; reflexivity | | ].
    + split; [ exact Gg | split; [ exact Ag | exact Hzero ] ].
    + exfalso. apply Hiff in Hone. rewrite Gg, Ag, Cg in Hone. simpl in Hone. lia.
  - destruct (proj2 exit_code_per_flow sampleConfig 5%nat wu wu')
      as ([Hzero | Hone] & Hiff); [ reflexivity | vm_compute; reflexivity | | ].
    + split; [ exact Cu | split; [ exact Gu | exact Hzero ] ].
    + exfalso. apply Hiff in Hone. rewrite Cu in Hone. simpl in Hone. lia.
Defined.

(** C2, as stated, fails in the user flow: one of two user deletes is
    refused with 403, the failure is counted, and the run ends with exit
    code 0. *)
Lemma failed_user_delete_leaves_exit_code_zero :
  let w := boot [tokenReply "T" 3600; usersReply ["a"; "b"] None;
                 statusReply 204; statusReply 403] in
  let w' := snd (AllUsers.main sampleConfig 5 w) in
  fst (AllUsers.main sampleConfig 5 w) = Return tt
  /\ tally isUserFailure w' = 1%nat
  /\ exitCode w' = 0.
Proof. vm_compute. repeat split. Qed.

End ExitCode.

(** ** The paginators on the page server *)

Section OnPageServer.

Lemma stutters_tail (a : option string) (l : list (option string)) :
  stutters (a :: l) = false -> stutters l = false.
Proof.
  destruct l as [| b l]; [ reflexivity | ].
  simpl. intros H. now apply orb_false_elim in H.
Qed.

Lemma stutters_cons (a b : option string) (l : list (option string)) :
  strict_eq a b = false -> stutters (b :: l) = false -> stutters (a :: b :: l) = false.
Proof. intros Hab Hl. simpl in *. now rewrite Hab, Hl. Qed.

Lemma collectAllUsers_loop_no_stutter (ps : nat -> Error + Json) :
  forall steps all tok page s,
    pages s = ps ->
    stutters (tok :: asked s) = false ->
    stutters (asked (snd (AllUsers.collectAllUsers_loop mute (serve as_is)
                            steps all tok page s))) = false.
Proof.
  induction steps as [| steps IH]; intros all tok page s Hps Hs.
  - simpl. now apply stutters_tail in Hs.
  - simpl. unfold bind at 1. unfold serve at 1.
    destruct (pages s (position s)) as [err | data]; [ exact Hs | ].
    unfold as_is. unfold mute at 1. unfold bind at 1. unfold ret at 1.
    destruct (negb (truthy (next_token data)) || strict_eq (next_token data) tok
              || (length (nullish (users data) []) =? 0)%nat) eqn:Estop.
    + destruct (negb (truthy (next_token data))); [ exact Hs | ].
      destruct (strict_eq (next_token data) tok); exact Hs.
    + apply orb_false_elim in Estop as [Estop _].
      apply orb_false_elim in Estop as [_ Estall].
      apply IH; [ assumption | ].
      now apply stutters_cons.
Qed.

Lemma collectOrganizationUsers_loop_no_stutter (ps : nat -> Error + Json) :
  forall steps all tok page s,
    pages s = ps ->
    stutters (tok :: asked s) = false ->
    stutters (asked (snd (OrgIdentities.collectOrganizationUsers_loop mute
                            (serve as_organization_users) steps all tok page s))) = false.
Proof.
  induction steps as [| steps IH]; intros all tok page s Hps Hs.
  - simpl. now apply stutters_tail in Hs.
  - simpl. unfold bind at 1. unfold serve at 1.
    destruct (pages s (position s)) as [err | data]; [ exact Hs | ].
    unfold mute at 1. unfold bind at 1. unfold ret at 1.
    destruct (length _ =? 0)%nat; [ exact Hs | ].
    destruct (negb (truthy _)); [ exact Hs | ].
    destruct (strict_eq _ tok) eqn:Estall; [ exact Hs | ].
    apply IH; [ assumption | ].
    now apply stutters_cons.
Qed.

Lemma collectAllUserIdentities_loop_no_stutter (ps : nat -> Error + Json) :
  forall steps user all cursor page s,
    pages s = ps ->
    stutters (cursor :: asked s) = false ->
    stutters (asked (snd (OrgIdentities.collectAllUserIdentities_loop mute
                            serve_identities steps user all cursor page s))) = false.
Proof.
  induction steps as [| steps IH]; intros user all cursor page s Hps Hs.
  - simpl. now apply stutters_tail in Hs.
  - simpl. unfold bind at 1. unfold serve_identities at 1. unfold serve at 1.
    destruct (pages s (position s)) as [err | data]; [ exact Hs | ].
    unfold as_is. unfold mute at 1. unfold bind at 1. unfold ret at 1.
    destruct (length _ =? 0)%nat; [ exact Hs | ].
    destruct (negb (nullish _ false)); [ exact Hs | ].
    destruct (negb (truthy _)); [ exact Hs | ].
    destruct (strict_eq _ cursor) eqn:Estall; [ exact Hs | ].
    apply IH; [ assumption | ].
    now apply stutters_cons.
Qed.

(** A server that alternates between two tokens keeps the user paginator
    asking for ever. *)
Lemma alternating_tokens_never_stop :
  forall steps, fst (AllUsers.collectAllUsers_with mute (serve as_is)
                       steps (opened alternating)) = Pending.
Proof.
  intros steps. unfold AllUsers.collectAllUsers_with, bind.
  assert (H : forall steps all tok page s,
             pages s = alternating ->
             tok <> Some (if Nat.even (position s) then "A" else "B") ->
             fst (AllUsers.collectAllUsers_loop mute (serve as_is) steps all tok page s)
             = Pending).
  { clear steps. induction steps as [| steps IH]; intros all tok page s Hps Htok.
    - reflexivity.
    - simpl. unfold bind at 1. unfold serve at 1. rewrite Hps. unfold alternating at 1.
      unfold listing, as_is. unfold mute at 1. unfold bind at 1. unfold ret at 1.
      cbv beta iota zeta. cbn [next_token users nullish map length Nat.eqb].
      assert (Ht : truthy (Some (if Nat.even (position s) then "A" else "B")) = true)
        by (destruct (Nat.even (position s)); reflexivity).
      rewrite Ht.
      assert (Hne : strict_eq (Some (if Nat.even (position s) then "A" else "B")) tok
                    = false).
      { destruct tok as [t |]; [ | reflexivity ]. simpl.
        apply String.eqb_neq. congruence. }
      rewrite Hne. cbn [negb orb].
      apply IH; [ reflexivity | ].
      cbn [position]. rewrite Nat.even_succ, <- Nat.negb_even.
      destruct (Nat.even (position s)); simpl; congruence. }
  specialize (H steps [] None 0%nat (opened alternating) eq_refl ltac:(discriminate)).
  destruct (AllUsers.collectAllUsers_loop _ _ _ _ _ _ _) as [[all | err |] s];
    simpl in *; solve [ discriminate | reflexivity ].
Qed.

(** The two opaque-token paginators take the same decisions. *)
Lemma loops_agree (ps : nat -> Error + Json) :
  forall steps all tok page s,
    AllUsers.collectAllUsers_loop mute (serve as_is) steps all tok page s
    = OrgIdentities.collectOrganizationUsers_loop mute (serve as_organization_users)
        steps all tok page s.
Proof.
  induction steps as [| steps IH]; intros all tok page s; [ reflexivity | ].
  simpl. cbv [bind serve mute ret as_is].
  destruct (pages s (position s)) as [err | data]; [ reflexivity | ].
  cbn [organization_users next_token as_organization_users].
  unfold OrganizationUser.
  destruct (length (nullish (users data) []) =? 0)%nat;
    destruct (truthy (next_token data));
    destruct (strict_eq (next_token data) tok);
    cbn [negb orb]; try reflexivity.
  apply IH.
Qed.

(** C9.  Driven by the same sequence of pages, the user paginator with its
    one composite stop condition and the organization paginator with its
    three separate checks end alike: the same items (or the same error),
    after the same number of pages, having asked with the same tokens; and
    where one is still running, so is the other. *)
Theorem paginators_agree (ps : nat -> Error + Json) (steps : nat) :
  AllUsers.collectAllUsers_with mute (serve as_is) steps (opened ps)
  = OrgIdentities.collectOrganizationUsers_with mute (serve as_organization_users)
      steps (opened ps).
Proof.
  unfold AllUsers.collectAllUsers_with, OrgIdentities.collectOrganizationUsers_with.
  unfold bind. now rewrite loops_agree.
Qed.

End OnPageServer.

Section PageEnds.

(** C8.  In each of the three loops, a fetched page without items ends the
    loop at once: it returns what was accumulated and sends no further
    request, whatever next-token or [has_more] flag the page carries and
    whatever token or cursor the loop was at. *)
Theorem empty_page_ends_pagination :
  (forall cfg steps all tok page w data w1,
      AllUsers.getUsersPage cfg tok w = (Return data, w1) ->
      nullish (users data) [] = [] ->
      exists w2,
        AllUsers.collectAllUsers_loop log (AllUsers.getUsersPage cfg)
          (S steps) all tok page w = (Return all, w2)
        /\ served w2 = served w1)
  /\ (forall cfg steps all tok page w data w1,
         OrgIdentities.getOrganizationUsersPage cfg tok w = (Return data, w1) ->
         nullish (organization_users data) [] = [] ->
         exists w2,
           OrgIdentities.collectOrganizationUsers_loop log
             (OrgIdentities.getOrganizationUsersPage cfg)
             (S steps) all tok page w = (Return all, w2)
           /\ served w2 = served w1)
  /\ (forall cfg steps user all cursor page w data w1,
         OrgIdentities.getUserIdentitiesPage cfg (user_id user) cursor w = (Return data, w1) ->
         nullish (identities data) [] = [] ->
         exists w2,
           OrgIdentities.collectAllUserIdentities_loop log
             (OrgIdentities.getUserIdentitiesPage cfg)
             (S steps) user all cursor page w = (Return all, w2)
           /\ served w2 = served w1).
Proof.
  split; [ | split ].
  - intros cfg steps all tok page w data w1 Hpage Hempty. simpl.
    rewrite (bind_returns _ _ _ _ _ Hpage). rewrite Hempty, app_nil_r. simpl length.
    rewrite (bind_returns (log _) _ w1 _ tt eq_refl).
    cbn [Nat.eqb]. rewrite orb_true_r.
    destruct (negb (truthy (next_token data)));
      [ | destruct (strict_eq (next_token data) tok) ];
      eexists; (split; [ reflexivity | reflexivity ]).
  - intros cfg steps all tok page w data w1 Hpage Hempty. simpl.
    rewrite (bind_returns _ _ _ _ _ Hpage). rewrite Hempty, app_nil_r. simpl length.
    rewrite (bind_returns (log _) _ w1 _ tt eq_refl).
    cbn [Nat.eqb]. eexists. split; reflexivity.
  - intros cfg steps user all cursor page w data w1 Hpage Hempty. simpl.
    rewrite (bind_returns _ _ _ _ _ Hpage). rewrite Hempty. simpl length.
    rewrite (bind_returns (log _) _ w1 _ tt eq_refl).
    cbn [Nat.eqb]. eexists. split; reflexivity.
Qed.

Lemma empty_page_ends_pagination_witness :
  let wu := boot [tokenReply "T" 3600; usersReply [] (Some "N")] in
  let wo := boot [tokenReply "T" 3600; orgUsersReply [] (Some "N")] in
  let wi := boot [tokenReply "T" 3600; identitiesReply [] true] in
  let kept := [plainUser "k"] in
  (exists w2,
      AllUsers.collectAllUsers_loop log (AllUsers.getUsersPage sampleConfig)
        3 kept (Some "M") 1 wu = (Return kept, w2)
      /\ served w2 = served (snd (AllUsers.getUsersPage sampleConfig (Some "M") wu)))
  /\ (exists w2,
         OrgIdentities.collectOrganizationUsers_loop log
           (OrgIdentities.getOrganizationUsersPage sampleConfig)
           3 kept (Some "M") 1 wo = (Return kept, w2)
         /\ served w2
            = served (snd (OrgIdentities.getOrganizationUsersPage sampleConfig (Some "M") wo)))
  /\ (exists w2,
         OrgIdentities.collectAllUserIdentities_loop log
           (OrgIdentities.getUserIdentitiesPage sampleConfig)
           3 (plainUser "u1") [plainIdentity (Some "i")] (Some "c") 1 wi
         = (Return [plainIdentity (Some "i")], w2)
         /\ served w2
            = served (snd (OrgIdentities.getUserIdentitiesPage sampleConfig "u1" (Some "c") wi))).
Proof.
  intros wu wo wi kept.
  destruct empty_page_ends_pagination as (Husers & Horg & Hids).
  split; [ | split ].
  - apply (Husers sampleConfig 2%nat kept (Some "M") 1%nat wu
             (mkJson None None (Some []) None None (Some "N") None)).
    + vm_compute. reflexivity.
    + reflexivity.
  - apply (Horg sampleConfig 2%nat kept (Some "M") 1%nat wo
             (mkJson None None None (Some []) None (Some "N") None)).
    + vm_compute. reflexivity.
    + reflexivity.
  - apply (Hids sampleConfig 2%nat (plainUser "u1") [plainIdentity (Some "i")]
             (Some "c") 1%nat wi
             (mkJson None None None None (Some []) None (Some true))).
    + vm_compute. reflexivity.
    + reflexivity.
Defined.

(** C3, as the code has it.  Whatever pages the server returns, none of
    the three loops asks for a page with the token (or cursor) of the
    request just before it; and a page whose next-token (or last id) is
    the token (or cursor) it was fetched with ends the loop at once, with
    the items of that page kept and no further request.  A token met two
    or more requests earlier is not recognised. *)
Theorem no_token_is_asked_twice_in_a_row :
  (forall (ps : nat -> Error + Json) (steps : nat) (user : OrganizationUser),
      stutters (asked (snd (AllUsers.collectAllUsers_with mute (serve as_is)
                              steps (opened ps)))) = false
      /\ stutters (asked (snd (OrgIdentities.collectOrganizationUsers_with mute
                                 (serve as_organization_users) steps (opened ps)))) = false
      /\ stutters (asked (snd (OrgIdentities.collectAllUserIdentities_with mute
                                 serve_identities steps user (opened ps)))) = false)
  /\ (forall cfg steps all tok page w data w1,
         AllUsers.getUsersPage cfg tok w = (Return data, w1) ->
         strict_eq (next_token data) tok = true ->
         exists w2,
           AllUsers.collectAllUsers_loop log (AllUsers.getUsersPage cfg)
             (S steps) all tok page w = (Return (all ++ nullish (users data) []), w2)
           /\ served w2 = served w1)
  /\ (forall cfg steps all tok page w data w1,
         OrgIdentities.getOrganizationUsersPage cfg tok w = (Return data, w1) ->
         strict_eq (next_token data) tok = true ->
         exists w2,
           OrgIdentities.collectOrganizationUsers_loop log
             (OrgIdentities.getOrganizationUsersPage cfg)
             (S steps) all tok page w
           = (Return (all ++ nullish (organization_users data) []), w2)
           /\ served w2 = served w1)
  /\ (forall cfg steps user all cursor page w data w1,
         OrgIdentities.getUserIdentitiesPage cfg (user_id user) cursor w = (Return data, w1) ->
         strict_eq (OrgIdentities.lastId (nullish (identities data) [])) cursor = true ->
         exists w2,
           OrgIdentities.collectAllUserIdentities_loop log
             (OrgIdentities.getUserIdentitiesPage cfg)
             (S steps) user all cursor page w
           = (Return (all ++ nullish (identities data) []), w2)
           /\ served w2 = served w1).
Proof.
  split; [ | split; [ | split ] ].
  - intros ps steps user. split; [ | split ].
    + unfold AllUsers.collectAllUsers_with, bind.
      pose proof (collectAllUsers_loop_no_stutter ps steps [] None 0%nat (opened ps)
                    eq_refl eq_refl) as H.
      destruct (AllUsers.collectAllUsers_loop _ _ _ _ _ _ _) as [[all | err |] s]; exact H.
    + unfold OrgIdentities.collectOrganizationUsers_with, bind.
      pose proof (collectOrganizationUsers_loop_no_stutter ps steps [] None 0%nat (opened ps)
                    eq_refl eq_refl) as H.
      destruct (OrgIdentities.collectOrganizationUsers_loop _ _ _ _ _ _ _)
        as [[all | err |] s]; exact H.
    + unfold OrgIdentities.collectAllUserIdentities_with, bind. unfold mute at 1.
      unfold ret at 1.
      pose proof (collectAllUserIdentities_loop_no_stutter ps steps user [] None 0%nat
                    (opened ps) eq_refl eq_refl) as H.
      destruct (OrgIdentities.collectAllUserIdentities_loop _ _ _ _ _ _ _ _)
        as [[all | err |] s]; exact H.
  - intros cfg steps all tok page w data w1 Hpage Hstall. simpl.
    rewrite (bind_returns _ _ _ _ _ Hpage).
    rewrite (bind_returns (log _) _ w1 _ tt eq_refl).
    rewrite Hstall, orb_true_r. cbn [orb].
    destruct (negb (truthy (next_token data)));
      eexists; (split; [ reflexivity | reflexivity ]).
  - intros cfg steps all tok page w data w1 Hpage Hstall. simpl.
    rewrite (bind_returns _ _ _ _ _ Hpage).
    rewrite (bind_returns (log _) _ w1 _ tt eq_refl).
    rewrite Hstall.
    destruct (length _ =? 0)%nat; [ | destruct (negb (truthy (next_token data))) ];
      eexists; (split; [ reflexivity | reflexivity ]).
  - intros cfg steps user all cursor page w data w1 Hpage Hstall. simpl.
    rewrite (bind_returns _ _ _ _ _ Hpage).
    rewrite (bind_returns (log _) _ w1 _ tt eq_refl).
    rewrite Hstall.
    destruct (length (nullish (identities data) []) =? 0)%nat eqn:Elen.
    + apply Nat.eqb_eq, length_zero_iff_nil in Elen. rewrite Elen, app_nil_r.
      eexists; (split; [ reflexivity | reflexivity ]).
    + destruct (negb (nullish (has_more data) false));
        [ | destruct (negb (truthy _)) ];
        eexists; (split; [ reflexivity | reflexivity ]).
Qed.

Lemma no_token_is_asked_twice_in_a_row_witness :
  let wu := boot [tokenReply "T" 3600; usersReply ["x"] (Some "M")] in
  let wo := boot [tokenReply "T" 3600; orgUsersReply ["x"] (Some "M")] in
  let wi := boot [tokenReply "T" 3600; identitiesReply [Some "c"] true] in
  (exists w2,
      AllUsers.collectAllUsers_loop log (AllUsers.getUsersPage sampleConfig)
        3 [] (Some "M") 1 wu = (Return [plainUser "x"], w2)
      /\ served w2 = served (snd (AllUsers.getUsersPage sampleConfig (Some "M") wu)))
  /\ (exists w2,
         OrgIdentities.collectOrganizationUsers_loop log
           (OrgIdentities.getOrganizationUsersPage sampleConfig)
           3 [] (Some "M") 1 wo = (Return [plainUser "x"], w2)
         /\ served w2
            = served (snd (OrgIdentities.getOrganizationUsersPage sampleConfig (Some "M") wo)))
  /\ (exists w2,
         OrgIdentities.collectAllUserIdentities_loop log
           (OrgIdentities.getUserIdentitiesPage sampleConfig)
           3 (plainUser "u1") [] (Some "c") 1 wi
         = (Return [plainIdentity (Some "c")], w2)
         /\ served w2
            = served (snd (OrgIdentities.getUserIdentitiesPage sampleConfig "u1" (Some "c") wi))).
Proof.
  intros wu wo wi.
  destruct no_token_is_asked_twice_in_a_row as (_ & Husers & Horg & Hids).
  split; [ | split ].
  - apply (Husers sampleConfig 2%nat [] (Some "M") 1%nat wu
             (mkJson None None (Some [plainUser "x"]) None None (Some "M") None)).
    + vm_compute. reflexivity.
    + reflexivity.
  - apply (Horg sampleConfig 2%nat [] (Some "M") 1%nat wo
             (mkJson None None None (Some [plainUser "x"]) None (Some "M") None)).
    + vm_compute. reflexivity.
    + reflexivity.
  - apply (Hids sampleConfig 2%nat (plainUser "u1") [] (Some "c") 1%nat wi
             (mkJson None None None None (Some [plainIdentity (Some "c")]) None (Some true))).
    + vm_compute. reflexivity.
    + reflexivity.
Defined.

(** C3, as stated, fails: the loops compare a new token with the one just
    used and with no earlier one.  A server that returns A, then B, then A
    again is asked for A twice; one that goes on alternating is still
    being asked after a thousand pages. *)
Lemma token_seen_two_pages_earlier_is_asked_again :
  let w := snd (AllUsers.collectAllUsers sampleConfig 5
                  (boot [tokenReply "T" 3600;
                         usersReply ["u1"] (Some "A"); usersReply ["u2"] (Some "B");
                         usersReply ["u3"] (Some "A"); usersReply [] None])) in
  pageTokens w = [None; Some "A"; Some "B"; Some "A"]
  /\ ~ NoDup (pageTokens w)
  /\ fst (AllUsers.collectAllUsers_with mute (serve as_is) 1000 (opened alternating))
     = Pending.
Proof.
  intros w.
  assert (E : pageTokens w = [None; Some "A"; Some "B"; Some "A"])
    by (vm_compute; reflexivity).
  split; [ exact E | ]. split.
  - rewrite E. intros H. inversion H as [| x l _ H']. inversion H' as [| y l' Hnot _].
    apply Hnot. simpl. auto.
  - apply alternating_tokens_never_stop.
Qed.

End PageEnds.

(** ** Counting journal entries *)

Section Counting.

Variable keep : Event -> bool.

Lemma adds_quiet {A : Type} (m : Eff A) (n : nat) :
  quiet keep m -> adds_at_most keep n m.
Proof. intros H w. rewrite (tally_view keep _ _ (H w)). lia. Qed.

Lemma adds_bind {A B : Type} (a b n : nat) (m : Eff A) (k : A -> Eff B) :
  adds_at_most keep a m -> (forall x, adds_at_most keep b (k x)) ->
  (a + b <= n)%nat ->
  adds_at_most keep n (bind m k).
Proof.
  intros Hm Hk Hn w. unfold bind. specialize (Hm w).
  destruct (m w) as [[x | e |] w1]; simpl in *; try lia.
  specialize (Hk x w1). lia.
Qed.

Lemma adds_log (l : LogMsg) : adds_at_most keep 1 (log l).
Proof. intros w. unfold tally. simpl. destruct (keep (Logged l)); simpl; lia. Qed.

End Counting.

Lemma quiet_isRefresh_Org_getAccessToken (force : bool) :
  quiet isRefresh (OrgIdentities.getAccessToken force).
Proof.
  unfold OrgIdentities.getAccessToken. dismantle; primitives; reflexivity.
Qed.

Lemma quiet_isRefresh_All_getAccessToken (force : bool) :
  quiet isRefresh (AllUsers.getAccessToken force).
Proof.
  unfold AllUsers.getAccessToken. dismantle; primitives; reflexivity.
Qed.

(** One logical call through the wrapper of [deleteOrgUsersIdentities.ts]
    refreshes the token for a 401 at most once, and not at all once it has
    done so. *)
Lemma Org_requestWithRetry_refreshes (cfg : Config) (m : Method) (url : Endpoint) :
  forall steps attempt (refreshed : bool),
    adds_at_most isRefresh (if refreshed then 0 else 1)%nat
      (OrgIdentities.requestWithRetry_steps cfg steps m url attempt refreshed).
Proof.
  induction steps as [| steps IH]; intros attempt refreshed.
  - intros w. simpl. lia.
  - simpl.
    apply (adds_bind _ 0 (if refreshed then 0 else 1)); [ | | lia ].
    { apply adds_quiet, quiet_isRefresh_Org_getAccessToken. }
    intros tok.
    apply (adds_bind _ 0 (if refreshed then 0 else 1)); [ | | lia ].
    { apply adds_quiet, quiet_fetch. reflexivity. }
    intros response.
    destruct ((status response =? 401) && negb refreshed) eqn:E401.
    + apply andb_prop in E401 as [_ Hr]. destruct refreshed; [ discriminate | ].
      apply (adds_bind _ 1 0); [ apply adds_log | | lia ]. intros _.
      apply (adds_bind _ 0 0); [ | | lia ].
      { apply adds_quiet, quiet_isRefresh_Org_getAccessToken. }
      intros _. apply (IH attempt true).
    + destruct (_ && (attempt <? MAX_RETRIES cfg)%nat).
      * apply (adds_bind _ 0 (if refreshed then 0 else 1)); [ | | lia ].
        { apply adds_quiet, quiet_parseRetryAfterMs. }
        intros hint.
        apply (adds_bind _ 0 (if refreshed then 0 else 1)); [ | | lia ].
        { apply adds_quiet, quiet_random_below. }
        intros jitter.
        apply (adds_bind _ 0 (if refreshed then 0 else 1)); [ | | lia ].
        { apply adds_quiet, quiet_log. reflexivity. }
        intros _.
        apply (adds_bind _ 0 (if refreshed then 0 else 1)); [ | | lia ].
        { apply adds_quiet, quiet_sleep. reflexivity. }
        intros _. apply IH.
      * apply adds_quiet, preserves_ret.
Qed.

Lemma jitter_range (k : Z) : 0 <= (k mod 2 ^ 53) * 250 / 2 ^ 53 < 250.
Proof.
  assert (H : 0 <= k mod 2 ^ 53 < 2 ^ 53) by (apply Z.mod_pos_bound; lia).
  split.
  - apply Z.div_pos; lia.
  - apply Z.div_lt_upper_bound; lia.
Qed.

Section Wrapper.

(** C4, as the code has it.  In [deleteOrgUsersIdentities.ts] a 401 on a
    call that has not refreshed yet is answered by a forced refresh and a
    retry at the same attempt number, whatever that number is; a 401 on a
    call that has refreshed is returned as it is; and one logical call
    refreshes at most once.  In [deleteAllUsers.ts] the refresh is tied to
    the attempt counter: a 401 at attempt 0 is answered by a forced refresh
    and a retry at attempt 1, and a 401 at any later attempt is returned as
    it is. *)
Theorem unauthorized_is_refreshed_once :
  (forall cfg m url attempt w tok w1 resp w2,
      OrgIdentities.getAccessToken false w = (Return tok, w1) ->
      fetch (mkRequest m url (Some tok)) w1 = (Return resp, w2) ->
      status resp = 401 ->
      OrgIdentities.requestWithRetry cfg m url attempt false w
      = (log Unauthorized401 ;;
         OrgIdentities.getAccessToken true ;;
         OrgIdentities.requestWithRetry cfg m url attempt true)%eff w2
      /\ OrgIdentities.requestWithRetry cfg m url attempt true w = (Return resp, w2))
  /\ (forall cfg m url attempt (refreshed : bool) w,
         (tally isRefresh (snd (OrgIdentities.requestWithRetry cfg m url attempt refreshed w))
          <= tally isRefresh w + (if refreshed then 0 else 1))%nat)
  /\ (forall cfg m url attempt w tok w1 resp w2,
         AllUsers.getAccessToken false w = (Return tok, w1) ->
         fetch (mkRequest m url (Some tok)) w1 = (Return resp, w2) ->
         status resp = 401 ->
         (attempt = 0%nat ->
          AllUsers.requestWithRetry cfg m url attempt w
          = (log Unauthorized401 ;;
             AllUsers.getAccessToken true ;;
             AllUsers.requestWithRetry cfg m url 1)%eff w2)
         /\ ((1 <= attempt)%nat ->
             AllUsers.requestWithRetry cfg m url attempt w = (Return resp, w2))).
Proof.
  split; [ | split ].
  - intros cfg m url attempt w tok w1 resp w2 Htok Hfetch Hst. split.
    + unfold OrgIdentities.requestWithRetry at 1. unfold OrgIdentities.budget at 1.
      cbn [OrgIdentities.requestWithRetry_steps].
      rewrite (bind_returns _ _ _ _ _ Htok), (bind_returns _ _ _ _ _ Hfetch).
      rewrite Hst. cbn [Z.eqb Pos.eqb negb andb].
      apply bind_ext; intros _ w3. apply bind_ext; intros _ w4.
      apply requestWithRetry_steps_enough_org; unfold OrgIdentities.budget; lia.
    + unfold OrgIdentities.requestWithRetry. unfold OrgIdentities.budget.
      cbn [OrgIdentities.requestWithRetry_steps].
      rewrite (bind_returns _ _ _ _ _ Htok), (bind_returns _ _ _ _ _ Hfetch).
      rewrite Hst. reflexivity.
  - intros cfg m url attempt refreshed w.
    apply Org_requestWithRetry_refreshes.
  - intros cfg m url attempt w tok w1 resp w2 Htok Hfetch Hst. split.
    + intros ->. unfold AllUsers.requestWithRetry at 1. unfold AllUsers.budget at 1.
      cbn [AllUsers.requestWithRetry_steps].
      rewrite (bind_returns _ _ _ _ _ Htok), (bind_returns _ _ _ _ _ Hfetch).
      rewrite Hst. cbn [Z.eqb Pos.eqb Nat.ltb Nat.leb andb].
      apply bind_ext; intros _ w3. apply bind_ext; intros _ w4.
      apply requestWithRetry_steps_enough_all; unfold AllUsers.budget; lia.
    + intros Hlate. unfold AllUsers.requestWithRetry. unfold AllUsers.budget.
      cbn [AllUsers.requestWithRetry_steps].
      rewrite (bind_returns _ _ _ _ _ Htok), (bind_returns _ _ _ _ _ Hfetch).
      rewrite Hst.
      replace (attempt <? 1)%nat with false by (symmetry; apply Nat.ltb_ge; lia).
      reflexivity.
Qed.

Lemma unauthorized_is_refreshed_once_witness :
  let w := boot [tokenReply "T" 3600; statusReply 401;
                 tokenReply "T2" 3600; statusReply 200] in
  let denied := mkResponse 401 None None in
  let w1o := snd (OrgIdentities.getAccessToken false w) in
  let w2o := snd (fetch (mkRequest GET (UsersList None) (Some "T")) w1o) in
  let w1u := snd (AllUsers.getAccessToken false w) in
  let w2u := snd (fetch (mkRequest GET (UsersList None) (Some "T")) w1u) in
  (OrgIdentities.requestWithRetry sampleConfig GET (UsersList None) 2 false w
   = (log Unauthorized401 ;;
      OrgIdentities.getAccessToken true ;;
      OrgIdentities.requestWithRetry sampleConfig GET (UsersList None) 2 true)%eff w2o
   /\ OrgIdentities.requestWithRetry sampleConfig GET (UsersList None) 2 true w
      = (Return denied, w2o))
  /\ AllUsers.requestWithRetry sampleConfig GET (UsersList None) 0 w
     = (log Unauthorized401 ;;
        AllUsers.getAccessToken true ;;
        AllUsers.requestWithRetry sampleConfig GET (UsersList None) 1)%eff w2u
  /\ AllUsers.requestWithRetry sampleConfig GET (UsersList None) 2 w
     = (Return denied, w2u).
Proof.
  intros w denied w1o w2o w1u w2u.
  destruct unauthorized_is_refreshed_once as (Horg & _ & Hall).
  split; [ | split ].
  - apply (Horg sampleConfig GET (UsersList None) 2%nat w "T" w1o denied w2o).
    + vm_compute. reflexivity.
    + vm_compute. reflexivity.
    + reflexivity.
  - apply (Hall sampleConfig GET (UsersList None) 0%nat w "T" w1u denied w2u).
    + vm_compute. reflexivity.
    + vm_compute. reflexivity.
    + reflexivity.
    + reflexivity.
  - apply (Hall sampleConfig GET (UsersList None) 2%nat w "T" w1u denied w2u).
    + vm_compute. reflexivity.
    + vm_compute. reflexivity.
    + reflexivity.
    + lia.
Defined.

(** C4, as stated, fails in [deleteAllUsers.ts].  A 401 that comes after
    one backoff retry is returned without any refresh; and with a budget of
    one retry, the retry spent on a 401 leaves none for the 503 that
    follows, which [deleteOrgUsersIdentities.ts] does retry. *)
Lemma unauthorized_after_a_retry_is_not_refreshed :
  let w := boot [tokenReply "T" 3600; statusReply 429; statusReply 401;
                 statusReply 200] in
  let out := AllUsers.requestWithRetry sampleConfig GET (UsersList None) 0 w in
  let w' := boot [tokenReply "T" 3600; statusReply 401; tokenReply "T2" 3600;
                  statusReply 503; statusReply 200] in
  let tight := mkConfig 1 500 in
  (fst out = Return (mkResponse 401 None None)
   /\ tally isRefresh (snd out) = 0%nat
   /\ tally isTokenRequest (snd out) = 1%nat)
  /\ fst (AllUsers.requestWithRetry tight GET (UsersList None) 0 w')
     = Return (mkResponse 503 None None)
  /\ fst (OrgIdentities.requestWithRetry tight GET (UsersList None) 0 false w')
     = Return (mkResponse 200 None None).
Proof. vm_compute. repeat split. Qed.

(** C5, as the code has it.  For a 429 or a 5xx below the retry limit the
    wrapper sleeps and calls itself with the next attempt number.  In
    [deleteOrgUsersIdentities.ts] the delay is the [Retry-After] value when
    the header parses (seconds times 1000, or the time left until the
    date, never below 0), else [BASE_DELAY_MS * 2^attempt] capped at
    15000, plus a jitter in [0, 250): the header replaces the backoff and
    is not capped.  Without a header and with a non-negative base delay
    that is the delay of the specification with hint 0.  In
    [deleteAllUsers.ts] the delay is [Number(header) * 1000] when the
    header is there, else the capped backoff, plus the jitter. *)
Theorem backoff_wait :
  (forall cfg m url attempt refreshed w tok w1 resp w2,
      OrgIdentities.getAccessToken false w = (Return tok, w1) ->
      fetch (mkRequest m url (Some tok)) w1 = (Return resp, w2) ->
      status resp = 429 \/ 500 <= status resp ->
      (attempt < MAX_RETRIES cfg)%nat ->
      exists jitter,
        0 <= jitter < 250
        /\ (let backoffMs := Z.min (BASE_DELAY_MS cfg * 2 ^ Z.of_nat attempt) 15000 in
            let waitMs := nullish (retryAfterHint (retry_after resp) (clock w2)) backoffMs
                          + jitter in
            OrgIdentities.requestWithRetry cfg m url attempt refreshed w
            = OrgIdentities.requestWithRetry cfg m url (S attempt) refreshed
                (tick waitMs
                   (note (Slept (Num waitMs))
                      (note (Logged (Throttled (status resp) (Num waitMs) (S attempt)))
                         (draw w2))))
            /\ (retry_after resp = None -> 0 <= BASE_DELAY_MS cfg ->
                waitMs = claimed_waitMs 0 (BASE_DELAY_MS cfg) attempt jitter)))
  /\ (forall cfg m url attempt w tok w1 resp w2,
         AllUsers.getAccessToken false w = (Return tok, w1) ->
         fetch (mkRequest m url (Some tok)) w1 = (Return resp, w2) ->
         status resp = 429 \/ 500 <= status resp ->
         (attempt < MAX_RETRIES cfg)%nat ->
         exists jitter,
           0 <= jitter < 250
           /\ (let baseDelay :=
                 match retry_after resp with
                 | Some h => jsnum_mul (asNumber h) 1000
                 | None => Num (Z.min (BASE_DELAY_MS cfg * 2 ^ Z.of_nat attempt) 15000)
                 end in
               let waitMs := jsnum_add baseDelay jitter in
               AllUsers.requestWithRetry cfg m url attempt w
               = AllUsers.requestWithRetry cfg m url (S attempt)
                   (snd (sleep waitMs
                      (note (Logged (Throttled (status resp) waitMs (S attempt)))
                         (draw w2)))))).
Proof.
  split.
  - intros cfg m url attempt refreshed w tok w1 resp w2 Htok Hfetch Hst Hlt.
    exists ((entropy w2 (drawn w2) mod 2 ^ 53) * 250 / 2 ^ 53).
    split; [ apply jitter_range | ].
    cbv zeta. split.
    + unfold OrgIdentities.requestWithRetry at 1. unfold OrgIdentities.budget at 1.
      cbn [OrgIdentities.requestWithRetry_steps].
      rewrite (bind_returns _ _ _ _ _ Htok), (bind_returns _ _ _ _ _ Hfetch).
      replace ((status resp =? 401) && negb refreshed) with false
        by (symmetry; apply andb_false_iff; left; apply Z.eqb_neq; lia).
      replace (((status resp =? 429) || (500 <=? status resp))
               && (attempt <? MAX_RETRIES cfg)%nat) with true.
      2:{ symmetry. apply andb_true_iff. split; [ | now apply Nat.ltb_lt ].
          apply orb_true_iff. destruct Hst; [ left; now apply Z.eqb_eq
                                            | right; now apply Z.leb_le ]. }
      rewrite (bind_returns _ _ _ _ _ (parseRetryAfterMs_hint _ w2)).
      rewrite (bind_returns (random_below 250) _ w2 _ _ eq_refl).
      rewrite (bind_returns (log _) _ _ _ tt eq_refl).
      rewrite (bind_returns (sleep _) _ _ _ tt eq_refl).
      apply requestWithRetry_steps_enough_org; unfold OrgIdentities.budget;
        destruct refreshed; lia.
    + intros Hnone Hbase. rewrite Hnone. unfold claimed_waitMs. simpl retryAfterHint.
      cbn [nullish]. rewrite Z.max_r; [ reflexivity | ].
      apply Z.mul_nonneg_nonneg; [ assumption | ]. apply Z.pow_nonneg. lia.
  - intros cfg m url attempt w tok w1 resp w2 Htok Hfetch Hst Hlt.
    exists ((entropy w2 (drawn w2) mod 2 ^ 53) * 250 / 2 ^ 53).
    split; [ apply jitter_range | ].
    cbv zeta.
    unfold AllUsers.requestWithRetry at 1. unfold AllUsers.budget at 1.
    cbn [AllUsers.requestWithRetry_steps].
    rewrite (bind_returns _ _ _ _ _ Htok), (bind_returns _ _ _ _ _ Hfetch).
    replace ((status resp =? 401) && (attempt <? 1)%nat) with false
      by (symmetry; apply andb_false_iff; left; apply Z.eqb_neq; lia).
    replace (((status resp =? 429) || (500 <=? status resp))
             && (attempt <? MAX_RETRIES cfg)%nat) with true.
    2:{ symmetry. apply andb_true_iff. split; [ | now apply Nat.ltb_lt ].
        apply orb_true_iff. destruct Hst; [ left; now apply Z.eqb_eq
                                          | right; now apply Z.leb_le ]. }
    cbv zeta.
    rewrite (bind_returns (random_below 250) _ w2 _ _ eq_refl).
    rewrite (bind_returns (log _) _ _ _ tt eq_refl).
    rewrite (bind_returns (sleep _) _ _ _ tt eq_refl).
    apply requestWithRetry_steps_enough_all; unfold AllUsers.budget; lia.
Qed.

End Wrapper.

Section BackoffSamples.

Lemma backoff_wait_witness :
  let w := boot [tokenReply "T" 3600; throttledReply 429 (mkHeader (Num 2) NaN);
                 statusReply 200] in
  let busy := mkResponse 429 (Some (mkHeader (Num 2) NaN)) None in
  let w2o := snd (fetch (mkRequest GET (UsersList None) (Some "T"))
                    (snd (OrgIdentities.getAccessToken false w))) in
  let w2u := snd (fetch (mkRequest GET (UsersList None) (Some "T"))
                    (snd (AllUsers.getAccessToken false w))) in
  (exists jitter,
      0 <= jitter < 250
      /\ OrgIdentities.requestWithRetry sampleConfig GET (UsersList None) 0 false w
         = OrgIdentities.requestWithRetry sampleConfig GET (UsersList None) 1 false
             (tick (2000 + jitter)
                (note (Slept (Num (2000 + jitter)))
                   (note (Logged (Throttled 429 (Num (2000 + jitter)) 1)) (draw w2o)))))
  /\ (exists jitter,
         0 <= jitter < 250
         /\ AllUsers.requestWithRetry sampleConfig GET (UsersList None) 0 w
            = AllUsers.requestWithRetry sampleConfig GET (UsersList None) 1
                (snd (sleep (Num (2000 + jitter))
                   (note (Logged (Throttled 429 (Num (2000 + jitter)) 1)) (draw w2u))))).
Proof.
  intros w busy w2o w2u.
  destruct backoff_wait as (Horg & Hall).
  split.
  - destruct (Horg sampleConfig GET (UsersList None) 0%nat false w "T"
                (snd (OrgIdentities.getAccessToken false w)) busy w2o)
      as (jitter & Hrange & Hcall & _).
    + vm_compute. reflexivity.
    + vm_compute. reflexivity.
    + left. reflexivity.
    + simpl. lia.
    + exists jitter. split; [ exact Hrange | exact Hcall ].
  - destruct (Hall sampleConfig GET (UsersList None) 0%nat w "T"
                (snd (AllUsers.getAccessToken false w)) busy w2u)
      as (jitter & Hrange & Hcall).
    + vm_compute. reflexivity.
    + vm_compute. reflexivity.
    + left. reflexivity.
    + simpl. lia.
    + exists jitter. split; [ exact Hrange | exact Hcall ].
Defined.

(** C5, as stated, fails: a [Retry-After] of 30 seconds makes the wrapper
    sleep 30000 ms, above the cap of 15000 ms; and a [Retry-After] of one
    second at attempt 3 makes it sleep 1000 ms, below the backoff of
    4000 ms that the maximum would choose.  (The jitter drawn in these runs
    is 0.) *)
Lemma retry_after_replaces_the_backoff :
  let w := boot [tokenReply "T" 3600; throttledReply 429 (mkHeader (Num 30) NaN);
                 statusReply 200] in
  let w' := boot [tokenReply "T" 3600; statusReply 429; statusReply 429;
                  statusReply 429; throttledReply 429 (mkHeader (Num 1) NaN);
                  statusReply 200] in
  (sleeps (snd (OrgIdentities.requestWithRetry sampleConfig GET (UsersList None) 0 false w))
   = [Num 30000]
   /\ claimed_waitMs 30000 (BASE_DELAY_MS sampleConfig) 0 0 = 15000)
  /\ (sleeps (snd (OrgIdentities.requestWithRetry sampleConfig GET (UsersList None) 0 false w'))
      = [Num 500; Num 1000; Num 2000; Num 1000]
      /\ claimed_waitMs 1000 (BASE_DELAY_MS sampleConfig) 3 0 = 4000).
Proof. vm_compute. repeat split. Qed.

End BackoffSamples.

Section TokenCacheFacts.

Lemma cached_cold (force : bool) (w : World) :
  force = true \/ tokenCache w = None
  \/ (exists c, tokenCache w = Some c /\ expiresAt c <= clock w) ->
  OrgIdentities.cached force (tokenCache w) (clock w) = None
  /\ AllUsers.cached force (tokenCache w) (clock w) = None.
Proof.
  unfold OrgIdentities.cached, AllUsers.cached.
  intros [-> | [-> | (c & -> & Hexp)]].
  - destruct (tokenCache w); auto.
  - auto.
  - replace (clock w <? expiresAt c) with false by (symmetry; apply Z.ltb_ge; lia).
    rewrite andb_false_r. auto.
Qed.

(** C6, as the code has it.  In both scripts a cached token that has not
    expired is returned, when no refresh is forced, without touching the
    world; otherwise exactly one request goes to the token endpoint.  When
    that call returns a token, [deleteOrgUsersIdentities.ts] caches it with
    [expiresAt = now + max(expires_in - 60, 0) * 1000], and
    [deleteAllUsers.ts] with [expiresAt = now + (expires_in - 60) * 1000],
    where [expires_in] is 3600 when the response has none and [now] is the
    clock after the response. *)
Theorem token_cache_per_flow :
  (forall w c,
      tokenCache w = Some c -> clock w < expiresAt c ->
      OrgIdentities.getAccessToken false w = (Return (token c), w)
      /\ AllUsers.getAccessToken false w = (Return (token c), w))
  /\ (forall force w,
         force = true \/ tokenCache w = None
         \/ (exists c, tokenCache w = Some c /\ expiresAt c <= clock w) ->
         let o := OrgIdentities.getAccessToken force w in
         let u := AllUsers.getAccessToken force w in
         (served (snd o) = S (served w)
          /\ tally isTokenRequest (snd o) = S (tally isTokenRequest w)
          /\ forall t,
              fst o = Return t ->
              exists resp json,
                result (network w (served w)) = Some resp
                /\ body resp = Some json
                /\ access_token json = Some t
                /\ tokenCache (snd o)
                   = Some (mkCache t (clock (snd o)
                                      + Z.max (nullish (expires_in json) 3600 - 60) 0 * 1000)))
         /\ (served (snd u) = S (served w)
             /\ tally isTokenRequest (snd u) = S (tally isTokenRequest w)
             /\ forall t,
                 fst u = Return t ->
                 exists resp json,
                   result (network w (served w)) = Some resp
                   /\ body resp = Some json
                   /\ tokenCache (snd u)
                      = Some (mkCache t (clock (snd u)
                                         + (nullish (expires_in json) 3600 - 60) * 1000)))).
Proof.
  split.
  - intros w c Hc Hfresh.
    unfold OrgIdentities.getAccessToken, AllUsers.getAccessToken.
    cbv [bind read_tokenCache Date_now OrgIdentities.cached AllUsers.cached].
    rewrite Hc. cbn [negb andb].
    replace (clock w <? expiresAt c) with true by (symmetry; apply Z.ltb_lt; lia).
    split; reflexivity.
  - intros force w Hcold. destruct (cached_cold force w Hcold) as [Ho Hu].
    cbv zeta. split.
    + unfold OrgIdentities.getAccessToken.
      cbv [bind read_tokenCache Date_now]. rewrite Ho.
      cbv [log fetch write_tokenCache throw ret]. cbn [note network served].
      destruct (result (network w (served w))) as [resp |] eqn:Eresp;
        [ | split; [ reflexivity | split; [ reflexivity | discriminate ] ] ].
      destruct (ok resp); cbn [negb];
        [ | split; [ reflexivity | split; [ reflexivity | discriminate ] ] ].
      destruct (body resp) as [json |] eqn:Ebody;
        [ | split; [ reflexivity | split; [ reflexivity | discriminate ] ] ].
      destruct (truthy (access_token json)) eqn:Etruthy;
        [ | split; [ reflexivity | split; [ reflexivity | discriminate ] ] ].
      split; [ reflexivity | split; [ reflexivity | ] ].
      intros t Ht. injection Ht as <-.
      exists resp, json. split; [ reflexivity | ]. split; [ exact Ebody | ].
      split; [ | reflexivity ].
      destruct (access_token json); [ reflexivity | discriminate ].
    + unfold AllUsers.getAccessToken.
      cbv [bind read_tokenCache Date_now]. rewrite Hu.
      cbv [log fetch write_tokenCache throw ret]. cbn [note network served].
      destruct (result (network w (served w))) as [resp |] eqn:Eresp;
        [ | split; [ reflexivity | split; [ reflexivity | discriminate ] ] ].
      destruct (ok resp); cbn [negb];
        [ | split; [ reflexivity | split; [ reflexivity | discriminate ] ] ].
      destruct (body resp) as [json |] eqn:Ebody;
        [ | split; [ reflexivity | split; [ reflexivity | discriminate ] ] ].
      split; [ reflexivity | split; [ reflexivity | ] ].
      intros t Ht. injection Ht as <-.
      exists resp, json. split; [ reflexivity | ]. split; [ exact Ebody | reflexivity ].
Qed.

Lemma token_cache_per_flow_witness :
  let warm := mkWorld 1000 (Some (mkCache "T" 5000)) (scripted []) 0 (fun _ => 0) 0 [] 0 in
  let cold := boot [tokenReply "T" 3600] in
  (OrgIdentities.getAccessToken false warm = (Return "T", warm)
   /\ AllUsers.getAccessToken false warm = (Return "T", warm))
  /\ served (snd (OrgIdentities.getAccessToken false cold)) = 1%nat
  /\ served (snd (AllUsers.getAccessToken false cold)) = 1%nat.
Proof.
  intros warm cold.
  destruct token_cache_per_flow as (Hwarm & Hcold).
  split.
  - apply (Hwarm warm (mkCache "T" 5000)).
    + reflexivity.
    + simpl. lia.
  - destruct (Hcold false cold) as ((Ho & _) & (Hu & _)).
    + right. left. reflexivity.
    + split; [ exact Ho | exact Hu ].
Defined.

(** C6, as stated, fails in [deleteAllUsers.ts]: for a token that expires
    in 30 seconds the cached expiry is 30 seconds before the clock, not the
    clock itself. *)
Lemma short_lived_token_expiry_is_not_clamped :
  let w' := snd (AllUsers.getAccessToken false (boot [tokenReply "T" 30])) in
  tokenCache w' = Some (mkCache "T" (-28995))
  /\ clock w' + Z.max (30 - 60) 0 * 1000 = 1005.
Proof. vm_compute. split; reflexivity. Qed.

End TokenCacheFacts.

(** * More properties of the two scripts *)

(** ** The token getter *)

Section TokenGetter.

Lemma not_ok_status (r : Response) : ok r = false -> status r < 200 \/ 299 < status r.
Proof.
  unfold ok. intros H. apply andb_false_iff in H as [H | H].
  - apply Z.leb_gt in H. lia.
  - apply Z.leb_gt in H. lia.
Qed.

(** What [getAccessToken] of [deleteOrgUsersIdentities.ts] does, outcome by
    outcome. *)
Lemma getAccessToken_cases_org (force : bool) (w : World) :
  (exists t, OrgIdentities.cached force (tokenCache w) (clock w) = Some t
             /\ OrgIdentities.getAccessToken force w = (Return t, w))
  \/ (OrgIdentities.cached force (tokenCache w) (clock w) = None
      /\ exists w1,
          tokenCache w1 = tokenCache w
          /\ ((exists e, OrgIdentities.getAccessToken force w = (Throw e, w1)
                         /\ (e = NetworkError \/ e = TokenWithoutAccessToken
                             \/ exists st, e = TokenRequestFailed st
                                           /\ (st < 200 \/ 299 < st)))
              \/ (exists t expiresIn,
                     t <> ""
                     /\ OrgIdentities.getAccessToken force w
                        = (Return t,
                           note (Logged (GotToken expiresIn))
                             (store (mkCache t (clock w1 + Z.max (expiresIn - 60) 0 * 1000))
                                w1))))).
Proof.
  unfold OrgIdentities.getAccessToken.
  cbv [bind read_tokenCache Date_now].
  destruct (OrgIdentities.cached force (tokenCache w) (clock w)) as [t |] eqn:Ecached.
  - left. exists t. split; reflexivity.
  - right. split; [ reflexivity | ].
    cbv [log fetch write_tokenCache throw ret]. cbn [note network served].
    eexists. split; [ | destruct (result (network w (served w))) as [resp |] ].
    2:{ destruct (ok resp) eqn:Eok; cbn [negb].
        - destruct (body resp) as [json |].
          + destruct (truthy (access_token json)) eqn:Etruthy.
            * right. exists (nullish (access_token json) ""), (nullish (expires_in json) 3600).
              split; [ | reflexivity ].
              destruct (access_token json) as [t |]; [ | discriminate ].
              simpl in *. intros ->. discriminate.
            * left. eexists. split; [ reflexivity | auto ].
          + left. eexists. split; [ reflexivity | auto ].
        - left. eexists. split; [ reflexivity | ].
          right. right. eexists. split; [ reflexivity | now apply not_ok_status ]. }
    + reflexivity.
    + left. eexists. split; [ reflexivity | auto ].
Qed.

(** The same for [deleteAllUsers.ts]. *)
Lemma getAccessToken_cases_all (force : bool) (w : World) :
  (exists t, AllUsers.cached force (tokenCache w) (clock w) = Some t
             /\ AllUsers.getAccessToken force w = (Return t, w))
  \/ (AllUsers.cached force (tokenCache w) (clock w) = None
      /\ exists w1,
          tokenCache w1 = tokenCache w
          /\ ((exists e, AllUsers.getAccessToken force w = (Throw e, w1)
                         /\ (e = NetworkError \/ e = InvalidJson OAuthToken
                             \/ exists st, e = TokenRequestFailed st
                                           /\ (st < 200 \/ 299 < st)))
              \/ (exists t expiresIn,
                     AllUsers.getAccessToken force w
                     = (Return t,
                        note (Logged (GotToken expiresIn))
                          (store (mkCache t (clock w1 + (expiresIn - 60) * 1000)) w1))))).
Proof.
  unfold AllUsers.getAccessToken.
  cbv [bind read_tokenCache Date_now].
  destruct (AllUsers.cached force (tokenCache w) (clock w)) as [t |] eqn:Ecached.
  - left. exists t. split; reflexivity.
  - right. split; [ reflexivity | ].
    cbv [log fetch write_tokenCache throw ret]. cbn [note network served].
    eexists. split; [ | destruct (result (network w (served w))) as [resp |] ].
    2:{ destruct (ok resp) eqn:Eok; cbn [negb].
        - destruct (body resp) as [json |].
          + right. eexists _, _. reflexivity.
          + left. eexists. split; [ reflexivity | auto ].
        - left. eexists. split; [ reflexivity | ].
          right. right. eexists. split; [ reflexivity | now apply not_ok_status ]. }
    + reflexivity.
    + left. eexists. split; [ reflexivity | auto ].
Qed.

Lemma cached_token (force : bool) (cache : option TokenCache) (now : Z) (t : string) :
  OrgIdentities.cached force cache now = Some t ->
  exists c, cache = Some c /\ token c = t /\ now < expiresAt c /\ force = false.
Proof.
  unfold OrgIdentities.cached. destruct cache as [c |]; [ | discriminate ].
  destruct force; cbn [negb andb]; [ discriminate | ].
  destruct (now <? expiresAt c) eqn:E; [ | discriminate ].
  intros H. injection H as <-. exists c. apply Z.ltb_lt in E. auto.
Qed.

Lemma cached_same (force : bool) (cache : option TokenCache) (now : Z) :
  AllUsers.cached force cache now = OrgIdentities.cached force cache now.
Proof. reflexivity. Qed.

(** X1.  In both scripts a call of the token getter that throws leaves the
    cached token as it was, and what it throws is a network error, a
    token response with a status outside 200..299, or a token response
    without a usable body (no [access_token] in
    [deleteOrgUsersIdentities.ts], no JSON in [deleteAllUsers.ts]). *)
Theorem failed_exchange_keeps_the_cache (force : bool) (w w' : World) (e : Error) :
  (OrgIdentities.getAccessToken force w = (Throw e, w') ->
   tokenCache w' = tokenCache w
   /\ (e = NetworkError \/ e = TokenWithoutAccessToken
       \/ exists st, e = TokenRequestFailed st /\ (st < 200 \/ 299 < st)))
  /\ (AllUsers.getAccessToken force w = (Throw e, w') ->
      tokenCache w' = tokenCache w
      /\ (e = NetworkError \/ e = InvalidJson OAuthToken
          \/ exists st, e = TokenRequestFailed st /\ (st < 200 \/ 299 < st))).
Proof.
  split; intros H.
  - destruct (getAccessToken_cases_org force w)
      as [(t & _ & E) | (_ & w1 & Hcache & [(e' & E & He) | (t & x & _ & E)])];
      rewrite E in H; try discriminate.
    injection H as <- <-. auto.
  - destruct (getAccessToken_cases_all force w)
      as [(t & _ & E) | (_ & w1 & Hcache & [(e' & E & He) | (t & x & E)])];
      rewrite E in H; try discriminate.
    injection H as <- <-. auto.
Qed.

Lemma failed_exchange_keeps_the_cache_witness :
  let w := mkWorld 9000 (Some (mkCache "old" 5000)) (scripted [statusReply 503]) 0
                   (fun _ => 0) 0 [] 0 in
  (tokenCache (snd (OrgIdentities.getAccessToken false w)) = tokenCache w
   /\ (TokenRequestFailed 503 = NetworkError
       \/ TokenRequestFailed 503 = TokenWithoutAccessToken
       \/ exists st, TokenRequestFailed 503 = TokenRequestFailed st
                     /\ (st < 200 \/ 299 < st)))
  /\ (tokenCache (snd (AllUsers.getAccessToken false w)) = tokenCache w
      /\ (TokenRequestFailed 503 = NetworkError
          \/ TokenRequestFailed 503 = InvalidJson OAuthToken
          \/ exists st, TokenRequestFailed 503 = TokenRequestFailed st
                        /\ (st < 200 \/ 299 < st))).
Proof.
  intros w. split.
  - apply (proj1 (failed_exchange_keeps_the_cache false w
                    (snd (OrgIdentities.getAccessToken false w)) (TokenRequestFailed 503))).
    vm_compute. reflexivity.
  - apply (proj2 (failed_exchange_keeps_the_cache false w
                    (snd (AllUsers.getAccessToken false w)) (TokenRequestFailed 503))).
    vm_compute. reflexivity.
Defined.

(** X2.  In both scripts the token a call returns is the one it leaves in
    the cache, and an unforced call made later, while the clock is before
    the cached expiry, returns that token again without touching the
    world.  In [deleteOrgUsersIdentities.ts] a token that comes from an
    exchange is never empty. *)
Theorem returned_token_is_served_again (force : bool) (w w1 : World) (t : string) :
  (OrgIdentities.getAccessToken force w = (Return t, w1) ->
   exists c,
     tokenCache w1 = Some c /\ token c = t
     /\ (OrgIdentities.cached force (tokenCache w) (clock w) = None -> t <> "")
     /\ forall w2,
         tokenCache w2 = tokenCache w1 -> clock w2 < expiresAt c ->
         OrgIdentities.getAccessToken false w2 = (Return t, w2))
  /\ (AllUsers.getAccessToken force w = (Return t, w1) ->
      exists c,
        tokenCache w1 = Some c /\ token c = t
        /\ forall w2,
            tokenCache w2 = tokenCache w1 -> clock w2 < expiresAt c ->
            AllUsers.getAccessToken false w2 = (Return t, w2)).
Proof.
  assert (Hwarm : forall c w2,
             tokenCache w2 = Some c -> clock w2 < expiresAt c ->
             OrgIdentities.getAccessToken false w2 = (Return (token c), w2)
             /\ AllUsers.getAccessToken false w2 = (Return (token c), w2)).
  { intros c w2 Hc Hfresh.
    unfold OrgIdentities.getAccessToken, AllUsers.getAccessToken.
    cbv [bind read_tokenCache Date_now OrgIdentities.cached AllUsers.cached].
    rewrite Hc. cbn [negb andb].
    replace (clock w2 <? expiresAt c) with true by (symmetry; apply Z.ltb_lt; lia).
    split; reflexivity. }
  split; intros H.
  - destruct (getAccessToken_cases_org force w)
      as [(t' & Ec & E) | (Ec & w0 & Hcache & [(e' & E & He) | (t' & x & Hne & E)])];
      rewrite E in H; try discriminate; injection H as <- <-.
    + destruct (cached_token _ _ _ _ Ec) as (c & Hc & Ht & _ & _).
      exists c. repeat split; auto.
      * rewrite Ec. discriminate.
      * intros w2 Hsame Hfresh. rewrite <- Ht. apply Hwarm; congruence.
    + eexists. split; [ reflexivity | ]. split; [ reflexivity | ]. split; [ auto | ].
      intros w2 Hsame Hfresh. simpl in Hsame.
      exact (proj1 (Hwarm _ w2 Hsame Hfresh)).
  - destruct (getAccessToken_cases_all force w)
      as [(t' & Ec & E) | (Ec & w0 & Hcache & [(e' & E & He) | (t' & x & E)])];
      rewrite E in H; try discriminate; injection H as <- <-.
    + rewrite cached_same in Ec.
      destruct (cached_token _ _ _ _ Ec) as (c & Hc & Ht & _ & _).
      exists c. repeat split; auto.
      intros w2 Hsame Hfresh. rewrite <- Ht. apply Hwarm; congruence.
    + eexists. split; [ reflexivity | ]. split; [ reflexivity | ].
      intros w2 Hsame Hfresh. simpl in Hsame.
      exact (proj2 (Hwarm _ w2 Hsame Hfresh)).
Qed.

Lemma returned_token_is_served_again_witness :
  let w := boot [tokenReply "T" 3600] in
  let wo := snd (OrgIdentities.getAccessToken true w) in
  let wu := snd (AllUsers.getAccessToken true w) in
  (exists c,
      tokenCache wo = Some c /\ token c = "T"
      /\ (OrgIdentities.cached true (tokenCache w) (clock w) = None -> "T" <> "")
      /\ forall w2,
          tokenCache w2 = tokenCache wo -> clock w2 < expiresAt c ->
          OrgIdentities.getAccessToken false w2 = (Return "T", w2))
  /\ (exists c,
         tokenCache wu = Some c /\ token c = "T"
         /\ forall w2,
             tokenCache w2 = tokenCache wu -> clock w2 < expiresAt c ->
             AllUsers.getAccessToken false w2 = (Return "T", w2)).
Proof.
  intros w wo wu. split.
  - apply (proj1 (returned_token_is_served_again true w wo "T")).
    vm_compute. reflexivity.
  - apply (proj2 (returned_token_is_served_again true w wu "T")).
    vm_compute. reflexivity.
Defined.

End TokenGetter.

(** ** The retry wrapper *)

Section RetryWrapper.

Lemma quiet_getAccessToken_exchange_org (keep : Event -> bool) (force : bool) :
  ignores exchange keep -> quiet keep (OrgIdentities.getAccessToken force).
Proof.
  intros Hk. unfold OrgIdentities.getAccessToken. dismantle; primitives; now apply Hk.
Qed.

Lemma quiet_getAccessToken_exchange_all (keep : Event -> bool) (force : bool) :
  ignores exchange keep -> quiet keep (AllUsers.getAccessToken force).
Proof.
  intros Hk. unfold AllUsers.getAccessToken. dismantle; primitives; now apply Hk.
Qed.

Lemma adds_fetch (keep : Event -> bool) (r : Request) : adds_at_most keep 1 (fetch r).
Proof.
  intros w. unfold fetch, tally.
  destruct (result _); simpl; destruct (keep (Sent r)); simpl; lia.
Qed.

Lemma adds_sleep (keep : Event -> bool) (ms : jsnum) : adds_at_most keep 1 (sleep ms).
Proof. intros w. unfold tally. simpl. destruct (keep (Slept ms)); simpl; lia. Qed.

Lemma adds_pending (keep : Event -> bool) (A : Type) (n : nat) :
  adds_at_most keep n (@pending World A).
Proof. intros w. simpl. lia. Qed.

Ltac spend a b := apply (adds_bind _ a b); [ | intro | lia ].

Ltac free :=
  apply adds_quiet;
  first [ apply quiet_getAccessToken_exchange_org; sift
        | apply quiet_getAccessToken_exchange_all; sift
        | apply quiet_parseRetryAfterMs
        | apply quiet_random_below
        | apply quiet_log; reflexivity
        | apply quiet_sleep; reflexivity
        | apply quiet_fetch; reflexivity
        | apply preserves_ret ].

Lemma requests_bound_org (cfg : Config) (m : Method) (url : Endpoint) :
  forall steps attempt (refreshed : bool),
    adds_at_most isApiRequest
      (MAX_RETRIES cfg - attempt + 1 + (if refreshed then 0 else 1))%nat
      (OrgIdentities.requestWithRetry_steps cfg steps m url attempt refreshed).
Proof.
  induction steps as [| steps IH]; intros attempt refreshed; [ apply adds_pending | ].
  simpl.
  spend 0%nat (MAX_RETRIES cfg - attempt + 1 + (if refreshed then 0 else 1))%nat; [ free | ].
  spend 1%nat (MAX_RETRIES cfg - attempt + (if refreshed then 0 else 1))%nat;
    [ apply adds_fetch | ].
  destruct ((status _ =? 401) && negb refreshed) eqn:E401.
  - apply andb_prop in E401 as [_ Hr]. destruct refreshed; [ discriminate | ].
    spend 0%nat (MAX_RETRIES cfg - attempt + 1)%nat; [ free | ].
    spend 0%nat (MAX_RETRIES cfg - attempt + 1)%nat; [ free | ].
    intros w. pose proof (IH attempt true w) as H. cbv iota in H. lia.
  - destruct (_ && (attempt <? MAX_RETRIES cfg)%nat) eqn:Eretry.
    + apply andb_prop in Eretry as [_ Hlt]. apply Nat.ltb_lt in Hlt.
      spend 0%nat (MAX_RETRIES cfg - attempt + (if refreshed then 0 else 1))%nat; [ free | ].
      spend 0%nat (MAX_RETRIES cfg - attempt + (if refreshed then 0 else 1))%nat; [ free | ].
      spend 0%nat (MAX_RETRIES cfg - attempt + (if refreshed then 0 else 1))%nat; [ free | ].
      spend 0%nat (MAX_RETRIES cfg - attempt + (if refreshed then 0 else 1))%nat; [ free | ].
      intros w. pose proof (IH (S attempt) refreshed w). lia.
    + free.
Qed.

Lemma sleeps_bound_org (cfg : Config) (m : Method) (url : Endpoint) :
  forall steps attempt (refreshed : bool),
    adds_at_most isSleep (MAX_RETRIES cfg - attempt)%nat
      (OrgIdentities.requestWithRetry_steps cfg steps m url attempt refreshed).
Proof.
  induction steps as [| steps IH]; intros attempt refreshed; [ apply adds_pending | ].
  simpl.
  spend 0%nat (MAX_RETRIES cfg - attempt)%nat; [ free | ].
  spend 0%nat (MAX_RETRIES cfg - attempt)%nat; [ free | ].
  destruct ((status _ =? 401) && negb refreshed) eqn:E401.
  - spend 0%nat (MAX_RETRIES cfg - attempt)%nat; [ free | ].
    spend 0%nat (MAX_RETRIES cfg - attempt)%nat; [ free | ].
    apply IH.
  - destruct (_ && (attempt <? MAX_RETRIES cfg)%nat) eqn:Eretry.
    + apply andb_prop in Eretry as [_ Hlt]. apply Nat.ltb_lt in Hlt.
      spend 0%nat (MAX_RETRIES cfg - attempt)%nat; [ free | ].
      spend 0%nat (MAX_RETRIES cfg - attempt)%nat; [ free | ].
      spend 0%nat (MAX_RETRIES cfg - attempt)%nat; [ free | ].
      spend 1%nat (MAX_RETRIES cfg - S attempt)%nat; [ apply adds_sleep | ].
      apply IH.
    + free.
Qed.

Lemma requests_bound_all (cfg : Config) (m : Method) (url : Endpoint) :
  forall steps attempt,
    adds_at_most isApiRequest (S (Nat.max (MAX_RETRIES cfg) 1 - attempt))
      (AllUsers.requestWithRetry_steps cfg steps m url attempt).
Proof.
  induction steps as [| steps IH]; intros attempt; [ apply adds_pending | ].
  simpl.
  spend 0%nat (S (Nat.max (MAX_RETRIES cfg) 1 - attempt)); [ free | ].
  spend 1%nat (Nat.max (MAX_RETRIES cfg) 1 - attempt)%nat; [ apply adds_fetch | ].
  destruct ((status _ =? 401) && (attempt <? 1)%nat) eqn:E401.
  - apply andb_prop in E401 as [_ Hlt]. apply Nat.ltb_lt in Hlt.
    spend 0%nat (Nat.max (MAX_RETRIES cfg) 1 - attempt)%nat; [ free | ].
    spend 0%nat (Nat.max (MAX_RETRIES cfg) 1 - attempt)%nat; [ free | ].
    intros w. pose proof (IH (S attempt) w). lia.
  - destruct (_ && (attempt <? MAX_RETRIES cfg)%nat) eqn:Eretry.
    + apply andb_prop in Eretry as [_ Hlt]. apply Nat.ltb_lt in Hlt.
      spend 0%nat (Nat.max (MAX_RETRIES cfg) 1 - attempt)%nat; [ free | ].
      spend 0%nat (Nat.max (MAX_RETRIES cfg) 1 - attempt)%nat; [ free | ].
      spend 0%nat (Nat.max (MAX_RETRIES cfg) 1 - attempt)%nat; [ free | ].
      intros w. pose proof (IH (S attempt) w). lia.
    + free.
Qed.

Lemma sleeps_bound_all (cfg : Config) (m : Method) (url : Endpoint) :
  forall steps attempt,
    adds_at_most isSleep (MAX_RETRIES cfg - attempt)%nat
      (AllUsers.requestWithRetry_steps cfg steps m url attempt).
Proof.
  induction steps as [| steps IH]; intros attempt; [ apply adds_pending | ].
  simpl.
  spend 0%nat (MAX_RETRIES cfg - attempt)%nat; [ free | ].
  spend 0%nat (MAX_RETRIES cfg - attempt)%nat; [ free | ].
  destruct ((status _ =? 401) && (attempt <? 1)%nat) eqn:E401.
  - spend 0%nat (MAX_RETRIES cfg - attempt)%nat; [ free | ].
    spend 0%nat (MAX_RETRIES cfg - attempt)%nat; [ free | ].
    intros w. pose proof (IH (S attempt) w). lia.
  - destruct (_ && (attempt <? MAX_RETRIES cfg)%nat) eqn:Eretry.
    + apply andb_prop in Eretry as [_ Hlt]. apply Nat.ltb_lt in Hlt.
      spend 0%nat (MAX_RETRIES cfg - attempt)%nat; [ free | ].
      spend 0%nat (MAX_RETRIES cfg - attempt)%nat; [ free | ].
      spend 1%nat (MAX_RETRIES cfg - S attempt)%nat; [ apply adds_sleep | ].
      apply IH.
    + free.
Qed.

(** X3.  One logical call through the wrapper is bounded.  In
    [deleteOrgUsersIdentities.ts] it sends at most
    [MAX_RETRIES - attempt + 1] requests to its URL, one more if it may
    still refresh after a 401; in [deleteAllUsers.ts] at most
    [max(MAX_RETRIES, 1) - attempt + 1].  In both it sleeps at most
    [MAX_RETRIES - attempt] times. *)
Theorem one_call_is_bounded (cfg : Config) (m : Method) (url : Endpoint)
    (attempt : nat) (refreshed : bool) (w : World) :
  let wo := snd (OrgIdentities.requestWithRetry cfg m url attempt refreshed w) in
  let wu := snd (AllUsers.requestWithRetry cfg m url attempt w) in
  (tally isApiRequest wo
   <= tally isApiRequest w + (MAX_RETRIES cfg - attempt + 1 + (if refreshed then 0 else 1)))%nat
  /\ (tally isSleep wo <= tally isSleep w + (MAX_RETRIES cfg - attempt))%nat
  /\ (tally isApiRequest wu
      <= tally isApiRequest w + S (Nat.max (MAX_RETRIES cfg) 1 - attempt))%nat
  /\ (tally isSleep wu <= tally isSleep w + (MAX_RETRIES cfg - attempt))%nat.
Proof.
  cbv zeta. repeat split.
  - apply requests_bound_org.
  - apply sleeps_bound_org.
  - apply requests_bound_all.
  - apply sleeps_bound_all.
Qed.

Lemma tally_after {A : Type} (keep : Event -> bool) (m : Eff A) (w w' : World)
    (o : Outcome A) :
  quiet keep m -> m w = (o, w') -> tally keep w' = tally keep w.
Proof.
  intros Hq E. change w' with (snd (o, w')). rewrite <- E.
  apply tally_view, Hq.
Qed.

(** What the response that comes back says about the call that returned
    it. *)
Lemma surfaced_status_org (cfg : Config) (m : Method) (url : Endpoint) :
  forall steps attempt (refreshed : bool) w resp w',
    OrgIdentities.requestWithRetry_steps cfg steps m url attempt refreshed w
    = (Return resp, w') ->
    (status resp = 401 ->
     tally isRefresh w' = (tally isRefresh w + (if refreshed then 0 else 1))%nat)
    /\ (status resp = 429 \/ 500 <= status resp ->
        tally isSleep w' = (tally isSleep w + (MAX_RETRIES cfg - attempt))%nat).
Proof.
  induction steps as [| steps IH]; intros attempt refreshed w resp w' H;
    [ discriminate | ].
  simpl in H.
  apply bind_inv in H as (tok & w1 & Htok & H).
  apply bind_inv in H as (r0 & w2 & Hfetch & H).
  assert (R1 : tally isRefresh w1 = tally isRefresh w)
    by (eapply tally_after; [ apply quiet_getAccessToken_exchange_org; sift | exact Htok ]).
  assert (S1 : tally isSleep w1 = tally isSleep w)
    by (eapply tally_after; [ apply quiet_getAccessToken_exchange_org; sift | exact Htok ]).
  assert (R2 : tally isRefresh w2 = tally isRefresh w1)
    by (eapply tally_after; [ apply quiet_fetch; reflexivity | exact Hfetch ]).
  assert (S2 : tally isSleep w2 = tally isSleep w1)
    by (eapply tally_after; [ apply quiet_fetch; reflexivity | exact Hfetch ]).
  destruct ((status r0 =? 401) && negb refreshed) eqn:E401.
  - apply andb_prop in E401 as [_ Hr]. destruct refreshed; [ discriminate | ].
    apply bind_inv in H as ([] & w3 & Hlog & H). injection Hlog as <-.
    apply bind_inv in H as (tok' & w4 & Htok' & H).
    assert (R4 : tally isRefresh w4 = S (tally isRefresh w2))
      by (erewrite tally_after;
          [ | apply quiet_getAccessToken_exchange_org; sift | exact Htok' ]; reflexivity).
    assert (S4 : tally isSleep w4 = tally isSleep w2)
      by (erewrite tally_after;
          [ | apply quiet_getAccessToken_exchange_org; sift | exact Htok' ]; reflexivity).
    destruct (IH _ _ _ _ _ H) as [H401 Hretry]. cbv iota in H401.
    split; intros Hst; [ rewrite (H401 Hst) | rewrite (Hretry Hst) ]; lia.
  - destruct (((status r0 =? 429) || (500 <=? status r0))
              && (attempt <? MAX_RETRIES cfg)%nat) eqn:Eretry.
    + apply andb_prop in Eretry as [_ Hlt]. apply Nat.ltb_lt in Hlt.
      rewrite (bind_returns _ _ _ _ _ (parseRetryAfterMs_hint _ w2)) in H.
      rewrite (bind_returns (random_below 250) _ w2 _ _ eq_refl) in H.
      rewrite (bind_returns (log _) _ _ _ tt eq_refl) in H.
      rewrite (bind_returns (sleep _) _ _ _ tt eq_refl) in H.
      destruct (IH _ _ _ _ _ H) as [H401 Hretry].
      split; intros Hst; [ rewrite (H401 Hst) | rewrite (Hretry Hst) ];
        unfold tally in *; simpl; lia.
    + injection H as <- <-.
      apply andb_false_iff in E401. apply andb_false_iff in Eretry.
      split; intros Hst.
      * destruct E401 as [E | E].
        -- apply Z.eqb_neq in E. contradiction.
        -- destruct refreshed; [ lia | discriminate ].
      * destruct Eretry as [E | E].
        -- apply orb_false_iff in E as [E1 E2].
           apply Z.eqb_neq in E1. apply Z.leb_gt in E2. lia.
        -- apply Nat.ltb_ge in E. lia.
Qed.

Lemma surfaced_failures_were_retried_core (cfg : Config) (m : Method) (url : Endpoint)
    (attempt : nat) (w w' : World) (resp : Response) :
  OrgIdentities.requestWithRetry cfg m url attempt false w = (Return resp, w') ->
  (status resp = 401 -> tally isRefresh w' = S (tally isRefresh w))
  /\ (status resp = 429 \/ 500 <= status resp ->
      tally isSleep w' = (tally isSleep w + (MAX_RETRIES cfg - attempt))%nat).
Proof.
  intros H. apply surfaced_status_org in H as [H401 Hretry]. split.
  - intros Hst. rewrite (H401 Hst). lia.
  - exact Hretry.
Qed.

(** X4.  In [deleteOrgUsersIdentities.ts], when a logical call started
    without a refresh hands back a 401, the token was force-refreshed
    exactly once on the way; and when it hands back a 429 or a 5xx, every
    retry left at the start was used: it slept exactly
    [MAX_RETRIES - attempt] times. *)
Theorem surfaced_failures_were_retried (cfg : Config) (m : Method) (url : Endpoint)
    (attempt : nat) (w w' : World) (resp : Response) :
  OrgIdentities.requestWithRetry cfg m url attempt false w = (Return resp, w') ->
  (status resp = 401 -> tally isRefresh w' = S (tally isRefresh w))
  /\ (status resp = 429 \/ 500 <= status resp ->
      tally isSleep w' = (tally isSleep w + (MAX_RETRIES cfg - attempt))%nat).
Proof.
  intros H. apply surfaced_status_org in H as [H401 Hretry]. split.
  - intros Hst. rewrite (H401 Hst). lia.
  - exact Hretry.
Qed.

Lemma surfaced_failures_were_retried_witness :
  let w := boot [tokenReply "T" 3600; statusReply 503; statusReply 503; statusReply 503] in
  let two := mkConfig 2 500 in
  let w' := snd (OrgIdentities.requestWithRetry two DELETE (IdentityById "a") 0 false w) in
  (status (mkResponse 503 None None) = 401 -> tally isRefresh w' = S (tally isRefresh w))
  /\ (status (mkResponse 503 None None) = 429 \/ 500 <= status (mkResponse 503 None None) ->
      tally isSleep w' = (tally isSleep w + (MAX_RETRIES two - 0))%nat).
Proof.
  intros w two w'.
  apply (surfaced_failures_were_retried two DELETE (IdentityById "a") 0%nat w w'
           (mkResponse 503 None None)).
  vm_compute. reflexivity.
Defined.

End RetryWrapper.

(** ** What a whole run never does *)

Lemma preserves_bind_knowing {St X A B : Type} (obs : St -> X) (P : A -> Prop)
    (m : M St A) (k : A -> M St B) :
  (forall s a s', m s = (Return a, s') -> P a) ->
  preserves obs m ->
  (forall a, P a -> preserves obs (k a)) ->
  preserves obs (bind m k).
Proof.
  intros HP Hm Hk s. unfold bind. specialize (Hm s). specialize (HP s).
  destruct (m s) as [[a | e |] s']; simpl in *; auto.
  rewrite (Hk a (HP a s' eq_refl)). exact Hm.
Qed.

Lemma quiet_kept {A : Type} (keep : Event -> bool) (m : Eff A) :
  quiet keep m -> preserves (kept keep) m.
Proof. intros H w. specialize (H w). unfold view in H. now injection H. Qed.

Lemma kept_set_exitCode (keep : Event -> bool) (c : Z) :
  preserves (kept keep) (set_exitCode c).
Proof. intros w. reflexivity. Qed.

Lemma kept_console_error (keep : Event -> bool) (e : Error) :
  keep (ConsoleError e) = false -> preserves (kept keep) (console_error e).
Proof. intros H w. unfold kept. simpl. now rewrite H. Qed.

Lemma retryAfterHint_nonneg (h : option HeaderValue) (now ms : Z) :
  retryAfterHint h now = Some ms -> 0 <= ms.
Proof.
  unfold retryAfterHint. destruct h as [h |]; [ | discriminate ].
  destruct (asNumber h) as [seconds |], (asDate h) as [dateMs |];
    try destruct (Z.leb_spec 0 seconds) as [Hpos | Hneg];
    intros E; try discriminate; injection E as <-; lia.
Qed.

Section WholeRunOrg.

Variable cfg : Config.
Variable keep : Event -> bool.
Hypothesis calls_quiet :
  forall m url attempt refreshed,
    quiet keep (OrgIdentities.requestWithRetry cfg m url attempt refreshed).
Hypothesis lines_quiet : forall msg, keep (Logged msg) = false.

Lemma whole_deleteAllUserIdentities (steps : nat) (user : OrganizationUser) :
  quiet keep (OrgIdentities.deleteAllUserIdentities cfg steps user).
Proof.
  assert (Hlog : forall msg, quiet keep (log msg))
    by (intros msg; apply quiet_log, lines_quiet).
  unfold OrgIdentities.deleteAllUserIdentities.
  apply preserves_bind; [ apply Hlog | intros _ ].
  apply preserves_bind.
  - apply preserves_collectAllUserIdentities_with; [ intros; apply Hlog | ].
    intros u t. unfold OrgIdentities.getUserIdentitiesPage. dismantle. apply calls_quiet.
  - intros found. dismantle; try apply Hlog.
    generalize (length (OrgIdentities.uniqueIdentityIds found)) 0%nat (mkBulk 0 0 0).
    induction (OrgIdentities.uniqueIdentityIds found) as [| id rest IH];
      intros total index counts; simpl.
    + apply preserves_ret.
    + dismantle; try apply Hlog; try apply IH.
      unfold OrgIdentities.deleteIdentity. dismantle. apply calls_quiet.
Qed.

Lemma whole_main_org (steps : nat) :
  (forall e, keep (ConsoleError e) = false) ->
  preserves (kept keep) (OrgIdentities.main cfg steps).
Proof.
  intros Herr.
  assert (Hlog : forall msg, quiet keep (log msg))
    by (intros msg; apply quiet_log, lines_quiet).
  unfold OrgIdentities.main.
  apply preserves_try.
  - apply preserves_bind; [ apply quiet_kept, Hlog | intros _ ].
    apply preserves_bind; [ apply quiet_kept, Hlog | intros _ ].
    apply preserves_bind.
    + apply quiet_kept. apply preserves_collectOrganizationUsers_with; [ intros; apply Hlog | ].
      intros t. unfold OrgIdentities.getOrganizationUsersPage. dismantle;
        [ apply Hlog | apply calls_quiet ].
    + intros orgUsers. destruct (length orgUsers =? 0)%nat; [ apply quiet_kept, Hlog | ].
      apply preserves_bind.
      * apply quiet_kept. generalize (OrgIdentities.mkTotals 0 0 0 0).
        induction orgUsers as [| user rest IH]; intros t; simpl.
        -- apply preserves_ret.
        -- apply preserves_bind; [ apply whole_deleteAllUserIdentities | intros r; apply IH ].
      * intros t. apply preserves_bind; [ apply quiet_kept, Hlog | intros _ ].
        destruct (0 <? _)%nat; [ apply kept_set_exitCode | apply preserves_ret ].
  - intros e. apply preserves_bind; [ now apply kept_console_error | intros _ ].
    apply kept_set_exitCode.
Qed.

End WholeRunOrg.

Section NeverDone.

(** [staysAuthenticated] holds along a run: it is reflexive and
    transitive, and every step of the script maintains it. *)
Lemma staysAuthenticated_refl (w : World) : staysAuthenticated w w.
Proof. intros H. split; [ exact H | reflexivity ]. Qed.

Lemma staysAuthenticated_trans (w w1 w2 : World) :
  staysAuthenticated w w1 -> staysAuthenticated w1 w2 -> staysAuthenticated w w2.
Proof.
  intros H1 H2 Hs. destruct (H1 Hs) as [Hs1 E1]. destruct (H2 Hs1) as [Hs2 E2].
  split; [ exact Hs2 | congruence ].
Qed.

(** A computation that adds no request without a token and leaves the
    cache alone. *)
Lemma staysAuthenticated_quiet {A : Type} (m : Eff A) :
  quiet isUnauthenticated m -> preserves tokenCache m ->
  maintains staysAuthenticated m.
Proof.
  intros Hq Hc w Hs. split.
  - unfold cacheIsSound in *. now rewrite Hc.
  - apply quiet_kept in Hq. apply Hq.
Qed.

Lemma staysAuthenticated_ret {A : Type} (a : A) : maintains staysAuthenticated (@ret World A a).
Proof. intros w. apply staysAuthenticated_refl. Qed.

Lemma staysAuthenticated_log (m : LogMsg) : maintains staysAuthenticated (log m).
Proof. intros w Hs. split; [ exact Hs | reflexivity ]. Qed.

Lemma staysAuthenticated_bind {A B : Type} (m : Eff A) (k : A -> Eff B) :
  maintains staysAuthenticated m ->
  (forall a, maintains staysAuthenticated (k a)) ->
  maintains staysAuthenticated (bind m k).
Proof.
  intros Hm Hk w. unfold bind. specialize (Hm w).
  destruct (m w) as [[a | e |] w1]; simpl in *; auto.
  eapply staysAuthenticated_trans; [ exact Hm | apply Hk ].
Qed.

Lemma staysAuthenticated_try {A : Type} (m : Eff A) (h : Error -> Eff A) :
  maintains staysAuthenticated m ->
  (forall e, maintains staysAuthenticated (h e)) ->
  maintains staysAuthenticated (try_catch m h).
Proof.
  intros Hm Hh w. unfold try_catch. specialize (Hm w).
  destruct (m w) as [[a | e |] w1]; simpl in *; auto.
  eapply staysAuthenticated_trans; [ exact Hm | apply Hh ].
Qed.

(** The token getter of [deleteOrgUsersIdentities.ts] keeps the cache
    sound, and from a sound cache it returns a token that is not empty. *)
Lemma getAccessToken_sound_org (force : bool) (w : World) :
  staysAuthenticated w (snd (OrgIdentities.getAccessToken force w))
  /\ (cacheIsSound w ->
      forall t, fst (OrgIdentities.getAccessToken force w) = Return t -> t <> "").
Proof.
  assert (Hkept : kept isUnauthenticated (snd (OrgIdentities.getAccessToken force w))
                  = kept isUnauthenticated w)
    by (apply quiet_kept, quiet_getAccessToken_exchange_org; sift).
  destruct (getAccessToken_cases_org force w)
    as [(t & Ec & E) | (Ec & w1 & Hcache & [(e & E & _) | (t & x & Hne & E)])];
    rewrite E in *; simpl in *.
  - split; [ apply staysAuthenticated_refl | ].
    intros Hs t' Ht. injection Ht as <-.
    destruct (cached_token _ _ _ _ Ec) as (c & Hc & <- & _).
    unfold cacheIsSound in Hs. now rewrite Hc in Hs.
  - split; [ | discriminate ].
    intros Hs. split; [ | exact Hkept ].
    unfold cacheIsSound in *. now rewrite Hcache.
  - split.
    + intros Hs. split; [ exact Hne | exact Hkept ].
    + intros _ t' Ht. now injection Ht as <-.
Qed.

Lemma requestWithRetry_sound_org (cfg : Config) (m : Method) (url : Endpoint) :
  forall steps attempt refreshed,
    maintains staysAuthenticated
      (OrgIdentities.requestWithRetry_steps cfg steps m url attempt refreshed).
Proof.
  induction steps as [| steps IH]; intros attempt refreshed w;
    [ apply staysAuthenticated_refl | ].
  simpl.
  destruct (getAccessToken_sound_org false w) as [H1 Ht].
  unfold bind at 1.
  destruct (OrgIdentities.getAccessToken false w) as [[tok | e |] w1];
    simpl in H1, Ht; try exact H1.
  intros Hs. specialize (Ht Hs tok eq_refl). destruct (H1 Hs) as [Hs1 E1].
  rewrite <- E1. revert Hs1.
  refine (staysAuthenticated_bind _ _ _ _ w1).
  { apply staysAuthenticated_quiet;
      [ | intros w0; unfold fetch; destruct (result _); reflexivity ].
    apply quiet_fetch. simpl. apply String.eqb_neq in Ht. destruct url; auto. }
  intros response.
  assert (Htoken : maintains staysAuthenticated (OrgIdentities.getAccessToken true))
    by (intros w0; apply getAccessToken_sound_org).
  destruct (_ && negb refreshed).
  - apply staysAuthenticated_bind; [ apply staysAuthenticated_log | intros _ ].
    apply staysAuthenticated_bind; [ exact Htoken | intros _; apply IH ].
  - destruct (_ && (attempt <? MAX_RETRIES cfg)%nat); [ | apply staysAuthenticated_ret ].
    apply staysAuthenticated_bind;
      [ apply staysAuthenticated_quiet;
        [ apply quiet_parseRetryAfterMs
        | intros w0; now rewrite parseRetryAfterMs_hint ] | intros hint ].
    apply staysAuthenticated_bind;
      [ apply staysAuthenticated_quiet; [ apply quiet_random_below | intros w0; reflexivity ]
      | intros jitter ].
    apply staysAuthenticated_bind; [ apply staysAuthenticated_log | intros _ ].
    apply staysAuthenticated_bind; [ | intros _; apply IH ].
    apply staysAuthenticated_quiet; [ apply quiet_sleep; reflexivity | intros w0; reflexivity ].
Qed.

Lemma requestWithRetry_stays_authenticated (cfg : Config) (m : Method) (url : Endpoint)
    (attempt : nat) (refreshed : bool) :
  maintains staysAuthenticated (OrgIdentities.requestWithRetry cfg m url attempt refreshed).
Proof. apply requestWithRetry_sound_org. Qed.

(** Take a computation apart along its binds, branches and handlers, down
    to its log lines. *)
Ltac authenticated :=
  repeat match goal with
  | |- maintains staysAuthenticated (ret _) => apply staysAuthenticated_ret
  | |- maintains staysAuthenticated (throw _) =>
    intro; apply staysAuthenticated_refl
  | |- maintains staysAuthenticated pending =>
    intro; apply staysAuthenticated_refl
  | |- maintains staysAuthenticated (log _) => apply staysAuthenticated_log
  | |- maintains staysAuthenticated (bind _ _) =>
    apply staysAuthenticated_bind; [ | intro ]
  | |- maintains staysAuthenticated (try_catch _ _) =>
    apply staysAuthenticated_try; [ | intro ]
  | |- maintains staysAuthenticated (if ?c then _ else _) => destruct c
  | |- maintains staysAuthenticated (match ?x with _ => _ end) => destruct x
  | |- maintains staysAuthenticated (OrgIdentities.requestWithRetry _ _ _ _ _) =>
    apply requestWithRetry_stays_authenticated
  end.

Lemma deleteAllUserIdentities_stays_authenticated (cfg : Config) (steps : nat)
    (user : OrganizationUser) :
  maintains staysAuthenticated (OrgIdentities.deleteAllUserIdentities cfg steps user).
Proof.
  unfold OrgIdentities.deleteAllUserIdentities.
  apply staysAuthenticated_bind; [ apply staysAuthenticated_log | intros _ ].
  apply staysAuthenticated_bind.
  - unfold OrgIdentities.collectAllUserIdentities,
      OrgIdentities.collectAllUserIdentities_with.
    apply staysAuthenticated_bind; [ apply staysAuthenticated_log | intros _ ].
    apply staysAuthenticated_bind; [ | intro; authenticated ].
    generalize (@nil Identity) (@None string) 0%nat.
    induction steps as [| steps IH]; intros found cursor page; simpl;
      [ intro; apply staysAuthenticated_refl | ].
    unfold OrgIdentities.getUserIdentitiesPage at 1. authenticated. apply IH.
  - intros found. authenticated.
    generalize (length (OrgIdentities.uniqueIdentityIds found)) 0%nat (mkBulk 0 0 0).
    induction (OrgIdentities.uniqueIdentityIds found) as [| id rest IH];
      intros total index counts; simpl; [ apply staysAuthenticated_ret | ].
    unfold OrgIdentities.deleteIdentity at 1. authenticated. apply IH.
Qed.

Lemma main_stays_authenticated (cfg : Config) (steps : nat) :
  maintains staysAuthenticated (OrgIdentities.main cfg steps).
Proof.
  unfold OrgIdentities.main.
  apply staysAuthenticated_try.
  - apply staysAuthenticated_bind; [ apply staysAuthenticated_log | intros _ ].
    apply staysAuthenticated_bind; [ apply staysAuthenticated_log | intros _ ].
    apply staysAuthenticated_bind.
    + unfold OrgIdentities.collectOrganizationUsers,
        OrgIdentities.collectOrganizationUsers_with.
      apply staysAuthenticated_bind; [ | intro; authenticated ].
      generalize (@nil OrganizationUser) (@None string) 0%nat.
      induction steps as [| steps' IH]; intros found tok page; simpl;
        [ intro; apply staysAuthenticated_refl | ].
      unfold OrgIdentities.getOrganizationUsersPage at 1. authenticated. apply IH.
    + intros orgUsers. destruct (length orgUsers =? 0)%nat; [ apply staysAuthenticated_log | ].
      apply staysAuthenticated_bind.
      * generalize (OrgIdentities.mkTotals 0 0 0 0).
        induction orgUsers as [| user rest IH]; intros t; simpl;
          [ apply staysAuthenticated_ret | ].
        apply staysAuthenticated_bind;
          [ apply deleteAllUserIdentities_stays_authenticated | intros r; apply IH ].
      * intros t. apply staysAuthenticated_bind; [ apply staysAuthenticated_log | intros _ ].
        destruct (0 <? _)%nat; [ | apply staysAuthenticated_ret ].
        intros w Hs. split; [ exact Hs | reflexivity ].
  - intros e. apply staysAuthenticated_bind.
    + intros w Hs. split; [ exact Hs | reflexivity ].
    + intros _ w Hs. split; [ exact Hs | reflexivity ].
Qed.

(** X5.  Started with an empty cache, or with a cached token that is not
    empty, [deleteOrgUsersIdentities.ts] never sends a request to the API
    proper without a token: whatever the server answers and however far
    the run gets, every request that is not the token request carries a
    bearer token that is not empty.  The script owes this to the check of
    [access_token] in its token getter. *)
Theorem no_request_without_bearer (cfg : Config) (steps : nat) (w : World) :
  cacheIsSound w ->
  kept isUnauthenticated (snd (OrgIdentities.main cfg steps w)) = kept isUnauthenticated w
  /\ cacheIsSound (snd (OrgIdentities.main cfg steps w)).
Proof.
  intros Hs. destruct (main_stays_authenticated cfg steps w Hs) as [Hs' E].
  split; assumption.
Qed.

Lemma no_request_without_bearer_witness :
  let emptyToken := mkReply 5 (Some (mkResponse 200 None
                      (Some (mkJson (Some "") (Some 3600) None None None None None)))) in
  let refused := boot [emptyToken; orgUsersReply ["u1"] None] in
  let served := boot [tokenReply "T" 3600; orgUsersReply ["u1"] None;
                      identitiesReply [Some "a"] false; statusReply 401;
                      tokenReply "U" 3600; statusReply 204] in
  (kept isUnauthenticated (snd (OrgIdentities.main sampleConfig 5 refused))
   = kept isUnauthenticated refused
   /\ cacheIsSound (snd (OrgIdentities.main sampleConfig 5 refused)))
  /\ (kept isUnauthenticated (snd (OrgIdentities.main sampleConfig 5 served))
      = kept isUnauthenticated served
      /\ cacheIsSound (snd (OrgIdentities.main sampleConfig 5 served))).
Proof.
  intros emptyToken refused served. split.
  - apply (no_request_without_bearer sampleConfig 5%nat refused). vm_compute. exact I.
  - apply (no_request_without_bearer sampleConfig 5%nat served). vm_compute. exact I.
Defined.

(** [deleteAllUsers.ts] has no such check: it caches whatever the token
    response holds.  A response whose [access_token] is empty sends the
    listing request out with the header [Bearer ] and nothing after it,
    and a response without the field sends it with [Bearer undefined]. *)
Lemma unchecked_token_goes_out :
  let emptyToken := mkReply 5 (Some (mkResponse 200 None
                      (Some (mkJson (Some "") (Some 3600) None None None None None)))) in
  let noToken := mkReply 5 (Some (mkResponse 200 None
                   (Some (mkJson None (Some 3600) None None None None None)))) in
  kept isUnauthenticated
    (snd (AllUsers.main sampleConfig 5 (boot [emptyToken; usersReply [] None])))
  = [Sent (mkRequest GET (UsersList None) (Some ""))]
  /\ kept isApiRequest
       (snd (AllUsers.main sampleConfig 5 (boot [noToken; usersReply [] None])))
     = [Sent (mkRequest GET (UsersList None) (Some "undefined"))].
Proof. vm_compute. split; reflexivity. Qed.

Lemma good_sleeps_org (cfg : Config) (m : Method) (url : Endpoint) :
  0 <= BASE_DELAY_MS cfg ->
  forall steps attempt refreshed,
    quiet isBadSleep
      (OrgIdentities.requestWithRetry_steps cfg steps m url attempt refreshed).
Proof.
  intros Hbase.
  induction steps as [| steps IH]; intros attempt refreshed; [ apply preserves_pending | ].
  simpl.
  apply preserves_bind; [ apply quiet_getAccessToken_exchange_org; sift | intros tok ].
  apply preserves_bind; [ apply quiet_fetch; reflexivity | intros response ].
  destruct (_ && negb refreshed).
  - dismantle; primitives; try (apply quiet_getAccessToken_exchange_org; sift);
      try apply IH; reflexivity.
  - destruct (_ && (attempt <? MAX_RETRIES cfg)%nat); [ | apply preserves_ret ].
    apply (preserves_bind_knowing _
             (fun hint => match hint with Some ms => 0 <= ms | None => True end)).
    { intros s [ms |] s' E; [ | exact I ].
      rewrite parseRetryAfterMs_hint in E. injection E as E _.
      now apply retryAfterHint_nonneg in E. }
    { apply quiet_parseRetryAfterMs. }
    intros hint Hhint.
    apply (preserves_bind_knowing _ (fun jitter => 0 <= jitter < 250)).
    { intros s jitter s' E. injection E as <- _. apply jitter_range. }
    { apply quiet_random_below. }
    intros jitter Hjitter.
    assert (Hwait : 0 <= nullish hint
                           (Z.min (BASE_DELAY_MS cfg * 2 ^ Z.of_nat attempt) 15000)
                         + jitter).
    { assert (0 <= BASE_DELAY_MS cfg * 2 ^ Z.of_nat attempt)
        by (apply Z.mul_nonneg_nonneg; [ assumption | apply Z.pow_nonneg; lia ]).
      destruct hint as [ms |]; simpl; lia. }
    apply preserves_bind; [ apply quiet_log; reflexivity | intros _ ].
    apply preserves_bind; [ | intros _; apply IH ].
    apply quiet_sleep. simpl. now apply Z.ltb_ge.
Qed.

(** X6.  With a base delay that is not negative,
    [deleteOrgUsersIdentities.ts] never sleeps for a negative time or for
    a delay that is not a number, whatever [Retry-After] headers the
    server sends. *)
Theorem no_bad_sleep_in_org_run (cfg : Config) (steps : nat) (w : World) :
  0 <= BASE_DELAY_MS cfg ->
  kept isBadSleep (snd (OrgIdentities.main cfg steps w)) = kept isBadSleep w.
Proof.
  intros Hbase. apply whole_main_org; try reflexivity.
  intros m url attempt refreshed. now apply good_sleeps_org.
Qed.

Lemma no_bad_sleep_in_org_run_witness :
  let w := boot [tokenReply "T" 3600;
                 throttledReply 429 (mkHeader (Num (-5)) (Num 300));
                 orgUsersReply [] None] in
  kept isBadSleep (snd (OrgIdentities.main sampleConfig 5 w)) = kept isBadSleep w.
Proof.
  intros w. apply (no_bad_sleep_in_org_run sampleConfig 5%nat w).
  simpl. lia.
Defined.

End NeverDone.

(** ** Listing first, deleting after *)

Section ListingThenDeleting.

Lemma kept_after {A : Type} (keep : Event -> bool) (m : Eff A) (w w' : World)
    (o : Outcome A) :
  quiet keep m -> m w = (o, w') -> kept keep w' = kept keep w.
Proof.
  intros Hq E. change w' with (snd (o, w')). rewrite <- E.
  apply (quiet_kept keep m Hq).
Qed.

Lemma exitCode_after {A : Type} (keep : Event -> bool) (m : Eff A) (w w' : World)
    (o : Outcome A) :
  quiet keep m -> m w = (o, w') -> exitCode w' = exitCode w.
Proof.
  intros Hq E. change w' with (snd (o, w')). rewrite <- E.
  apply (exitCode_view keep), Hq.
Qed.

(** X7.  In both scripts the listing of users comes before any delete.
    When it fails, the run ends with the error on the console and exit
    code 1, and no user or identity has been deleted; when it comes back
    empty, the run ends with nothing deleted and the exit code as it
    was. *)
Theorem no_listing_no_delete (cfg : Config) (steps : nat) (w : World) :
  let w0 := note (Logged Settings) (note (Logged Starting) w) in
  (forall e w1,
      AllUsers.collectAllUsers cfg steps w0 = (Throw e, w1) ->
      AllUsers.main cfg steps w = (Return tt, exitWith 1 (note (ConsoleError e) w1))
      /\ kept isDeletion w1 = kept isDeletion w)
  /\ (forall w1,
         AllUsers.collectAllUsers cfg steps w0 = (Return [], w1) ->
         AllUsers.main cfg steps w = (Return tt, note (Logged NothingToDelete) w1)
         /\ kept isDeletion w1 = kept isDeletion w
         /\ exitCode w1 = exitCode w)
  /\ (forall e w1,
         OrgIdentities.collectOrganizationUsers cfg steps w0 = (Throw e, w1) ->
         OrgIdentities.main cfg steps w
         = (Return tt, exitWith 1 (note (ConsoleError e) w1))
         /\ kept isDeletion w1 = kept isDeletion w)
  /\ (forall w1,
         OrgIdentities.collectOrganizationUsers cfg steps w0 = (Return [], w1) ->
         OrgIdentities.main cfg steps w = (Return tt, note (Logged NothingToDelete) w1)
         /\ kept isDeletion w1 = kept isDeletion w
         /\ exitCode w1 = exitCode w).
Proof.
  cbv zeta.
  assert (Hu : quiet isDeletion (AllUsers.collectAllUsers cfg steps))
    by (apply quiet_collectAllUsers; sift).
  assert (Ho : quiet isDeletion (OrgIdentities.collectOrganizationUsers cfg steps))
    by (apply quiet_collectOrganizationUsers; sift).
  repeat split.
  - unfold AllUsers.main, try_catch.
    rewrite (bind_returns (log Starting) _ w _ tt eq_refl).
    rewrite (bind_returns (log Settings) _ _ _ tt eq_refl).
    rewrite (bind_throws _ _ _ _ _ H). reflexivity.
  - apply (kept_after _ _ _ _ _ Hu H).
  - unfold AllUsers.main, try_catch.
    rewrite (bind_returns (log Starting) _ w _ tt eq_refl).
    rewrite (bind_returns (log Settings) _ _ _ tt eq_refl).
    rewrite (bind_returns _ _ _ _ _ H). reflexivity.
  - apply (kept_after _ _ _ _ _ Hu H).
  - apply (exitCode_after _ _ _ _ _ Hu H).
  - unfold OrgIdentities.main, try_catch.
    rewrite (bind_returns (log Starting) _ w _ tt eq_refl).
    rewrite (bind_returns (log Settings) _ _ _ tt eq_refl).
    rewrite (bind_throws _ _ _ _ _ H). reflexivity.
  - apply (kept_after _ _ _ _ _ Ho H).
  - unfold OrgIdentities.main, try_catch.
    rewrite (bind_returns (log Starting) _ w _ tt eq_refl).
    rewrite (bind_returns (log Settings) _ _ _ tt eq_refl).
    rewrite (bind_returns _ _ _ _ _ H). reflexivity.
  - apply (kept_after _ _ _ _ _ Ho H).
  - apply (exitCode_after _ _ _ _ _ Ho H).
Qed.

Lemma no_listing_no_delete_witness :
  let down := boot [tokenReply "T" 3600; statusReply 403] in
  let none := boot [tokenReply "T" 3600; usersReply [] None] in
  let noneOrg := boot [tokenReply "T" 3600; orgUsersReply [] None] in
  let started w := note (Logged Settings) (note (Logged Starting) w) in
  let denied url := RequestFailed GET url 403 in
  let wu := snd (AllUsers.collectAllUsers sampleConfig 5 (started down)) in
  let wo := snd (OrgIdentities.collectOrganizationUsers sampleConfig 5 (started down)) in
  let eu := snd (AllUsers.collectAllUsers sampleConfig 5 (started none)) in
  let eo := snd (OrgIdentities.collectOrganizationUsers sampleConfig 5 (started noneOrg)) in
  (AllUsers.main sampleConfig 5 down
   = (Return tt, exitWith 1 (note (ConsoleError (denied (UsersList None))) wu))
   /\ kept isDeletion wu = kept isDeletion down)
  /\ (AllUsers.main sampleConfig 5 none = (Return tt, note (Logged NothingToDelete) eu)
      /\ kept isDeletion eu = kept isDeletion none
      /\ exitCode eu = exitCode none)
  /\ (OrgIdentities.main sampleConfig 5 down
      = (Return tt, exitWith 1 (note (ConsoleError (denied (OrgUsersList None))) wo))
      /\ kept isDeletion wo = kept isDeletion down)
  /\ (OrgIdentities.main sampleConfig 5 noneOrg
      = (Return tt, note (Logged NothingToDelete) eo)
      /\ kept isDeletion eo = kept isDeletion noneOrg
      /\ exitCode eo = exitCode noneOrg).
Proof.
  intros down none noneOrg started denied wu wo eu eo.
  split; [ | split; [ | split ] ].
  - apply (proj1 (no_listing_no_delete sampleConfig 5%nat down)).
    vm_compute. reflexivity.
  - apply (proj1 (proj2 (no_listing_no_delete sampleConfig 5%nat none))).
    vm_compute. reflexivity.
  - apply (proj1 (proj2 (proj2 (no_listing_no_delete sampleConfig 5%nat down)))).
    vm_compute. reflexivity.
  - apply (proj2 (proj2 (proj2 (no_listing_no_delete sampleConfig 5%nat noneOrg)))).
    vm_compute. reflexivity.
Defined.

Lemma kept_main_org (cfg : Config) (keep : Event -> bool) (steps : nat) :
  ignores plumbing keep -> ignores paging keep -> ignores narration keep ->
  (forall id tok, id <> "" -> keep (Sent (mkRequest DELETE (IdentityById id) tok)) = false) ->
  (forall e, keep (ConsoleError e) = false) ->
  preserves (kept keep) (OrgIdentities.main cfg steps).
Proof.
  intros Hp Hg Hn Hid Herr.
  assert (Hlog : forall msg, narration (Logged msg) = true -> quiet keep (log msg))
    by (intros msg Hmsg; apply quiet_log; now apply Hn).
  unfold OrgIdentities.main.
  apply preserves_try.
  - apply preserves_bind; [ apply quiet_kept, Hlog; reflexivity | intros _ ].
    apply preserves_bind; [ apply quiet_kept, Hlog; reflexivity | intros _ ].
    apply preserves_bind; [ apply quiet_kept; now apply quiet_collectOrganizationUsers | ].
    intros orgUsers.
    destruct (length orgUsers =? 0)%nat; [ apply quiet_kept, Hlog; reflexivity | ].
    apply preserves_bind; [ apply quiet_kept; now apply quiet_forEachUser | intros t ].
    apply preserves_bind; [ apply quiet_kept, Hlog; reflexivity | intros _ ].
    destruct (0 <? _)%nat; [ apply kept_set_exitCode | apply preserves_ret ].
  - intros e. apply preserves_bind; [ now apply kept_console_error | intros _ ].
    apply kept_set_exitCode.
Qed.

Lemma kept_main_all (cfg : Config) (keep : Event -> bool) (steps : nat) :
  ignores plumbing keep -> ignores paging keep -> ignores narration keep ->
  (forall id tok, keep (Sent (mkRequest DELETE (UserById id) tok)) = false) ->
  (forall e, keep (ConsoleError e) = false) ->
  preserves (kept keep) (AllUsers.main cfg steps).
Proof.
  intros Hp Hg Hn Hid Herr.
  assert (Hlog : forall msg, narration (Logged msg) = true -> quiet keep (log msg))
    by (intros msg Hmsg; apply quiet_log; now apply Hn).
  unfold AllUsers.main.
  apply preserves_try.
  - apply preserves_bind; [ apply quiet_kept, Hlog; reflexivity | intros _ ].
    apply preserves_bind; [ apply quiet_kept, Hlog; reflexivity | intros _ ].
    apply preserves_bind; [ apply quiet_kept; now apply quiet_collectAllUsers | ].
    intros found.
    destruct (length found =? 0)%nat; [ apply quiet_kept, Hlog; reflexivity | ].
    apply preserves_bind; [ apply quiet_kept; now apply quiet_deleteAllUsers | intros _ ].
    apply quiet_kept, Hlog. reflexivity.
  - intros e. apply preserves_bind; [ now apply kept_console_error | intros _ ].
    apply kept_set_exitCode.
Qed.

(** X8.  Each script deletes only its own kind of resource:
    [deleteOrgUsersIdentities.ts] never sends a [DELETE] for a user, and
    [deleteAllUsers.ts] never sends one for an identity, whatever the
    server answers. *)
Theorem each_script_deletes_its_own_kind (cfg : Config) (steps : nat) (w : World) :
  kept isUserDeletion (snd (OrgIdentities.main cfg steps w)) = kept isUserDeletion w
  /\ kept isIdentityDeletion (snd (AllUsers.main cfg steps w)) = kept isIdentityDeletion w.
Proof.
  split.
  - apply kept_main_org; solve [ sift | reflexivity ].
  - apply kept_main_all; solve [ sift | reflexivity ].
Qed.

End ListingThenDeleting.

(** ** Counting what was deleted *)

Section Totals.

Import OrgIdentities.

Variable cfg : Config.

(** What a batch that returns has counted and done. *)
Lemma deleteAllUserIdentities_returned (steps : nat) (user : OrganizationUser)
    (w w' : World) (r : BulkResult) :
  deleteAllUserIdentities cfg steps user w = (Return r, w') ->
  (deleted r + failed r = processed r)%nat
  /\ length (identityAttempts w') = (length (identityAttempts w) + processed r)%nat.
Proof.
  intros E.
  assert (E' := E). unfold deleteAllUserIdentities in E'.
  apply bind_inv in E' as ([] & w0 & Elog & E').
  apply bind_inv in E' as (found & w1 & Hfound & _).
  injection Elog as <-.
  destruct (deleteAllUserIdentities_run _ _ _ _ _ _ Hfound)
    as (r' & w2 & E2 & Hproc & Hsum & _ & Hatt & _).
  rewrite E in E2. injection E2 as <- <-.
  split; [ exact Hsum | ].
  assert (Hsame : identityAttempts w1 = identityAttempts w).
  { change w1 with (snd (Return found, w1)). rewrite <- Hfound.
    transitivity (identityAttempts (note (Logged (ProcessingUser user)) w));
      [ | reflexivity ].
    apply identityAttempts_view, preserves_at, quiet_collectAllUserIdentities; sift. }
  rewrite Hatt, Hsame, length_app, Hproc. reflexivity.
Qed.

Lemma forEachUser_totals (steps : nat) :
  forall orgUsers t w t' w',
    forEachUser cfg steps orgUsers t w = (Return t', w') ->
    usersProcessed t' = (usersProcessed t + length orgUsers)%nat
    /\ (identitiesDeleted t' + identitiesFailed t' + identitiesProcessed t
        = identitiesDeleted t + identitiesFailed t + identitiesProcessed t')%nat
    /\ (length (identityAttempts w') + identitiesProcessed t
        = length (identityAttempts w) + identitiesProcessed t')%nat.
Proof.
  induction orgUsers as [| user rest IH]; intros t w t' w' E; simpl in E.
  - injection E as <- <-. simpl. repeat split; lia.
  - apply bind_inv in E as (r & w1 & Er & E).
    apply deleteAllUserIdentities_returned in Er as [Hsum Hatt].
    apply IH in E as (Hu & Hs & Ha). simpl in *. repeat split; lia.
Qed.

(** X9.  When the loop over the organization's users in [main] comes to
    its end, the totals it reports add up: every user was processed,
    [identitiesProcessed] is the number of [deleteIdentity] calls made, it
    equals [identitiesDeleted + identitiesFailed], and
    [identitiesFailed] is the number of failure lines logged. *)
Theorem org_totals_add_up (steps : nat) (orgUsers : list OrganizationUser)
    (w w' : World) (t : Totals) :
  forEachUser cfg steps orgUsers (mkTotals 0 0 0 0) w = (Return t, w') ->
  usersProcessed t = length orgUsers
  /\ (identitiesProcessed t = identitiesDeleted t + identitiesFailed t)%nat
  /\ length (identityAttempts w') = (length (identityAttempts w) + identitiesProcessed t)%nat
  /\ tally isIdentityFailure w' = (tally isIdentityFailure w + identitiesFailed t)%nat.
Proof.
  intros E.
  pose proof (forEachUser_failed cfg steps _ _ _ _ _ E) as Hf.
  apply forEachUser_totals in E as (Hu & Hs & Ha). simpl in *.
  repeat split; lia.
Qed.

End Totals.

Lemma org_totals_add_up_witness :
  let w := boot [tokenReply "T" 3600;
                 identitiesReply [Some "a"; Some "b"] false; statusReply 204; statusReply 403;
                 identitiesReply [Some "c"] false; statusReply 204] in
  let t := OrgIdentities.mkTotals 2 3 2 1 in
  let found := [plainUser "u1"; plainUser "u2"] in
  let w' := snd (OrgIdentities.forEachUser sampleConfig 5 found
                   (OrgIdentities.mkTotals 0 0 0 0) w) in
  OrgIdentities.usersProcessed t = length found
  /\ (OrgIdentities.identitiesProcessed t
      = OrgIdentities.identitiesDeleted t + OrgIdentities.identitiesFailed t)%nat
  /\ length (identityAttempts w')
     = (length (identityAttempts w) + OrgIdentities.identitiesProcessed t)%nat
  /\ tally isIdentityFailure w'
     = (tally isIdentityFailure w + OrgIdentities.identitiesFailed t)%nat.
Proof.
  intros w t found w'.
  apply (org_totals_add_up sampleConfig 5%nat found w w' t).
  vm_compute. reflexivity.
Defined.

(** X10.  [deleteAllUsers] never throws: it ends by logging the two
    counts, which add up to the number of users it was given, the second
    being the number of failure lines it logged. *)
Theorem user_counts_add_up (cfg : Config) (batch : list User) (w : World) :
  exists success failures w1,
    AllUsers.deleteAllUsers cfg batch w
    = (Return tt, note (Logged (DeletionFinished success failures)) w1)
    /\ (success + failures = length batch)%nat
    /\ tally isUserFailure w1 = (tally isUserFailure w + failures)%nat.
Proof.
  unfold AllUsers.deleteAllUsers.
  destruct (deleteEach_run cfg (length batch) batch 0%nat (0%nat, 0%nat) w)
    as (c & w1 & E & Hsum & Hf & _ & _).
  rewrite (bind_returns _ _ _ _ _ E).
  exists (fst c), (snd c), w1. split; [ reflexivity | ]. simpl in *. split; lia.
Qed.

(** ** What the paginators gather *)

Section Gathering.

Variable ps : nat -> Error + Json.

Lemma serve_returns (shape : Json -> Json) (tok : option string) (s s1 : PageServer)
    (data : Json) :
  serve shape tok s = (Return data, s1) ->
  exists page,
    pages s (position s) = inr page /\ data = shape page
    /\ s1 = mkServer (pages s) (S (position s)) (tok :: asked s).
Proof.
  unfold serve. destruct (pages s (position s)) as [e | page]; intros H;
    [ discriminate | ].
  injection H as <- <-. now exists page.
Qed.

Lemma collectAllUsers_loop_gathers :
  forall steps all tok page s r s',
    pages s = ps ->
    AllUsers.collectAllUsers_loop mute (serve as_is) steps all tok page s = (Return r, s') ->
    exists n,
      position s' = (position s + S n)%nat
      /\ r = all ++ flat_map (pageItems users ps) (seq (position s) (S n))
      /\ asked s' = rev (map (pageToken ps) (seq (position s) n)) ++ tok :: asked s.
Proof.
  induction steps as [| steps IH]; intros all tok page s r s' Hps H; [ discriminate | ].
  simpl in H.
  apply bind_inv in H as (data & s1 & Hserve & H).
  apply serve_returns in Hserve as (pg & Hpg & -> & ->). unfold as_is in H.
  apply bind_inv in H as ([] & s2 & Hmute & H). injection Hmute as <-.
  assert (Hitems : pageItems users ps (position s) = nullish (users pg) [])
    by (unfold pageItems; now rewrite <- Hps, Hpg).
  assert (Htoken : pageToken ps (position s) = next_token pg)
    by (unfold pageToken; now rewrite <- Hps, Hpg).
  destruct (negb (truthy (next_token pg)) || strict_eq (next_token pg) tok
            || (length (nullish (users pg) []) =? 0)%nat).
  - exists 0%nat.
    assert (E : (Return (all ++ nullish (users pg) []),
                 mkServer (pages s) (S (position s)) (tok :: asked s)) = (Return r, s')).
    { rewrite <- H.
      destruct (negb (truthy (next_token pg)));
        [ | destruct (strict_eq (next_token pg) tok) ]; reflexivity. }
    injection E as <- <-. simpl. rewrite Hitems, app_nil_r.
    repeat split. lia.
  - apply IH in H as (n & Hpos & Hr & Hasked); [ | exact Hps ].
    cbn [position asked] in *.
    exists (S n). split; [ lia | ]. split.
    + rewrite Hr. change (seq (position s) (S (S n)))
        with (position s :: seq (S (position s)) (S n)).
      cbn [flat_map]. rewrite Hitems, app_assoc. reflexivity.
    + rewrite Hasked. change (seq (position s) (S n))
        with (position s :: seq (S (position s)) n).
      cbn [map rev]. rewrite Htoken, <- app_assoc. reflexivity.
Qed.

Lemma collectAllUserIdentities_loop_gathers (user : OrganizationUser) :
  forall steps all cursor page s r s',
    pages s = ps ->
    OrgIdentities.collectAllUserIdentities_loop mute serve_identities
      steps user all cursor page s = (Return r, s') ->
    exists n,
      position s' = (position s + S n)%nat
      /\ r = all ++ flat_map (pageItems identities ps) (seq (position s) (S n))
      /\ asked s' = rev (map (pageCursor ps) (seq (position s) n)) ++ cursor :: asked s.
Proof.
  induction steps as [| steps IH]; intros all cursor page s r s' Hps H; [ discriminate | ].
  simpl in H.
  apply bind_inv in H as (data & s1 & Hserve & H).
  unfold serve_identities in Hserve.
  apply serve_returns in Hserve as (pg & Hpg & -> & ->). unfold as_is in H.
  apply bind_inv in H as ([] & s2 & Hmute & H). injection Hmute as <-.
  assert (Hitems : pageItems identities ps (position s) = nullish (identities pg) [])
    by (unfold pageItems; now rewrite <- Hps, Hpg).
  assert (Hcursor : pageCursor ps (position s)
                    = OrgIdentities.lastId (nullish (identities pg) []))
    by (unfold pageCursor; now rewrite <- Hps, Hpg).
  assert (Hstop : forall kept0 line,
             (mute line ;; ret kept0)%eff
               (mkServer (pages s) (S (position s)) (cursor :: asked s))
             = (Return r, s') ->
             kept0 = all ++ nullish (identities pg) [] ->
             exists n,
               position s' = (position s + S n)%nat
               /\ r = all ++ flat_map (pageItems identities ps) (seq (position s) (S n))
               /\ asked s' = rev (map (pageCursor ps) (seq (position s) n))
                             ++ cursor :: asked s).
  { intros kept0 line E ->. injection E as <- <-. exists 0%nat.
    simpl. rewrite Hitems, app_nil_r. repeat split. lia. }
  destruct (length (nullish (identities pg) []) =? 0)%nat eqn:Elen.
  - apply (Hstop _ _ H).
    apply Nat.eqb_eq, length_zero_iff_nil in Elen. rewrite Elen, app_nil_r. reflexivity.
  - destruct (negb (nullish (has_more pg) false)); [ now apply (Hstop _ _ H) | ].
    destruct (negb (truthy _)); [ now apply (Hstop _ _ H) | ].
    destruct (strict_eq _ cursor); [ now apply (Hstop _ _ H) | ].
    apply IH in H as (n & Hpos & Hr & Hasked); [ | exact Hps ].
    cbn [position asked] in *.
    exists (S n). split; [ lia | ]. split.
    + rewrite Hr. change (seq (position s) (S (S n)))
        with (position s :: seq (S (position s)) (S n)).
      cbn [flat_map]. rewrite Hitems, app_assoc. reflexivity.
    + rewrite Hasked. change (seq (position s) (S n))
        with (position s :: seq (S (position s)) n).
      cbn [map rev]. rewrite Hcursor, <- app_assoc. reflexivity.
Qed.

Lemma collected_users (steps : nat) (r : list User) (s : PageServer) :
  AllUsers.collectAllUsers_with mute (serve as_is) steps (opened ps) = (Return r, s) ->
  exists n,
    position s = S n
    /\ r = flat_map (pageItems users ps) (seq 0 (S n))
    /\ rev (asked s) = None :: map (pageToken ps) (seq 0 n).
Proof.
  unfold AllUsers.collectAllUsers_with. intros H.
  apply bind_inv in H as (all & s1 & Hloop & H).
  apply bind_inv in H as ([] & s2 & Hmute & H).
  injection Hmute as <-. injection H as <- <-.
  apply collectAllUsers_loop_gathers in Hloop as (n & Hpos & Hr & Hasked);
    [ | reflexivity ].
  exists n. cbn [position asked opened] in *. repeat split; auto.
  rewrite Hasked, rev_app_distr, rev_involutive. reflexivity.
Qed.

Lemma collected_identities (steps : nat) (user : OrganizationUser)
    (r : list Identity) (s : PageServer) :
  OrgIdentities.collectAllUserIdentities_with mute serve_identities steps user (opened ps)
  = (Return r, s) ->
  exists n,
    position s = S n
    /\ r = flat_map (pageItems identities ps) (seq 0 (S n))
    /\ rev (asked s) = None :: map (pageCursor ps) (seq 0 n).
Proof.
  unfold OrgIdentities.collectAllUserIdentities_with. intros H.
  apply bind_inv in H as ([] & s0 & Hmute0 & H). injection Hmute0 as <-.
  apply bind_inv in H as (all & s1 & Hloop & H).
  apply bind_inv in H as ([] & s2 & Hmute & H).
  injection Hmute as <-. injection H as <- <-.
  apply collectAllUserIdentities_loop_gathers in Hloop as (n & Hpos & Hr & Hasked);
    [ | reflexivity ].
  exists n. cbn [position asked opened] in *. repeat split; auto.
  rewrite Hasked, rev_app_distr, rev_involutive. reflexivity.
Qed.

Lemma withs_agree (steps : nat) :
  AllUsers.collectAllUsers_with mute (serve as_is) steps (opened ps)
  = OrgIdentities.collectOrganizationUsers_with mute (serve as_organization_users)
      steps (opened ps).
Proof.
  unfold AllUsers.collectAllUsers_with, OrgIdentities.collectOrganizationUsers_with.
  unfold bind. now rewrite (loops_agree ps).
Qed.

(** X11.  A paginator that returns has fetched the pages 0 to n for some
    n, and what it returns is the items of those pages, all of them, in
    the order they came. *)
Theorem every_fetched_item_is_returned (steps : nat) (user : OrganizationUser) :
  (forall r s,
      AllUsers.collectAllUsers_with mute (serve as_is) steps (opened ps) = (Return r, s) ->
      r = flat_map (pageItems users ps) (seq 0 (position s)))
  /\ (forall r s,
         OrgIdentities.collectOrganizationUsers_with mute (serve as_organization_users)
           steps (opened ps) = (Return r, s) ->
         r = flat_map (pageItems users ps) (seq 0 (position s)))
  /\ (forall r s,
         OrgIdentities.collectAllUserIdentities_with mute serve_identities
           steps user (opened ps) = (Return r, s) ->
         r = flat_map (pageItems identities ps) (seq 0 (position s))).
Proof.
  split; [ | split ]; intros r s H.
  - apply collected_users in H as (n & -> & Hr & _). exact Hr.
  - rewrite <- withs_agree in H.
    apply (collected_users steps r s) in H as (n & -> & Hr & _). exact Hr.
  - apply collected_identities in H as (n & -> & Hr & _). exact Hr.
Qed.

(** X12.  A paginator that returns has asked for its first page without a
    token and for every later page with what the page before it gave:
    its next-token in the two listings, the id of its last identity in the
    identity listing. *)
Theorem each_page_is_asked_with_the_last_token (steps : nat) (user : OrganizationUser) :
  (forall r s,
      AllUsers.collectAllUsers_with mute (serve as_is) steps (opened ps) = (Return r, s) ->
      rev (asked s) = None :: map (pageToken ps) (seq 0 (position s - 1)))
  /\ (forall r s,
         OrgIdentities.collectOrganizationUsers_with mute (serve as_organization_users)
           steps (opened ps) = (Return r, s) ->
         rev (asked s) = None :: map (pageToken ps) (seq 0 (position s - 1)))
  /\ (forall r s,
         OrgIdentities.collectAllUserIdentities_with mute serve_identities
           steps user (opened ps) = (Return r, s) ->
         rev (asked s) = None :: map (pageCursor ps) (seq 0 (position s - 1))).
Proof.
  split; [ | split ]; intros r s H.
  - apply collected_users in H as (n & -> & _ & Ha).
    now replace (S n - 1)%nat with n by lia.
  - rewrite <- withs_agree in H.
    apply (collected_users steps r s) in H as (n & -> & _ & Ha).
    now replace (S n - 1)%nat with n by lia.
  - apply collected_identities in H as (n & -> & _ & Ha).
    now replace (S n - 1)%nat with n by lia.
Qed.

End Gathering.

Lemma every_fetched_item_is_returned_witness :
  let ps := paged [listing ["a"; "b"] (Some "A"); listing ["c"] None] in
  let ids := paged [inr (mkJson None None None None
                            (Some [plainIdentity (Some "i"); plainIdentity (Some "j")])
                            None (Some true));
                    inr (mkJson None None None None
                            (Some [plainIdentity (Some "k")]) None (Some false))] in
  let su := snd (AllUsers.collectAllUsers_with mute (serve as_is) 5 (opened ps)) in
  let so := snd (OrgIdentities.collectOrganizationUsers_with mute
                   (serve as_organization_users) 5 (opened ps)) in
  let si := snd (OrgIdentities.collectAllUserIdentities_with mute serve_identities
                   5 (plainUser "u") (opened ids)) in
  map plainUser ["a"; "b"; "c"] = flat_map (pageItems users ps) (seq 0 (position su))
  /\ map plainUser ["a"; "b"; "c"] = flat_map (pageItems users ps) (seq 0 (position so))
  /\ map plainIdentity [Some "i"; Some "j"; Some "k"]
     = flat_map (pageItems identities ids) (seq 0 (position si)).
Proof.
  intros ps ids su so si.
  split; [ | split ].
  - apply (proj1 (every_fetched_item_is_returned ps 5%nat (plainUser "u"))).
    vm_compute. reflexivity.
  - apply (proj1 (proj2 (every_fetched_item_is_returned ps 5%nat (plainUser "u")))).
    vm_compute. reflexivity.
  - apply (proj2 (proj2 (every_fetched_item_is_returned ids 5%nat (plainUser "u")))).
    vm_compute. reflexivity.
Defined.

Lemma each_page_is_asked_with_the_last_token_witness :
  let ps := paged [listing ["a"; "b"] (Some "A"); listing ["c"] None] in
  let ids := paged [inr (mkJson None None None None
                            (Some [plainIdentity (Some "i"); plainIdentity (Some "j")])
                            None (Some true));
                    inr (mkJson None None None None
                            (Some [plainIdentity (Some "k")]) None (Some false))] in
  let su := snd (AllUsers.collectAllUsers_with mute (serve as_is) 5 (opened ps)) in
  let so := snd (OrgIdentities.collectOrganizationUsers_with mute
                   (serve as_organization_users) 5 (opened ps)) in
  let si := snd (OrgIdentities.collectAllUserIdentities_with mute serve_identities
                   5 (plainUser "u") (opened ids)) in
  rev (asked su) = None :: map (pageToken ps) (seq 0 (position su - 1))
  /\ rev (asked so) = None :: map (pageToken ps) (seq 0 (position so - 1))
  /\ rev (asked si) = None :: map (pageCursor ids) (seq 0 (position si - 1)).
Proof.
  intros ps ids su so si.
  split; [ | split ].
  - apply (proj1 (each_page_is_asked_with_the_last_token ps 5%nat (plainUser "u"))
             (map plainUser ["a"; "b"; "c"])).
    vm_compute. reflexivity.
  - apply (proj1 (proj2 (each_page_is_asked_with_the_last_token ps 5%nat (plainUser "u")))
             (map plainUser ["a"; "b"; "c"])).
    vm_compute. reflexivity.
  - apply (proj2 (proj2 (each_page_is_asked_with_the_last_token ids 5%nat (plainUser "u")))
             (map plainIdentity [Some "i"; Some "j"; Some "k"])).
    vm_compute. reflexivity.
Defined.

(** ** When the paginators stop *)

Section Stopping.

Variable ps : nat -> Error + Json.

Lemma collectAllUsers_loop_stops (k : nat) :
  closesListing ps k = true ->
  forall steps all tok page s,
    pages s = ps -> (position s <= k)%nat -> (k - position s < steps)%nat ->
    fst (AllUsers.collectAllUsers_loop mute (serve as_is) steps all tok page s) <> Pending.
Proof.
  intros Hk. induction steps as [| steps IH]; intros all tok page s Hps Hle Hlt; [ lia | ].
  simpl. cbv [bind serve mute ret as_is].
  pose proof Hk as Hk'. unfold closesListing in Hk'. rewrite <- Hps in Hk'.
  destruct (pages s (position s)) as [e | pg] eqn:Epg; [ discriminate | ].
  destruct (truthy (next_token pg)) eqn:Etok; cbn [negb orb];
    [ | discriminate ].
  destruct (strict_eq (next_token pg) tok); cbn [orb]; [ discriminate | ].
  destruct (length (nullish (users pg) []) =? 0)%nat; [ discriminate | ].
  assert (Hne : position s <> k).
  { intros E. rewrite <- E in Hk'. rewrite Epg, Etok in Hk'. discriminate. }
  apply IH; cbn [pages position]; auto; lia.
Qed.

Lemma collectAllUserIdentities_loop_stops (k : nat) (user : OrganizationUser) :
  closesIdentities ps k = true ->
  forall steps all cursor page s,
    pages s = ps -> (position s <= k)%nat -> (k - position s < steps)%nat ->
    fst (OrgIdentities.collectAllUserIdentities_loop mute serve_identities
           steps user all cursor page s) <> Pending.
Proof.
  intros Hk. induction steps as [| steps IH]; intros all cursor page s Hps Hle Hlt;
    [ lia | ].
  simpl. cbv [bind serve_identities serve mute ret as_is].
  pose proof Hk as Hk'. unfold closesIdentities in Hk'. rewrite <- Hps in Hk'.
  destruct (pages s (position s)) as [e | pg] eqn:Epg; [ discriminate | ].
  destruct (length (nullish (identities pg) []) =? 0)%nat; [ discriminate | ].
  destruct (nullish (has_more pg) false) eqn:Emore; cbn [negb]; [ | discriminate ].
  destruct (negb (truthy _)); [ discriminate | ].
  destruct (strict_eq _ cursor); [ discriminate | ].
  assert (Hne : position s <> k).
  { intros E. rewrite <- E in Hk'. rewrite Epg, Emore in Hk'. discriminate. }
  apply IH; cbn [pages position]; auto; lia.
Qed.

(** X13.  The loops end on a well-behaved server.  If page k of a listing
    fails or carries no next-token, the two listing paginators are done
    (returned or thrown) within k + 1 turns; if page k of an identity
    listing fails or does not say [has_more], so is the identity
    paginator. *)
Theorem paginators_stop_at_the_last_page (k steps : nat) (user : OrganizationUser) :
  (k < steps)%nat ->
  (closesListing ps k = true ->
   fst (AllUsers.collectAllUsers_with mute (serve as_is) steps (opened ps)) <> Pending
   /\ fst (OrgIdentities.collectOrganizationUsers_with mute (serve as_organization_users)
             steps (opened ps)) <> Pending)
  /\ (closesIdentities ps k = true ->
      fst (OrgIdentities.collectAllUserIdentities_with mute serve_identities
             steps user (opened ps)) <> Pending).
Proof.
  intros Hlt. split.
  - intros Hk.
    assert (Hu : fst (AllUsers.collectAllUsers_with mute (serve as_is) steps (opened ps))
                 <> Pending).
    { unfold AllUsers.collectAllUsers_with, bind.
      pose proof (collectAllUsers_loop_stops k Hk steps [] None 0%nat (opened ps)
                    eq_refl ltac:(simpl; lia) ltac:(simpl; lia)) as H.
      destruct (AllUsers.collectAllUsers_loop _ _ _ _ _ _ _) as [[all | e |] s];
        simpl in *; [ discriminate | discriminate | contradiction ]. }
    split; [ exact Hu | ]. now rewrite <- withs_agree.
  - intros Hk.
    unfold OrgIdentities.collectAllUserIdentities_with, bind. unfold mute at 1.
    unfold ret at 1.
    pose proof (collectAllUserIdentities_loop_stops k user Hk steps [] None 0%nat (opened ps)
                  eq_refl ltac:(simpl; lia) ltac:(simpl; lia)) as H.
    destruct (OrgIdentities.collectAllUserIdentities_loop _ _ _ _ _ _ _ _)
      as [[all | e |] s]; simpl in *; [ discriminate | discriminate | contradiction ].
Qed.

End Stopping.

Lemma paginators_stop_at_the_last_page_witness :
  let ps := paged [listing ["a"] (Some "A"); listing ["b"] (Some "B"); listing ["c"] None] in
  (fst (AllUsers.collectAllUsers_with mute (serve as_is) 3 (opened ps)) <> Pending
   /\ fst (OrgIdentities.collectOrganizationUsers_with mute (serve as_organization_users)
             3 (opened ps)) <> Pending)
  /\ fst (OrgIdentities.collectAllUserIdentities_with mute serve_identities
            3 (plainUser "u") (opened ps)) <> Pending.
Proof.
  intros ps.
  destruct (paginators_stop_at_the_last_page ps 2%nat 3%nat (plainUser "u")) as [Hl Hi].
  - lia.
  - split; [ apply Hl | apply Hi ]; reflexivity.
Defined.

(** ** Error texts and settings *)

Section ErrorText.

Import OrgErrors.

Lemma orNoBody_not_empty (text : string) : orNoBody text <> "".
Proof.
  unfold orNoBody. destruct (String.eqb_spec text ""); [ discriminate | assumption ].
Qed.

Lemma labelled_not_empty (code message : option string) :
  truthy code || truthy message = true -> labelled code message <> "".
Proof.
  unfold labelled, OrgIdentities.filter_Boolean. simpl.
  destruct code as [[| c cs] |], message as [[| d ds] |]; simpl; intros H;
    try discriminate.
Qed.

(** X14.  [formatErrorBody] gives an empty text only for a body whose
    [errors] array has entries (and none of them a code or a message):
    a body that is not JSON, or JSON without such an array, always yields
    some text. *)
Theorem error_text_is_empty_only_for_an_errors_array
    (tryParseJson : string -> option ApiErrorResponse) (text : string) :
  formatErrorBody tryParseJson text = "" ->
  exists parsed e es,
    tryParseJson text = Some parsed /\ api_errors parsed = Some (e :: es).
Proof.
  unfold formatErrorBody.
  destruct (tryParseJson text) as [parsed |];
    [ | intros H; now apply orNoBody_not_empty in H ].
  destruct (api_errors parsed) as [[| e es] |] eqn:Eerrors.
  - destruct (truthy (api_code parsed) || truthy (api_message parsed)) eqn:E; intros H.
    + now apply labelled_not_empty in H.
    + now apply orNoBody_not_empty in H.
  - intros _. now exists parsed, e, es.
  - destruct (truthy (api_code parsed) || truthy (api_message parsed)) eqn:E; intros H.
    + now apply labelled_not_empty in H.
    + now apply orNoBody_not_empty in H.
Qed.

Lemma error_text_is_empty_only_for_an_errors_array_witness :
  exists parsed e es,
    sampleParse "{errors:[{}]}" = Some parsed /\ api_errors parsed = Some (e :: es).
Proof.
  apply (error_text_is_empty_only_for_an_errors_array sampleParse "{errors:[{}]}").
  vm_compute. reflexivity.
Defined.

End ErrorText.

Section StartupFacts.

Import OrgConfig.

Variable trim : string -> string.
Variable integerOf : string -> option Z.
Variable toLowerCase : string -> string.
Variable env : Env.

Lemma requiredEnv_given (name value : string) :
  requiredEnv env name = inr value -> env name = Some value /\ value <> "".
Proof.
  unfold requiredEnv. destruct (env name) as [v |]; [ | discriminate ].
  destruct (String.eqb_spec v ""); [ discriminate | ].
  intros H. injection H as <-. auto.
Qed.

Lemma parsePositiveIntEnv_given (name : string) (fallback value : Z) :
  parsePositiveIntEnv trim integerOf env name fallback = inr value ->
  0 < fallback -> 0 < value.
Proof.
  unfold parsePositiveIntEnv. destruct (env name) as [raw |].
  - destruct (trim raw =? "")%string.
    + intros H. injection H as <-. auto.
    + destruct (integerOf raw) as [v |]; [ | discriminate ].
      destruct (Z.leb_spec v 0) as [Hle | Hgt]; [ discriminate | ].
      intros E. injection E as <-. auto.
  - intros H. injection H as <-. auto.
Qed.

Lemma parseNonNegativeIntEnv_given (name : string) (fallback value : Z) :
  parseNonNegativeIntEnv trim integerOf env name fallback = inr value ->
  0 <= fallback -> 0 <= value.
Proof.
  unfold parseNonNegativeIntEnv. destruct (env name) as [raw |].
  - destruct (trim raw =? "")%string.
    + intros H. injection H as <-. auto.
    + destruct (integerOf raw) as [v |]; [ | discriminate ].
      destruct (Z.ltb_spec v 0) as [Hlt | Hge]; [ discriminate | ].
      intros E. injection E as <-. auto.
  - intros H. injection H as <-. auto.
Qed.

Lemma andThen_given {A B : Type} (r : ConfigError + A) (k : A -> ConfigError + B) (b : B) :
  andThen r k = inr b -> exists a, r = inr a /\ k a = inr b.
Proof. destruct r as [e | a]; [ discriminate | ]. intros H. now exists a. Qed.

(** X15.  When [deleteOrgUsersIdentities.ts] gets as far as [main], its
    settings have been checked: the host, the client id, the client secret
    and the organization code are the non-empty values of their
    variables, the page size and the base delay are positive, the retry
    limit is the non-negative number read, and the confirmation variable,
    lowered, reads [true]. *)
Theorem started_script_has_checked_settings (s : Settings) :
  startup trim integerOf toLowerCase env = inr s ->
  (env "KINDE_HOST" = Some (HOST s) /\ HOST s <> "")
  /\ (env "KINDE_CLIENT_ID" = Some (CLIENT_ID s) /\ CLIENT_ID s <> "")
  /\ (env "KINDE_CLIENT_SECRET" = Some (CLIENT_SECRET s) /\ CLIENT_SECRET s <> "")
  /\ (env "KINDE_ORG_CODE" = Some (ORG_CODE s) /\ ORG_CODE s <> "")
  /\ 0 < PAGE_SIZE s
  /\ 0 < BASE_DELAY_MS (retrying s)
  /\ (exists maxRetries,
         parseNonNegativeIntEnv trim integerOf env "KINDE_MAX_RETRIES" 6 = inr maxRetries
         /\ 0 <= maxRetries
         /\ MAX_RETRIES (retrying s) = Z.to_nat maxRetries)
  /\ toLowerCase (nullish (env "KINDE_CONFIRM_DELETE_ALL") "") = "true".
Proof.
  unfold startup. intros H.
  apply andThen_given in H as (host & Hhost & H).
  apply andThen_given in H as (clientId & Hid & H).
  apply andThen_given in H as (clientSecret & Hsecret & H).
  apply andThen_given in H as (orgCode & Horg & H).
  apply andThen_given in H as (pageSize & Hpage & H).
  apply andThen_given in H as (maxRetries & Hmax & H).
  apply andThen_given in H as (baseDelay & Hbase & H).
  cbv zeta in H.
  destruct (String.eqb_spec (toLowerCase (nullish (env "KINDE_CONFIRM_DELETE_ALL") ""))
              "true") as [Hconfirm | Hconfirm]; cbn [negb] in H; [ | discriminate ].
  injection H as <-. cbn [HOST CLIENT_ID CLIENT_SECRET ORG_CODE PAGE_SIZE retrying
                          BASE_DELAY_MS].
  apply requiredEnv_given in Hhost, Hid, Hsecret, Horg.
  apply parsePositiveIntEnv_given in Hpage; [ | lia ].
  apply parsePositiveIntEnv_given in Hbase; [ | lia ].
  pose proof (parseNonNegativeIntEnv_given _ _ _ Hmax ltac:(lia)) as Hnonneg.
  repeat split; try tauto; try assumption.
  exists maxRetries. auto.
Qed.

End StartupFacts.

Lemma started_script_has_checked_settings_witness :
  let s := OrgConfig.mkSettings "https://x.kinde.com" "id" "secret" "org_1" 25
             (mkConfig 6 500) "https://x.kinde.com/api" in
  (sampleEnv "KINDE_HOST" = Some (OrgConfig.HOST s) /\ OrgConfig.HOST s <> "")
  /\ (sampleEnv "KINDE_CLIENT_ID" = Some (OrgConfig.CLIENT_ID s)
      /\ OrgConfig.CLIENT_ID s <> "")
  /\ (sampleEnv "KINDE_CLIENT_SECRET" = Some (OrgConfig.CLIENT_SECRET s)
      /\ OrgConfig.CLIENT_SECRET s <> "")
  /\ (sampleEnv "KINDE_ORG_CODE" = Some (OrgConfig.ORG_CODE s) /\ OrgConfig.ORG_CODE s <> "")
  /\ 0 < OrgConfig.PAGE_SIZE s
  /\ 0 < BASE_DELAY_MS (OrgConfig.retrying s)
  /\ (exists maxRetries,
         OrgConfig.parseNonNegativeIntEnv (fun raw => raw) sampleInteger sampleEnv
           "KINDE_MAX_RETRIES" 6 = inr maxRetries
         /\ 0 <= maxRetries
         /\ MAX_RETRIES (OrgConfig.retrying s) = Z.to_nat maxRetries)
  /\ sampleLower (nullish (sampleEnv "KINDE_CONFIRM_DELETE_ALL") "") = "true".
Proof.
  intros s.
  apply (started_script_has_checked_settings (fun raw => raw) sampleInteger sampleLower
           sampleEnv s).
  vm_compute. reflexivity.
Defined.

(** ** Why a delete fails *)

Section DeleteFailures.

Lemma bind_inv_throw {St A B : Type} (m : M St A) (k : A -> M St B) (s s2 : St)
    (e : Error) :
  bind m k s = (Throw e, s2) ->
  m s = (Throw e, s2)
  \/ exists a s1, m s = (Return a, s1) /\ k a s1 = (Throw e, s2).
Proof.
  unfold bind. destruct (m s) as [[a | e' |] s1]; intros H.
  - right. now exists a, s1.
  - left. injection H as <- <-. reflexivity.
  - discriminate.
Qed.

(** An error that is not about the request itself: the network or the
    token exchange failed. *)
Lemma getAccessToken_throws_org (force : bool) (w w' : World) (e : Error) :
  OrgIdentities.getAccessToken force w = (Throw e, w') ->
  forall m u st, e <> RequestFailed m u st.
Proof.
  intros H m u st.
  destruct (getAccessToken_cases_org force w)
    as [(t & _ & E) | (_ & w1 & _ & [(e' & E & He) | (t & x & _ & E)])];
    rewrite E in H; try discriminate.
  injection H as <- <-.
  destruct He as [-> | [-> | (st' & -> & _)]]; discriminate.
Qed.

Lemma requestWithRetry_throws_org (cfg : Config) (m : Method) (url : Endpoint) :
  forall steps attempt refreshed w e w',
    OrgIdentities.requestWithRetry_steps cfg steps m url attempt refreshed w = (Throw e, w') ->
    forall m' u st, e <> RequestFailed m' u st.
Proof.
  induction steps as [| steps IH]; intros attempt refreshed w e w' H m' u st;
    [ discriminate | ].
  simpl in H.
  apply bind_inv_throw in H as [H | (tok & w1 & _ & H)];
    [ exact (getAccessToken_throws_org _ _ _ _ H _ _ _) | ].
  apply bind_inv_throw in H as [H | (r0 & w2 & _ & H)].
  { unfold fetch in H. destruct (result _); [ discriminate | ].
    injection H as <- _. discriminate. }
  destruct (_ && negb refreshed).
  - apply bind_inv_throw in H as [H | ([] & w3 & _ & H)]; [ discriminate | ].
    apply bind_inv_throw in H as [H | (tok' & w4 & _ & H)];
      [ exact (getAccessToken_throws_org _ _ _ _ H _ _ _) | ].
    exact (IH _ _ _ _ _ H _ _ _).
  - destruct (_ && (attempt <? MAX_RETRIES cfg)%nat); [ | discriminate ].
    rewrite (bind_returns _ _ _ _ _ (parseRetryAfterMs_hint _ w2)) in H.
    rewrite (bind_returns (random_below 250) _ w2 _ _ eq_refl) in H.
    rewrite (bind_returns (log _) _ _ _ tt eq_refl) in H.
    rewrite (bind_returns (sleep _) _ _ _ tt eq_refl) in H.
    exact (IH _ _ _ _ _ H _ _ _).
Qed.

(** X16.  When [deleteIdentity] fails over the answer to its request, the
    error names that [DELETE] and a status outside 200..299; a 429 or a
    5xx is reported only after all [MAX_RETRIES] backoff sleeps, a 401
    only after one forced token refresh. *)
Theorem delete_failure_names_the_last_status (cfg : Config) (identityId : string)
    (w w' : World) (m : Method) (u : Endpoint) (st : Z) :
  OrgIdentities.deleteIdentity cfg identityId w = (Throw (RequestFailed m u st), w') ->
  m = DELETE /\ u = IdentityById identityId
  /\ (st < 200 \/ 299 < st)
  /\ (st = 429 \/ 500 <= st ->
      tally isSleep w' = (tally isSleep w + MAX_RETRIES cfg)%nat)
  /\ (st = 401 -> tally isRefresh w' = S (tally isRefresh w)).
Proof.
  unfold OrgIdentities.deleteIdentity. intros H.
  apply bind_inv_throw in H as [H | (resp & w1 & Hcall & H)].
  { exfalso. unfold OrgIdentities.requestWithRetry in H.
    exact (requestWithRetry_throws_org _ _ _ _ _ _ _ _ _ H m u st eq_refl). }
  destruct (ok resp) eqn:Eok; cbn [negb] in H; [ discriminate | ].
  injection H as <- <- <- <-.
  apply surfaced_failures_were_retried_core in Hcall as [H401 Hretry].
  repeat split; auto.
  - now apply not_ok_status.
  - intros Hst. rewrite (Hretry Hst). lia.
Qed.

Lemma delete_failure_names_the_last_status_witness :
  let w := boot [tokenReply "T" 3600; statusReply 503; statusReply 503; statusReply 503] in
  let two := mkConfig 2 500 in
  let w' := snd (OrgIdentities.deleteIdentity two "a" w) in
  DELETE = DELETE /\ IdentityById "a" = IdentityById "a"
  /\ (503 < 200 \/ 299 < 503)
  /\ (503 = 429 \/ 500 <= 503 -> tally isSleep w' = (tally isSleep w + MAX_RETRIES two)%nat)
  /\ (503 = 401 -> tally isRefresh w' = S (tally isRefresh w)).
Proof.
  intros w two w'.
  apply (delete_failure_names_the_last_status two "a" w w' DELETE (IdentityById "a") 503).
  vm_compute. reflexivity.
Defined.

End DeleteFailures.
